(** * A single-instrument limit order book

    Shallow embedding of [src/orderbook/order_book.cpp] and the properties
    of its matching engine.

    Modelling conventions.
    - [uint64_t] values are numbers of type [N]; every C++ arithmetic
      operator on them is written with its wrap-around modulo [2^64]
      ([add64], [sub64]).
    - [double] prices are only ever compared ([<=], [>=], [==]) and used as
      keys of [std::map]; no arithmetic is performed on them.  A price is
      modelled by an integer of type [Z] carrying the same total order (the
      finite doubles, with the two zeros identified as [==] does).
    - [std::map<double, uint64_t>] is a [gmap Z N]; iteration follows the
      comparator of the map ([ladder_entries]).
    - [std::unordered_map<uint64_t, Order>] is an association list whose
      order is the iteration order of the table.  The C++ standard leaves
      that order unspecified: the invariants below are stable under any
      permutation of the list.
    - The [while] loops of [add_order] need not terminate on an
      inconsistent book; they are modelled with fuel, [None] standing for
      a call that has not returned. *)

From stdpp Require Import base numbers option list sorting fin_maps gmap.

(** ** Unsigned 64-bit arithmetic *)

Definition two64 : N := 18446744073709551616%N.

Definition add64 (a b : N) : N := ((a + b) mod two64)%N.
Definition sub64 (a b : N) : N := ((a + two64 - b) mod two64)%N.

(** ** Records of the public interface *)

(** Modelled from the spec: [OrderType], declared in [order_book.h], which
    is not part of the sources; the spec gives its two values. *)
Inductive OrderType : Set := LIMIT | MARKET.

Global Instance OrderType_eq_dec : EqDecision OrderType.
Proof. solve_decision. Defined.

(** Modelled from the spec: [struct Order] of [order_book.h]; the fields are
    those the source reads and the spec lists in its data model. *)
Record Order : Set := mkOrder {
  order_id : N;
  is_buy : bool;
  order_type : OrderType;
  price : Z;
  quantity : N
}.

(** Modelled from the spec: [struct Trade] of [order_book.h]. *)
Record Trade : Set := mkTrade {
  buy_order_id : N;
  sell_order_id : N;
  trade_price : Z;
  trade_quantity : N;
  timestamp_ns : N
}.

(** Modelled from the spec: [struct PriceLevel] of [order_book.h], in the
    field order of the brace initialiser of [get_snapshot]. *)
Record PriceLevel : Set := mkPriceLevel {
  level_price : Z;
  total_quantity : N;
  order_count : N
}.

Definition set_quantity (o : Order) (q : N) : Order :=
  mkOrder (order_id o) (is_buy o) (order_type o) (price o) q.

Definition set_terms (o : Order) (p : Z) (q : N) : Order :=
  mkOrder (order_id o) (is_buy o) (order_type o) p q.

(** ** The state: [OrderBookData] inside [OrderBookImpl]

    [next_order_id] is never read and [color_cycle] is only touched by
    [print_book]; neither is kept. *)
Record OrderBookImpl : Type := mkBook {
  orders : list (N * Order);
  bids : gmap Z N;
  asks : gmap Z N;
  bid_order_counts : gmap Z N;
  ask_order_counts : gmap Z N;
  max_bid_quantity : N;
  max_ask_quantity : N
}.

Definition empty_book : OrderBookImpl := mkBook [] ∅ ∅ ∅ ∅ 0 0.

(** ** The registry: [std::unordered_map<uint64_t, Order>] *)

(** [data.orders.find(id)] *)
Fixpoint orders_find (id : N) (l : list (N * Order)) : option Order :=
  match l with
  | [] => None
  | (k, o) :: l' => if (k =? id)%N then Some o else orders_find id l'
  end.

(** [data.orders.erase(id)] *)
Fixpoint orders_erase (id : N) (l : list (N * Order)) : list (N * Order) :=
  match l with
  | [] => []
  | (k, o) :: l' =>
      if (k =? id)%N then orders_erase id l' else (k, o) :: orders_erase id l'
  end.

(** [data.orders[id] = o] *)
Fixpoint orders_assign (id : N) (o : Order) (l : list (N * Order))
  : list (N * Order) :=
  match l with
  | [] => [(id, o)]
  | (k, o') :: l' =>
      if (k =? id)%N then (k, o) :: l' else (k, o') :: orders_assign id o l'
  end.

(** ** The ladders: [std::map<double, uint64_t, Compare>] *)

(** The comparator of the map, lifted to its entries: [desc = true] is
    [std::greater<double>] (the bids), [desc = false] is [std::less]. *)
Definition key_before (desc : bool) : relation (Z * N) :=
  λ x y, if desc then (y.1 ≤ x.1)%Z else (x.1 ≤ y.1)%Z.

Global Instance key_before_dec desc x y : Decision (key_before desc x y).
Proof. unfold key_before. destruct desc; apply _. Defined.

(** The entries in iteration order, from [begin()] to [end()]. *)
Definition ladder_entries (desc : bool) (m : gmap Z N) : list (Z * N) :=
  merge_sort (key_before desc) (map_to_list m).

(** [m.begin()->first], [None] when [m.empty()]. *)
Definition ladder_begin (desc : bool) (m : gmap Z N) : option Z :=
  fst <$> head (ladder_entries desc m).

(** [m[p]], reading: a missing key is value-initialised to 0. *)
Definition ladder_at (m : gmap Z N) (p : Z) : N := default 0%N (m !! p).

(** [m[p] += q] and [m[p] -= q] *)
Definition ladder_add (p : Z) (q : N) (m : gmap Z N) : gmap Z N :=
  <[p := add64 (ladder_at m p) q]> m.
Definition ladder_sub (p : Z) (q : N) (m : gmap Z N) : gmap Z N :=
  <[p := sub64 (ladder_at m p) q]> m.

(** [update_max_quantities]: both running maxima are recomputed by a pass
    over the ladder. *)
Definition ladder_max (desc : bool) (m : gmap Z N) : N :=
  foldl (λ acc e, if (acc <? e.2)%N then e.2 else acc) 0%N
        (ladder_entries desc m).

Definition update_max_quantities (b : OrderBookImpl) : OrderBookImpl :=
  mkBook (orders b) (bids b) (asks b) (bid_order_counts b)
         (ask_order_counts b)
         (ladder_max true (bids b)) (ladder_max false (asks b)).

(** ** [match_orders] *)

(** The variables a scan of the registry updates: the incoming order, the
    contra ladder with its count map, the trade vector and
    [orders_to_remove]. *)
Record Scan : Type := mkScan {
  incoming : Order;
  contra : gmap Z N;
  contra_counts : gmap Z N;
  trades : list Trade;
  orders_to_remove : list N
}.

(** The guard of the [if] in the loop body, without its last conjunct. *)
Definition candidate (inc : Order) (match_price : Z) (o : Order) : bool :=
  bool_decide (is_buy o = negb (is_buy inc))
  && bool_decide (order_type o = LIMIT)
  && bool_decide (price o = match_price).

Section Clock.

(** [get_current_timestamp()]: [now k] is the value of the clock at its
    [k]-th reading within one call of [add_order].  The clock is read once
    per trade, just before the trade is pushed, so the reading that stamps
    a trade is numbered by the length of the trade vector. *)
Variable now : nat → N.

Definition make_trade (inc : Order) (k : N) (match_price : Z) (q : N)
    (ts : list Trade) : Trade :=
  if is_buy inc
  then mkTrade (order_id inc) k match_price q (now (length ts))
  else mkTrade k (order_id inc) match_price q (now (length ts)).

(** One execution of the body of the [if]: returns the updated resting
    order and the updated scan variables. *)
Definition fill (match_price : Z) (k : N) (o : Order) (st : Scan)
  : Order * Scan :=
  let trade_quantity := N.min (quantity (incoming st)) (quantity o) in
  let trade :=
    make_trade (incoming st) k match_price trade_quantity (trades st) in
  let inc' :=
    set_quantity (incoming st) (sub64 (quantity (incoming st)) trade_quantity) in
  let o' := set_quantity o (sub64 (quantity o) trade_quantity) in
  let lad := ladder_sub match_price trade_quantity (contra st) in
  let erased := (ladder_at lad match_price =? 0)%N in
  (o',
   mkScan inc'
     (if erased then delete match_price lad else lad)
     (if erased then delete match_price (contra_counts st)
      else contra_counts st)
     (trades st ++ [trade])
     (if (quantity o' =? 0)%N then orders_to_remove st ++ [k]
      else orders_to_remove st)).

(** The range-[for] over [data.orders], with its [break]. *)
Fixpoint scan_orders (match_price : Z) (l : list (N * Order)) (st : Scan)
  : list (N * Order) * Scan :=
  match l with
  | [] => ([], st)
  | (k, o) :: l' =>
      if candidate (incoming st) match_price o
         && (0 <? quantity (incoming st))%N
      then
        let '(o', st') := fill match_price k o st in
        if (quantity (incoming st') =? 0)%N
        then ((k, o') :: l', st')
        else
          let '(l'', st'') := scan_orders match_price l' st' in
          ((k, o') :: l'', st'')
      else
        let '(l'', st') := scan_orders match_price l' st in
        ((k, o) :: l'', st')
  end.

(** The deferred removals. *)
Definition erase_all (ids : list N) (l : list (N * Order))
  : list (N * Order) :=
  foldl (λ acc id, orders_erase id acc) l ids.

Definition match_orders (incoming_order : Order) (match_price : Z)
    (ts : list Trade) (b : OrderBookImpl)
  : Order * list Trade * OrderBookImpl :=
  let st0 :=
    if is_buy incoming_order
    then mkScan incoming_order (asks b) (ask_order_counts b) ts []
    else mkScan incoming_order (bids b) (bid_order_counts b) ts [] in
  let '(l, st) := scan_orders match_price (orders b) st0 in
  let l' := erase_all (orders_to_remove st) l in
  let b' :=
    if is_buy incoming_order
    then mkBook l' (bids b) (contra st) (bid_order_counts b)
                (contra_counts st) (max_bid_quantity b) (max_ask_quantity b)
    else mkBook l' (contra st) (asks b) (contra_counts st)
                (ask_order_counts b) (max_bid_quantity b) (max_ask_quantity b)
  in
  (incoming st, trades st, update_max_quantities b').

(** ** [add_order] *)

(** The best price of the ladder opposite to [o]. *)
Definition contra_begin (o : Order) (b : OrderBookImpl) : option Z :=
  if is_buy o then ladder_begin false (asks b)
  else ladder_begin true (bids b).

(** The price test inside the LIMIT loops; the MARKET loops have none. *)
Definition crosses (o : Order) (best : Z) : bool :=
  match order_type o with
  | MARKET => true
  | LIMIT =>
      if is_buy o then bool_decide (best ≤ price o)%Z
      else bool_decide (price o ≤ best)%Z
  end.

(** The four [while] loops of [add_order] share one shape; [fuel] bounds
    the number of iterations and [None] is a loop that is still running. *)
Fixpoint match_loop (fuel : nat) (new_order : Order) (ts : list Trade)
    (b : OrderBookImpl) : option (Order * list Trade * OrderBookImpl) :=
  if (0 <? quantity new_order)%N then
    match contra_begin new_order b with
    | None => Some (new_order, ts, b)
    | Some best =>
        if crosses new_order best then
          match fuel with
          | O => None
          | S fuel' =>
              let '(o', ts', b') := match_orders new_order best ts b in
              match_loop fuel' o' ts' b'
          end
        else Some (new_order, ts, b)
    end
  else Some (new_order, ts, b).

(** The tail of the LIMIT branches: the residual rests on its own side. *)
Definition rest_order (new_order : Order) (b : OrderBookImpl)
  : OrderBookImpl :=
  if (0 <? quantity new_order)%N then
    let l := orders_assign (order_id new_order) new_order (orders b) in
    let p := price new_order in
    let q := quantity new_order in
    update_max_quantities
      (if is_buy new_order
       then mkBook l (ladder_add p q (bids b)) (asks b)
                   (ladder_add p 1 (bid_order_counts b)) (ask_order_counts b)
                   (max_bid_quantity b) (max_ask_quantity b)
       else mkBook l (bids b) (ladder_add p q (asks b))
                   (bid_order_counts b) (ladder_add p 1 (ask_order_counts b))
                   (max_bid_quantity b) (max_ask_quantity b))
  else b.

(** [add_order], keeping the local [new_order] as it stands at [return]:
    its [quantity] is what matching left unfilled. *)
Definition add_order_residual (fuel : nat) (order : Order) (b : OrderBookImpl)
  : option (Order * list Trade * OrderBookImpl) :=
  match orders_find (order_id order) (orders b) with
  | Some _ => Some (order, [], b)
  | None =>
      match order_type order with
      | MARKET => match_loop fuel order [] b
      | LIMIT =>
          (λ r : Order * list Trade * OrderBookImpl,
             (r.1.1, r.1.2, rest_order r.1.1 r.2))
            <$> match_loop fuel order [] b
      end
  end.

Definition add_order (fuel : nat) (order : Order) (b : OrderBookImpl)
  : option (list Trade * OrderBookImpl) :=
  (λ r, (r.1.2, r.2)) <$> add_order_residual fuel order b.

End Clock.

(** ** [cancel_order] and [amend_order] *)

(** The block both functions start with: the order's contribution leaves
    the ladder of its side.  Returns the ladder and its count map. *)
Definition release (p : Z) (q : N) (lad cnt : gmap Z N)
  : gmap Z N * gmap Z N :=
  match lad !! p with
  | None => (lad, cnt)
  | Some a =>
      if (a <=? q)%N then (delete p lad, delete p cnt)
      else (<[p := sub64 a q]> lad, ladder_sub p 1 cnt)
  end.

Definition release_order (o : Order) (b : OrderBookImpl) : OrderBookImpl :=
  if is_buy o then
    let '(lad, cnt) :=
      release (price o) (quantity o) (bids b) (bid_order_counts b) in
    mkBook (orders b) lad (asks b) cnt (ask_order_counts b)
           (max_bid_quantity b) (max_ask_quantity b)
  else
    let '(lad, cnt) :=
      release (price o) (quantity o) (asks b) (ask_order_counts b) in
    mkBook (orders b) (bids b) lad (bid_order_counts b) cnt
           (max_bid_quantity b) (max_ask_quantity b).

Definition with_orders (l : list (N * Order)) (b : OrderBookImpl)
  : OrderBookImpl :=
  mkBook l (bids b) (asks b) (bid_order_counts b) (ask_order_counts b)
         (max_bid_quantity b) (max_ask_quantity b).

Definition cancel_order (order_id : N) (b : OrderBookImpl)
  : bool * OrderBookImpl :=
  match orders_find order_id (orders b) with
  | None => (false, b)
  | Some order =>
      let b1 :=
        match order_type order with
        | LIMIT => update_max_quantities (release_order order b)
        | MARKET => b
        end in
      (true, with_orders (orders_erase order_id (orders b1)) b1)
  end.

Definition amend_order (order_id : N) (new_price : Z) (new_quantity : N)
    (b : OrderBookImpl) : bool * OrderBookImpl :=
  match orders_find order_id (orders b) with
  | None => (false, b)
  | Some order =>
      match order_type order with
      | LIMIT =>
          let b1 := release_order order b in
          let l :=
            orders_assign order_id (set_terms order new_price new_quantity)
                          (orders b1) in
          (true,
           update_max_quantities
             (if is_buy order
              then mkBook l (ladder_add new_price new_quantity (bids b1))
                          (asks b1)
                          (ladder_add new_price 1 (bid_order_counts b1))
                          (ask_order_counts b1)
                          (max_bid_quantity b1) (max_ask_quantity b1)
              else mkBook l (bids b1)
                          (ladder_add new_price new_quantity (asks b1))
                          (bid_order_counts b1)
                          (ladder_add new_price 1 (ask_order_counts b1))
                          (max_bid_quantity b1) (max_ask_quantity b1)))
      | MARKET => (true, b)
      end
  end.

(** ** Queries *)

(** One of the two loops of [get_snapshot]; [counts.at(p)] throws
    [std::out_of_range] on a missing key, which is [None] here. *)
Definition snapshot_side (depth : nat) (desc : bool) (lad cnt : gmap Z N)
  : option (list PriceLevel) :=
  mapM (λ e : Z * N, mkPriceLevel e.1 e.2 <$> cnt !! e.1)
       (take depth (ladder_entries desc lad)).

Definition get_snapshot (depth : nat) (b : OrderBookImpl)
  : option (list PriceLevel * list PriceLevel) :=
  match snapshot_side depth true (bids b) (bid_order_counts b) with
  | None => None
  | Some bids_out =>
      match snapshot_side depth false (asks b) (ask_order_counts b) with
      | None => None
      | Some asks_out => Some (bids_out, asks_out)
      end
  end.

Definition get_best_bid (b : OrderBookImpl) : Z :=
  match ladder_begin true (bids b) with
  | None => 0%Z
  | Some p => p
  end.

Definition get_best_ask (b : OrderBookImpl) : Z :=
  match ladder_begin false (asks b) with
  | None => 0%Z
  | Some p => p
  end.

Definition order_exists (order_id : N) (b : OrderBookImpl) : bool :=
  bool_decide (is_Some (orders_find order_id (orders b))).

Definition get_price_levels (b : OrderBookImpl)
  : option (list PriceLevel * list PriceLevel) :=
  get_snapshot 1000 b.

(** * Notions used to state the properties *)

(** The two ladders and their count maps, by side ([true] is the buy
    side). *)
Definition side_ladder (s : bool) (b : OrderBookImpl) : gmap Z N :=
  if s then bids b else asks b.
Definition side_counts (s : bool) (b : OrderBookImpl) : gmap Z N :=
  if s then bid_order_counts b else ask_order_counts b.

(** The resting orders of side [s] at price [p], their total quantity (an
    unbounded sum) and their number. *)
Definition at_level (s : bool) (p : Z) (o : Order) : bool :=
  bool_decide (is_buy o = s) && bool_decide (price o = p).

Definition level_orders (s : bool) (p : Z) (l : list (N * Order))
  : list (N * Order) :=
  filter (λ ko, at_level s p ko.2 = true) l.

Definition sum_quantity (l : list (N * Order)) : N :=
  foldr (λ ko acc, (quantity ko.2 + acc)%N) 0%N l.

Definition level_qty (s : bool) (p : Z) (l : list (N * Order)) : N :=
  sum_quantity (level_orders s p l).

Definition level_count (s : bool) (p : Z) (l : list (N * Order)) : N :=
  N.of_nat (length (level_orders s p l)).

(** All the resting quantity of one side of the book. *)
Definition side_qty (s : bool) (l : list (N * Order)) : N :=
  sum_quantity (filter (λ ko, is_buy ko.2 = s) l).

(** All the quantity a ladder shows. *)
Definition ladder_total (m : gmap Z N) : N :=
  map_fold (λ _ a acc, (a + acc)%N) 0%N m.

(** The total quantity of a trade vector. *)
Definition traded (ts : list Trade) : N :=
  foldr (λ t acc, (trade_quantity t + acc)%N) 0%N ts.

(** A book whose best bid lies strictly below its best ask, or one of
    whose sides is empty. *)
Definition uncrossed (b : OrderBookImpl) : Prop :=
  match ladder_begin true (bids b), ladder_begin false (asks b) with
  | Some best_bid, Some best_ask => (best_bid < best_ask)%Z
  | _, _ => True
  end.

(** What a ladder and its count map owe to the registry at one price: an
    entry holds the quantity resting there, which fits 64 bits, and has a
    count; where there is no entry, nothing rests and there is no count. *)
Definition level_tracks (lad cnt : gmap Z N) (l : list (N * Order))
    (s : bool) (p : Z) : Prop :=
  match lad !! p with
  | Some a => a = level_qty s p l ∧ (a < two64)%N ∧ is_Some (cnt !! p)
  | None => level_qty s p l = 0%N ∧ cnt !! p = None
  end.

(** Moreover an entry is carried by at least one resting order. *)
Definition level_consistent (lad cnt : gmap Z N) (l : list (N * Order))
    (s : bool) (p : Z) : Prop :=
  level_tracks lad cnt l s p
  ∧ (is_Some (lad !! p) → level_orders s p l ≠ []).

Definition valid_resting (ko : N * Order) : Prop :=
  order_type ko.2 = LIMIT ∧ (quantity ko.2 < two64)%N.

(** The books on which the ladders agree with the registry. *)
Record consistent (b : OrderBookImpl) : Prop := mkConsistent {
  cons_nodup : NoDup (orders b).*1;
  cons_valid : Forall valid_resting (orders b);
  cons_level : ∀ s p,
    level_consistent (side_ladder s b) (side_counts s b) (orders b) s p
}.

(** The quantity resting at the amended order's new level once its old
    contribution has gone. *)
Definition level_qty_without (id : N) (s : bool) (p : Z)
    (l : list (N * Order)) : N :=
  level_qty s p (orders_erase id l).


(** The state in which a matching loop of [add_order] is left. *)
Definition loop_done (o : Order) (b : OrderBookImpl) : Prop :=
  quantity o = 0%N ∨
  match contra_begin o b with
  | None => True
  | Some best => crosses o best = false
  end.

(** The books the public operations build from the empty one, as long as
    no level is asked to hold [2^64] units or more. *)
Inductive reachable : OrderBookImpl → Prop :=
  | reach_empty : reachable empty_book
  | reach_add now fuel o ts b b' :
      reachable b →
      (level_qty (is_buy o) (price o) (orders b) + quantity o < two64)%N →
      add_order now fuel o b = Some (ts, b') →
      reachable b'
  | reach_cancel id b :
      reachable b → reachable (cancel_order id b).2
  | reach_amend id new_price new_quantity b :
      reachable b →
      (∀ o, orders_find id (orders b) = Some o →
            (level_qty_without id (is_buy o) new_price (orders b)
             + new_quantity < two64)%N) →
      reachable (amend_order id new_price new_quantity b).2.

(** ** Concrete books *)

(** A clock that ticks at every reading. *)
Definition tick : nat → N := N.of_nat.

(** The book after [add_order] of [o]; a call that does not return leaves
    the book as it is. *)
Definition after_add (o : Order) (b : OrderBookImpl) : OrderBookImpl :=
  match add_order tick (S (length (orders b))) o b with
  | Some r => r.2
  | None => b
  end.

(** One bid of 5 at price 10. *)
Definition book_one_bid : OrderBookImpl :=
  after_add (mkOrder 1 true LIMIT 10 5) empty_book.

(** Two asks of 5 at price 10, then a buy of 5 at 10 that fills one. *)
Definition book_two_asks : OrderBookImpl :=
  after_add (mkOrder 2 false LIMIT 10 5)
    (after_add (mkOrder 1 false LIMIT 10 5) empty_book).

Definition book_one_filled : OrderBookImpl :=
  after_add (mkOrder 3 true LIMIT 10 5) book_two_asks.

(** A bid at 10 and an ask at 12, then the bid amended to 13. *)
Definition book_spread : OrderBookImpl :=
  after_add (mkOrder 2 false LIMIT 12 5) book_one_bid.

Definition book_amended_across : OrderBookImpl :=
  (amend_order 1 13 5 book_spread).2.

(** One bid at price 0. *)
Definition book_zero_bid : OrderBookImpl :=
  after_add (mkOrder 1 true LIMIT 0 5) empty_book.
Definition book_zero_ask : OrderBookImpl :=
  after_add (mkOrder 1 false LIMIT 0 5) empty_book.

(** Two bids of [2^63] at price 10 wrap the aggregate of the level to 0;
    the cancellation of the second erases the level under the first.  A
    bid of 7 and a sell of 10 at the same price follow, then both resting
    bids are cancelled: the bid ladder keeps [2^63] at 10 and the registry
    is empty. *)
Definition half64 : N := 9223372036854775808%N.

Definition book_stale : OrderBookImpl :=
  (cancel_order 1
     (cancel_order 3
        (after_add (mkOrder 4 false LIMIT 10 10)
           (after_add (mkOrder 3 true LIMIT 10 7)
              (cancel_order 2
                 (after_add (mkOrder 2 true LIMIT 10 half64)
                    (after_add (mkOrder 1 true LIMIT 10 half64)
                       empty_book))).2))).2).2.

(** [n] bids (asks if [buy] is [false]) of 1 at the prices [1 .. n]. *)
Definition book_levels (buy : bool) (n : nat) : OrderBookImpl :=
  foldl (λ b k, after_add (mkOrder (N.of_nat k) buy LIMIT (Z.of_nat k) 1) b)
        empty_book (seq 1 n).


(** ** Notions used by the further properties *)

Definition maxima_current (b : OrderBookImpl) : Prop :=
  max_bid_quantity b = ladder_max true (bids b)
  ∧ max_ask_quantity b = ladder_max false (asks b).

Definition positive_resting (l : list (N * Order)) : Prop :=
  Forall (λ ko, (0 < quantity ko.2)%N) l.

(** The ladders show no level without an order and no aggregate of 0:
    the levels of a ladder are the prices at which an order of its side
    rests, and every aggregate is positive. *)
Definition positive_levels (b : OrderBookImpl) : Prop :=
  ∀ s p,
    (is_Some (side_ladder s b !! p) ↔ level_orders s p (orders b) ≠ [])
    ∧ (∀ a, side_ladder s b !! p = Some a → (0 < a)%N).

(** Asks of 5 at the prices 10 and 11. *)
Definition book_ask_levels : OrderBookImpl :=
  after_add (mkOrder 2 false LIMIT 11 5)
    (after_add (mkOrder 1 false LIMIT 10 5) empty_book).

(** A LIMIT order of side [s] resting at price [p] under the key [k]. *)
Definition resting_at (l : list (N * Order)) (k : N) (s : bool) (p : Z)
  : Prop :=
  ∃ o, (k, o) ∈ l ∧ is_buy o = s ∧ price o = p ∧ order_type o = LIMIT.

(** What [match_orders] writes in a trade of the order [inc] at
    [match_price]: the price, the id of [inc] on its side and, on the other
    side, the key of a contra order resting at that price. *)
Definition trade_of (inc : Order) (match_price : Z) (l : list (N * Order))
    (t : Trade) : Prop :=
  trade_price t = match_price
  ∧ (if is_buy inc then buy_order_id t else sell_order_id t) = order_id inc
  ∧ resting_at l (if is_buy inc then sell_order_id t else buy_order_id t)
               (negb (is_buy inc)) match_price.

Definition stamped_from (now : nat → N) (n : nat) (ts : list Trade) : Prop :=
  ∀ i t, ts !! i = Some t → timestamp_ns t = now (n + i).

(** An entry of the registry after a scan, next to what it was. *)
Definition scanned (rm : list N) (ko ko' : N * Order) : Prop :=
  ko'.1 = ko.1
  ∧ ko'.2 = set_quantity ko.2 (quantity ko'.2)
  ∧ (ko' = ko ∨ quantity ko'.2 ≠ 0%N ∨ ko'.1 ∈ rm).

(** The order in which an order meets prices: a buy from the lowest ask
    upwards, a sell from the highest bid downwards. *)
Definition price_before (buy : bool) (p p' : Z) : Prop :=
  if buy then (p ≤ p')%Z else (p' ≤ p)%Z.

Definition trade_before (buy : bool) (t t' : Trade) : Prop :=
  price_before buy (trade_price t) (trade_price t').

(** A trade of the admission of [o] on the book [b]: struck at a price of
    the contra ladder that [o] crosses, against an order resting there. *)
Definition admission_trade (o : Order) (b : OrderBookImpl) (t : Trade)
  : Prop :=
  trade_of o (trade_price t) (orders b) t
  ∧ is_Some (side_ladder (negb (is_buy o)) b !! trade_price t)
  ∧ crosses o (trade_price t) = true.

(** Strictly before in the iteration of a ladder. *)
Definition price_strictly_before (desc : bool) (p p' : Z) : Prop :=
  if desc then (p' < p)%Z else (p < p')%Z.

(** The quantity of the trades struck at the price [p]. *)
Definition traded_at (p : Z) (ts : list Trade) : N :=
  traded (filter (λ t, trade_price t = p) ts).

(** One ask of 10 at price 10: the ask ladder of [book_two_asks] over
    another registry. *)
Definition book_one_ask : OrderBookImpl :=
  after_add (mkOrder 1 false LIMIT 10 10) empty_book.
(** * Properties *)

(** ** Arithmetic modulo [2^64] *)

Lemma add64_exact (a b : N) : (a + b < two64)%N → add64 a b = (a + b)%N.
Proof. intros H. unfold add64. by apply N.mod_small. Qed.

Lemma sub64_exact (a b : N) :
  (b ≤ a)%N → (a < two64)%N → sub64 a b = (a - b)%N.
Proof.
  intros Hle Hlt. unfold sub64.
  replace (a + two64 - b)%N with ((a - b) + 1 * two64)%N by lia.
  rewrite N.Div0.mod_add. apply N.mod_small. lia.
Qed.

Lemma sub64_zero (a : N) : (a < two64)%N → sub64 a 0 = a.
Proof. intros H. rewrite sub64_exact; lia. Qed.


(** ** The ladders *)

Global Instance key_before_total desc : Total (key_before desc).
Proof. intros x y. unfold key_before. destruct desc; lia. Qed.

Global Instance key_before_trans desc : Transitive (key_before desc).
Proof. intros x y z. unfold key_before. destruct desc; lia. Qed.

Lemma ladder_entries_elem desc (m : gmap Z N) p a :
  (p, a) ∈ ladder_entries desc m ↔ m !! p = Some a.
Proof.
  unfold ladder_entries. rewrite merge_sort_Permutation.
  apply elem_of_map_to_list.
Qed.

Lemma ladder_entries_length desc (m : gmap Z N) :
  length (ladder_entries desc m) = size m.
Proof.
  unfold ladder_entries. rewrite merge_sort_Permutation.
  apply length_map_to_list.
Qed.

Lemma ladder_begin_None desc (m : gmap Z N) :
  ladder_begin desc m = None ↔ m = ∅.
Proof.
  unfold ladder_begin. rewrite fmap_None, head_None. split.
  - intros H. apply map_size_empty_inv.
    by rewrite <- ladder_entries_length with (desc := desc), H.
  - intros ->. apply length_zero_iff_nil.
    by rewrite ladder_entries_length, map_size_empty.
Qed.

Lemma ladder_begin_Some desc (m : gmap Z N) p :
  ladder_begin desc m = Some p →
  is_Some (m !! p) ∧
  ∀ p', is_Some (m !! p') → if desc then (p' ≤ p)%Z else (p ≤ p')%Z.
Proof.
  unfold ladder_begin. intros H.
  destruct (ladder_entries desc m) as [|[p0 a0] tl] eqn:E; simplify_eq/=.
  assert (StronglySorted (key_before desc) ((p, a0) :: tl)) as Hs.
  { rewrite <- E. apply StronglySorted_merge_sort; apply _. }
  apply StronglySorted_inv in Hs as [_ Hall].
  split.
  - exists a0. apply (ladder_entries_elem desc). rewrite E. left.
  - intros p' [a' Ha']. apply (ladder_entries_elem desc) in Ha'.
    rewrite E in Ha'. apply elem_of_cons in Ha' as [Heq|Hin].
    + simplify_eq. destruct desc; lia.
    + rewrite Forall_forall in Hall. specialize (Hall _ Hin).
      unfold key_before in Hall. by destruct desc.
Qed.

Lemma ladder_begin_is_Some desc (m : gmap Z N) p :
  is_Some (m !! p) → is_Some (ladder_begin desc m).
Proof.
  intros [a Ha]. destruct (ladder_begin desc m) eqn:E; [done|].
  apply ladder_begin_None in E. by simplify_map_eq.
Qed.

(** ** The registry *)

Lemma order_exists_true id b :
  order_exists id b = true ↔ is_Some (orders_find id (orders b)).
Proof. unfold order_exists. apply bool_decide_eq_true. Qed.

Lemma order_exists_false id b :
  order_exists id b = false ↔ orders_find id (orders b) = None.
Proof.
  unfold order_exists. rewrite bool_decide_eq_false.
  symmetry. apply eq_None_not_Some.
Qed.

Lemma orders_find_None id (l : list (N * Order)) :
  orders_find id l = None ↔ id ∉ l.*1.
Proof.
  induction l as [|[k o] l IH]; simpl.
  - split; [intros _; apply not_elem_of_nil|done].
  - rewrite not_elem_of_cons, <- IH.
    destruct (N.eqb_spec k id); split; intros; simplify_eq; intuition.
Qed.

Lemma orders_find_Some id (l : list (N * Order)) o :
  orders_find id l = Some o → (id, o) ∈ l.
Proof.
  induction l as [|[k o'] l IH]; simpl; [done|].
  destruct (N.eqb_spec k id) as [->|]; intros; simplify_eq.
  - left.
  - right. auto.
Qed.

Lemma orders_find_elem id (l : list (N * Order)) o :
  NoDup l.*1 → (id, o) ∈ l → orders_find id l = Some o.
Proof.
  induction l as [|[k o'] l IH]; simpl; intros Hnd Hin.
  - by apply elem_of_nil in Hin.
  - apply NoDup_cons in Hnd as [Hk Hnd].
    apply elem_of_cons in Hin as [?|Hin]; simplify_eq.
    + by rewrite N.eqb_refl.
    + destruct (N.eqb_spec k id) as [->|]; [|auto].
      destruct Hk. apply list_elem_of_fmap. by exists (id, o).
Qed.

Lemma orders_erase_filter id (l : list (N * Order)) :
  orders_erase id l = filter (λ ko, ko.1 ≠ id) l.
Proof.
  induction l as [|[k o] l IH]; simpl; [done|].
  rewrite filter_cons; simpl.
  destruct (N.eqb_spec k id); case_decide; try done. by rewrite IH.
Qed.

Lemma filter_all {A} (P : A → Prop) `{∀ x, Decision (P x)} (l : list A) :
  (∀ x, x ∈ l → P x) → filter P l = l.
Proof.
  induction l as [|x l IH]; intros Hall; [done|].
  rewrite filter_cons_True by (apply Hall; left).
  f_equal. apply IH. intros y Hy. apply Hall. by right.
Qed.

Lemma erase_all_filter ids (l : list (N * Order)) :
  erase_all ids l = filter (λ ko, ko.1 ∉ ids) l.
Proof.
  unfold erase_all. revert l.
  induction ids as [|id ids IH]; intros l; simpl.
  - symmetry. apply filter_all. intros ? _. apply not_elem_of_nil.
  - rewrite IH, orders_erase_filter, list_filter_filter.
    apply list_filter_iff. intros ko. rewrite not_elem_of_cons. tauto.
Qed.

Lemma orders_assign_fresh id o (l : list (N * Order)) :
  id ∉ l.*1 → orders_assign id o l = l ++ [(id, o)].
Proof.
  induction l as [|[k o'] l IH]; simpl; [done|].
  rewrite not_elem_of_cons. intros [Hne Hnin].
  destruct (N.eqb_spec k id); [done|]. by rewrite IH.
Qed.

Lemma orders_assign_keys id o o0 (l : list (N * Order)) :
  orders_find id l = Some o0 → (orders_assign id o l).*1 = l.*1.
Proof.
  induction l as [|[k o'] l IH]; simpl; [done|].
  destruct (N.eqb_spec k id); [done|]. intros H. simpl. f_equal. auto.
Qed.

Lemma orders_find_assign id o (l : list (N * Order)) :
  orders_find id (orders_assign id o l) = Some o.
Proof.
  induction l as [|[k o'] l IH]; simpl.
  - by rewrite N.eqb_refl.
  - destruct (N.eqb_spec k id) as [->|Hne]; simpl.
    + by rewrite N.eqb_refl.
    + by destruct (N.eqb_spec k id).
Qed.

(** ** One scan of the registry *)

Lemma set_quantity_id o : set_quantity o (quantity o) = o.
Proof. by destruct o. Qed.

Lemma set_quantity_twice o q q' :
  set_quantity (set_quantity o q) q' = set_quantity o q'.
Proof. done. Qed.

Lemma traded_app ts ts' : traded (ts ++ ts') = (traded ts + traded ts')%N.
Proof. induction ts as [|t ts IH]; simpl; [done|]. rewrite IH. lia. Qed.

Lemma sum_quantity_app l l' :
  sum_quantity (l ++ l') = (sum_quantity l + sum_quantity l')%N.
Proof. induction l as [|t ts IH]; simpl; [done|]. rewrite IH. lia. Qed.

Global Arguments fill : simpl never.
Global Arguments match_orders : simpl never.

Section Matching.

Variable now : nat → N.

Lemma scan_orders_idle mp l st :
  quantity (incoming st) = 0%N → scan_orders now mp l st = (l, st).
Proof.
  intros Hz. induction l as [|[k o] l IH]; simpl; [done|].
  rewrite Hz, andb_false_r. by rewrite IH.
Qed.

Lemma scan_orders_cons mp k o l st :
  scan_orders now mp ((k, o) :: l) st =
  if candidate (incoming st) mp o && (0 <? quantity (incoming st))%N
  then
    let '(o', st') := fill now mp k o st in
    if (quantity (incoming st') =? 0)%N
    then ((k, o') :: l, st')
    else
      let '(l'', st'') := scan_orders now mp l st' in
      ((k, o') :: l'', st'')
  else
    let '(l'', st') := scan_orders now mp l st in
    ((k, o) :: l'', st').
Proof. done. Qed.

(** Induction along the run of a scan: an entry is skipped, or filled with
    the scan stopping there, or filled with the scan going on. *)
Lemma scan_orders_run mp
    (P : list (N * Order) → Scan → list (N * Order) → Scan → Prop) :
  (∀ st, P [] st [] st) →
  (∀ k o l st l' st',
     candidate (incoming st) mp o && (0 <? quantity (incoming st))%N = false →
     scan_orders now mp l st = (l', st') → P l st l' st' →
     P ((k, o) :: l) st ((k, o) :: l') st') →
  (∀ k o l st o' st1,
     candidate (incoming st) mp o = true → (0 < quantity (incoming st))%N →
     fill now mp k o st = (o', st1) → quantity (incoming st1) = 0%N →
     P ((k, o) :: l) st ((k, o') :: l) st1) →
  (∀ k o l st o' st1 l' st',
     candidate (incoming st) mp o = true → (0 < quantity (incoming st))%N →
     fill now mp k o st = (o', st1) → quantity (incoming st1) ≠ 0%N →
     scan_orders now mp l st1 = (l', st') → P l st1 l' st' →
     P ((k, o) :: l) st ((k, o') :: l') st') →
  ∀ l st l' st', scan_orders now mp l st = (l', st') → P l st l' st'.
Proof.
  intros Hnil Hskip Hstop Hgo l.
  induction l as [|[k o] l IH]; intros st l' st' Hscan.
  - simpl in Hscan. by simplify_eq.
  - rewrite scan_orders_cons in Hscan.
    destruct (candidate (incoming st) mp o && (0 <? quantity (incoming st))%N)
      eqn:Hguard.
    + apply andb_true_iff in Hguard as [Hc Hq]. apply N.ltb_lt in Hq.
      destruct (fill now mp k o st) as [o' st1] eqn:Hfill.
      destruct (N.eqb_spec (quantity (incoming st1)) 0) as [Hz|Hnz].
      * simplify_eq. by eapply Hstop.
      * destruct (scan_orders now mp l st1) as [l'' st''] eqn:Hrec.
        simplify_eq. eapply Hgo; eauto.
    + destruct (scan_orders now mp l st) as [l'' st''] eqn:Hrec.
      simplify_eq. eapply Hskip; eauto.
Qed.

(** What one fill does, whatever the book. *)
Lemma fill_effect mp k o st o' st1 :
  fill now mp k o st = (o', st1) →
  let q := N.min (quantity (incoming st)) (quantity o) in
  o' = set_quantity o (sub64 (quantity o) q)
  ∧ incoming st1 = set_quantity (incoming st) (sub64 (quantity (incoming st)) q)
  ∧ trades st1 = trades st ++ [make_trade now (incoming st) k mp q (trades st)]
  ∧ (∀ p, p ≠ mp → contra st1 !! p = contra st !! p)
  ∧ (∀ p, p ≠ mp → contra_counts st1 !! p = contra_counts st !! p)
  ∧ contra st1 !! mp ≠ Some 0%N
  ∧ orders_to_remove st1 =
      orders_to_remove st ++ (if (quantity o' =? 0)%N then [k] else []).
Proof.
  unfold fill. intros Hfill. simplify_eq/=. unfold ladder_sub.
  repeat split.
  - intros p Hp. case_match.
    + by rewrite lookup_delete_ne, lookup_insert_ne.
    + by rewrite lookup_insert_ne.
  - intros p Hp. case_match; [|done]. by rewrite lookup_delete_ne.
  - case_match eqn:E.
    + by rewrite lookup_delete_eq.
    + apply N.eqb_neq in E. unfold ladder_at in E.
      rewrite lookup_insert_eq in *. simpl in E. unfold ladder_at.
      congruence.
  - case_match; [done|]. by rewrite app_nil_r.
Qed.

Lemma make_trade_quantity inc k mp q ts :
  trade_quantity (make_trade now inc k mp q ts) = q.
Proof. unfold make_trade. by destruct (is_buy inc). Qed.

(** What a scan does, whatever the book: the incoming order only loses
    quantity, every unit it loses is in a new trade, the registry keeps
    its keys and the contra ladder moves at [mp] only. *)
Lemma scan_orders_effect mp l st l' st' :
  scan_orders now mp l st = (l', st') →
  incoming st' = set_quantity (incoming st) (quantity (incoming st'))
  ∧ l'.*1 = l.*1
  ∧ (∀ p, p ≠ mp → contra st' !! p = contra st !! p)
  ∧ (∀ p, p ≠ mp → contra_counts st' !! p = contra_counts st !! p)
  ∧ ((quantity (incoming st) < two64)%N →
     ∃ new, trades st' = trades st ++ new
            ∧ (quantity (incoming st') + traded new)%N = quantity (incoming st)).
Proof.
  revert l st l' st'. apply scan_orders_run.
  - intros st. rewrite set_quantity_id. repeat split; try done.
    intros _. exists []. rewrite app_nil_r. simpl. split; [done|lia].
  - intros k o l st l' st' _ _ (Hi & Hk & Hl & Hc & Ht).
    split_and!; try done. rewrite !fmap_cons. by f_equal.
  - intros k o l st o' st1 _ _ Hfill _.
    apply fill_effect in Hfill as (_ & Hi & Ht & Hl & Hc & _).
    repeat split; try done.
    + by rewrite Hi.
    + intros Hlt. eexists. split; [done|]. simpl.
      rewrite make_trade_quantity, Hi. simpl.
      rewrite sub64_exact; lia.
  - intros k o l st o' st1 l' st' _ _ Hfill _ _ (Hi & Hk & Hl & Hc & Ht).
    apply fill_effect in Hfill as (_ & Hi1 & Ht1 & Hl1 & Hc1 & _).
    assert (quantity (incoming st) < two64 →
            quantity (incoming st1) < two64 ∧
            quantity (incoming st1)
              + N.min (quantity (incoming st)) (quantity o)
            = quantity (incoming st))%N as Hq.
    { intros Hlt. rewrite Hi1. simpl. rewrite sub64_exact; lia. }
    repeat split.
    + rewrite Hi, Hi1. done.
    + rewrite !fmap_cons. by f_equal.
    + intros p Hp. by rewrite Hl, Hl1.
    + intros p Hp. by rewrite Hc, Hc1.
    + intros Hlt. destruct (Hq Hlt) as [Hlt1 Hsum].
      destruct (Ht Hlt1) as (new & Hnew & Hsum').
      eexists (_ :: new). split.
      * rewrite Hnew, Ht1, <- app_assoc. done.
      * simpl. rewrite make_trade_quantity. lia.
Qed.

End Matching.

(** ** [match_orders] and the matching loop, on any book *)

Section Admission.

Variable now : nat → N.

Lemma match_orders_unfold inc mp ts b :
  match_orders now inc mp ts b =
  let st0 := mkScan inc (side_ladder (negb (is_buy inc)) b)
                    (side_counts (negb (is_buy inc)) b) ts [] in
  let r := scan_orders now mp (orders b) st0 in
  let l' := erase_all (orders_to_remove r.2) r.1 in
  (incoming r.2, trades r.2,
   update_max_quantities
     (if is_buy inc
      then mkBook l' (bids b) (contra r.2) (bid_order_counts b)
                  (contra_counts r.2) (max_bid_quantity b) (max_ask_quantity b)
      else mkBook l' (contra r.2) (asks b) (contra_counts r.2)
                  (ask_order_counts b) (max_bid_quantity b)
                  (max_ask_quantity b))).
Proof.
  unfold match_orders, side_ladder, side_counts.
  destruct (is_buy inc); simpl;
    by destruct (scan_orders now mp (orders b) _) as [l st].
Qed.

Lemma erase_all_keys ids (l : list (N * Order)) k :
  k ∈ (erase_all ids l).*1 → k ∈ l.*1.
Proof.
  rewrite erase_all_filter, !list_elem_of_fmap.
  intros (ko & -> & Hin). apply list_elem_of_filter in Hin as [_ Hin]. eauto.
Qed.

Lemma match_orders_effect inc mp ts b inc' ts' b' :
  match_orders now inc mp ts b = (inc', ts', b') →
  inc' = set_quantity inc (quantity inc')
  ∧ side_ladder (is_buy inc) b' = side_ladder (is_buy inc) b
  ∧ side_counts (is_buy inc) b' = side_counts (is_buy inc) b
  ∧ (∀ p, p ≠ mp → side_ladder (negb (is_buy inc)) b' !! p
                    = side_ladder (negb (is_buy inc)) b !! p)
  ∧ (∀ p, p ≠ mp → side_counts (negb (is_buy inc)) b' !! p
                    = side_counts (negb (is_buy inc)) b !! p)
  ∧ (∀ k, k ∈ (orders b').*1 → k ∈ (orders b).*1)
  ∧ ((quantity inc < two64)%N →
     ∃ new, ts' = ts ++ new ∧ (quantity inc' + traded new)%N = quantity inc).
Proof.
  rewrite match_orders_unfold. cbv zeta.
  destruct (scan_orders now mp (orders b) _) as [l st] eqn:Hscan.
  apply scan_orders_effect in Hscan as (Hi & Hk & Hl & Hc & Ht).
  simpl in *. intros ?; simplify_eq.
  split_and!; try done.
  - by destruct (is_buy inc).
  - by destruct (is_buy inc).
  - intros p Hp. destruct (is_buy inc); simpl; auto.
  - intros p Hp. destruct (is_buy inc); simpl; auto.
  - intros k Hin. rewrite <- Hk. eapply erase_all_keys.
    destruct (is_buy inc); exact Hin.
Qed.

Lemma contra_begin_ladder o b :
  contra_begin o b
  = ladder_begin (negb (is_buy o)) (side_ladder (negb (is_buy o)) b).
Proof. unfold contra_begin. by destruct (is_buy o). Qed.

Lemma match_loop_unfold fuel o ts b :
  match_loop now fuel o ts b =
  if (0 <? quantity o)%N then
    match contra_begin o b with
    | None => Some (o, ts, b)
    | Some best =>
        if crosses o best then
          match fuel with
          | O => None
          | S fuel' =>
              let '(o', ts', b') := match_orders now o best ts b in
              match_loop now fuel' o' ts' b'
          end
        else Some (o, ts, b)
    end
  else Some (o, ts, b).
Proof. by destruct fuel. Qed.

(** The goals in which the loop is left at once: nothing has changed. *)
Local Ltac loop_left :=
  intros ?; simplify_eq; rewrite set_quantity_id; split_and!; try done;
  [intros _; exists []; rewrite app_nil_r; simpl; split; [done|lia]|].

Lemma match_loop_effect fuel o ts b o' ts' b' :
  match_loop now fuel o ts b = Some (o', ts', b') →
  o' = set_quantity o (quantity o')
  ∧ side_ladder (is_buy o) b' = side_ladder (is_buy o) b
  ∧ side_counts (is_buy o) b' = side_counts (is_buy o) b
  ∧ (∀ p, is_Some (side_ladder (negb (is_buy o)) b' !! p) →
          is_Some (side_ladder (negb (is_buy o)) b !! p))
  ∧ (∀ k, k ∈ (orders b').*1 → k ∈ (orders b).*1)
  ∧ ((quantity o < two64)%N →
     ∃ new, ts' = ts ++ new ∧ (quantity o' + traded new)%N = quantity o)
  ∧ loop_done o' b'.
Proof.
  revert o ts b. induction fuel as [|fuel IH]; intros o ts b;
    rewrite match_loop_unfold.
  all: destruct (N.ltb_spec 0 (quantity o)) as [Hpos|Hz];
    [|loop_left; left; lia].
  all: destruct (contra_begin o b) as [best|] eqn:Hbest;
    [|loop_left; right; by rewrite Hbest].
  all: destruct (crosses o best) eqn:Hx;
    [|loop_left; right; by rewrite Hbest].
  - done.
  - destruct (match_orders now o best ts b) as [[o1 ts1] b1] eqn:Hm.
    intros Hloop. apply IH in Hloop as (Ho & Hl & Hc & Hd & Hk & Ht & Hdone).
    apply match_orders_effect in Hm as (Ho1 & Hl1 & Hc1 & Hd1 & _ & Hk1 & Ht1).
    assert (is_buy o1 = is_buy o) as Hside by (by rewrite Ho1).
    rewrite Hside in *.
    split_and!; try done.
    + rewrite Ho, Ho1. done.
    + congruence.
    + congruence.
    + intros p Hp. apply Hd in Hp.
      destruct (decide (p = best)) as [->|Hne].
      * rewrite contra_begin_ladder in Hbest.
        by apply ladder_begin_Some in Hbest as [? _].
      * by rewrite <- Hd1.
    + auto.
    + intros Hlt. destruct (Ht1 Hlt) as (new1 & -> & Hs1).
      assert (quantity o1 < two64)%N as Hlt1 by lia.
      destruct (Ht Hlt1) as (new & -> & Hs).
      exists (new1 ++ new). rewrite app_assoc, traded_app. split; [done|lia].
Qed.

End Admission.

(** ** Levels of the registry *)

Lemma level_orders_cons s p k o l :
  level_orders s p ((k, o) :: l) =
  if at_level s p o then (k, o) :: level_orders s p l else level_orders s p l.
Proof.
  unfold level_orders. rewrite filter_cons. simpl.
  destruct (at_level s p o); by case_decide.
Qed.

Lemma level_qty_cons s p k o l :
  level_qty s p ((k, o) :: l) =
  if at_level s p o then (quantity o + level_qty s p l)%N else level_qty s p l.
Proof.
  unfold level_qty. rewrite level_orders_cons. by destruct (at_level s p o).
Qed.

Lemma at_level_set_quantity s p o q :
  at_level s p (set_quantity o q) = at_level s p o.
Proof. done. Qed.

Lemma at_level_unique s p s' p' o :
  at_level s p o = true → at_level s' p' o = true → (s', p') = (s, p).
Proof.
  unfold at_level. rewrite !andb_true_iff, !bool_decide_eq_true.
  intros [<- <-] [<- <-]. done.
Qed.

(** Maps indexed by side that agree on one side, and on the other side
    away from one price. *)
Lemma side_frame (f g : bool → gmap Z N) (t : bool) (mp : Z) :
  g (negb t) = f (negb t) →
  (∀ p, p ≠ mp → g t !! p = f t !! p) →
  ∀ s p, (s, p) ≠ (t, mp) → g s !! p = f s !! p.
Proof.
  intros Hother Hsame s p Hne. destruct (decide (s = t)) as [->|Hs].
  - apply Hsame. congruence.
  - assert (s = negb t) as -> by (by destruct s, t). by rewrite Hother.
Qed.

Lemma level_orders_nil_qty s p l : level_orders s p l = [] → level_qty s p l = 0%N.
Proof. unfold level_qty. by intros ->. Qed.

Lemma level_tracks_ext lad cnt l l' s p :
  level_qty s p l' = level_qty s p l →
  level_tracks lad cnt l s p → level_tracks lad cnt l' s p.
Proof. unfold level_tracks. by intros ->. Qed.

Lemma level_orders_filter_other s p (F : N * Order → Prop)
    `{∀ x, Decision (F x)} l :
  (∀ ko, ko ∈ l → ¬ F ko → at_level s p ko.2 = false) →
  level_orders s p (filter F l) = level_orders s p l.
Proof.
  induction l as [|[k o] l IH]; intros Hall; [done|].
  rewrite filter_cons. case_decide as HF.
  - rewrite !level_orders_cons, IH; [done|].
    intros ko Hin. apply Hall. by right.
  - assert (at_level s p o = false) as Hf by (apply (Hall (k, o)); [left|done]).
    rewrite level_orders_cons, Hf.
    apply IH. intros ko Hin. apply Hall. by right.
Qed.

Lemma level_qty_filter_zero s p (F : N * Order → Prop)
    `{∀ x, Decision (F x)} l :
  (∀ ko, ko ∈ l → ¬ F ko → quantity ko.2 = 0%N) →
  level_qty s p (filter F l) = level_qty s p l.
Proof.
  induction l as [|[k o] l IH]; intros Hall; [done|].
  rewrite filter_cons. case_decide as HF.
  - rewrite !level_qty_cons, IH; [done|].
    intros ko Hin. apply Hall. by right.
  - rewrite level_qty_cons, IH.
    + destruct (at_level s p o); [|done].
      assert (quantity o = 0%N) as -> by (apply (Hall (k, o)); [left|done]).
      done.
    + intros ko Hin. apply Hall. by right.
Qed.

Lemma level_qty_bound s p ko l :
  ko ∈ l → at_level s p ko.2 = true → (quantity ko.2 ≤ level_qty s p l)%N.
Proof.
  induction l as [|[k o] l IH]; intros Hin Hat.
  - by apply elem_of_nil in Hin.
  - rewrite level_qty_cons. apply elem_of_cons in Hin as [->|Hin]; simpl in *.
    + rewrite Hat. lia.
    + specialize (IH Hin Hat). destruct (at_level s p o); lia.
Qed.

(** ** A scan on a consistent level *)

Section Consistency.

Variable now : nat → N.

Lemma candidate_at_level inc mp o :
  candidate inc mp o = true → at_level (negb (is_buy inc)) mp o = true.
Proof.
  unfold candidate, at_level. rewrite !andb_true_iff, !bool_decide_eq_true.
  tauto.
Qed.

Lemma not_candidate_at_level inc mp ko :
  valid_resting ko → candidate inc mp ko.2 = false →
  at_level (negb (is_buy inc)) mp ko.2 = false.
Proof.
  intros [Hty _]. unfold candidate, at_level.
  rewrite !andb_false_iff, !bool_decide_eq_false. tauto.
Qed.

(** A fill on a level the ladder tracks: nothing wraps around. *)
Lemma fill_tracks s mp k o l st o' st1 :
  fill now mp k o st = (o', st1) →
  is_buy (incoming st) = negb s →
  candidate (incoming st) mp o = true →
  (quantity (incoming st) < two64)%N → (quantity o < two64)%N →
  level_tracks (contra st) (contra_counts st) ((k, o) :: l) s mp →
  let q := N.min (quantity (incoming st)) (quantity o) in
  quantity o' = (quantity o - q)%N
  ∧ quantity (incoming st1) = (quantity (incoming st) - q)%N
  ∧ level_tracks (contra st1) (contra_counts st1) ((k, o') :: l) s mp.
Proof.
  intros Hfill Hside Hcand Hinc Ho Htr q.
  apply candidate_at_level in Hcand. rewrite Hside, negb_involutive in Hcand.
  unfold fill in Hfill. simplify_eq/=. fold q.
  rewrite !sub64_exact by lia. split_and!; try done.
  revert Htr. unfold level_tracks, ladder_sub, ladder_at.
  rewrite !level_qty_cons, at_level_set_quantity, Hcand. simpl.
  rewrite lookup_insert_eq. simpl.
  destruct (contra st !! mp) as [a|] eqn:Ha; simpl.
  - intros (-> & Hlt & Hcnt). rewrite sub64_exact by lia.
    destruct (N.eqb_spec (quantity o + level_qty s mp l - q) 0) as [Hz|Hnz].
    + rewrite !lookup_delete_eq. split; [lia|done].
    + rewrite lookup_insert_eq. split_and!; [lia|lia|done].
  - intros (Hz & Hcnt). assert (q = 0%N) as -> by lia.
    rewrite sub64_zero by done. simpl. rewrite !lookup_delete_eq.
    split; [lia|done].
Qed.

(** A scan of a registry that is valid, at a level the ladder tracks.
    [rm] is what the scan adds to [orders_to_remove]. *)
Lemma scan_orders_tracks s mp l st l' st' :
  scan_orders now mp l st = (l', st') →
  is_buy (incoming st) = negb s →
  (0 < quantity (incoming st) < two64)%N →
  NoDup l.*1 → Forall valid_resting l →
  level_tracks (contra st) (contra_counts st) l s mp →
  ∃ rm,
    orders_to_remove st' = orders_to_remove st ++ rm
    ∧ (∀ ko, ko ∈ l' → ko.1 ∈ rm →
             at_level s mp ko.2 = true ∧ quantity ko.2 = 0%N)
    ∧ (∀ k, k ∈ rm → k ∈ l.*1)
    ∧ Forall valid_resting l'
    ∧ level_tracks (contra st') (contra_counts st') l' s mp
    ∧ (∀ s' p, (s', p) ≠ (s, mp) →
               level_orders s' p l' = level_orders s' p l)
    ∧ (level_orders s mp l = [] ∧ st' = st ∨
       (contra st' !! mp ≠ Some 0%N
        ∧ (quantity (incoming st') = 0%N ∨ rm ≠ []))).
Proof.
  revert l st l' st'. apply (scan_orders_run now mp
    (λ l st l' st',
       is_buy (incoming st) = negb s →
       (0 < quantity (incoming st) < two64)%N →
       NoDup l.*1 → Forall valid_resting l →
       level_tracks (contra st) (contra_counts st) l s mp → _)).
  - intros st _ _ _ _ Htr. exists []. rewrite app_nil_r.
    split_and!; try done; try (by left).
    intros ko Hko. by apply elem_of_nil in Hko.
  - (* the entry is skipped *)
    intros k o l st l' st' Hguard _ IH Hside Hq Hnd Hval Htr.
    rewrite fmap_cons in Hnd. apply NoDup_cons in Hnd as [Hk Hnd].
    apply Forall_cons in Hval as [Hv Hval].
    assert (at_level s mp o = false) as Hat.
    { apply andb_false_iff in Hguard as [Hc|Hc].
      - apply (not_candidate_at_level _ _ (k, o)) in Hc; [|done].
        by rewrite Hside, negb_involutive in Hc.
      - apply N.ltb_ge in Hc. lia. }
    destruct IH as (rm & Hrm & Hzero & Hin & Hval' & Htr' & Hoth & Hprog);
      try done.
    { eapply level_tracks_ext; [|done]. by rewrite level_qty_cons, Hat. }
    exists rm. split_and!; try done.
    + intros ko Hko Hkrm. apply elem_of_cons in Hko as [->|Hko]; [|auto].
      destruct Hk. by apply Hin.
    + intros k' Hk'. rewrite fmap_cons. right. auto.
    + by apply Forall_cons.
    + eapply level_tracks_ext; [|done]. by rewrite level_qty_cons, Hat.
    + intros s' p Hne. rewrite !level_orders_cons, Hoth; done.
    + destruct Hprog as [[Hnil ->]|Hprog]; [left|by right].
      by rewrite level_orders_cons, Hat.
  - (* the entry is filled and the scan stops *)
    intros k o l st o' st1 Hcand _ Hfill Hz Hside Hq Hnd Hval Htr.
    rewrite fmap_cons in Hnd. apply NoDup_cons in Hnd as [Hk Hnd].
    apply Forall_cons in Hval as [[Hty Hlt] Hval]. simpl in Hty, Hlt.
    pose proof (fill_effect now _ _ _ _ _ _ Hfill)
      as (Ho' & _ & _ & _ & _ & Hnz & Hrm).
    pose proof (candidate_at_level _ _ _ Hcand) as Hat.
    rewrite Hside, negb_involutive in Hat.
    eapply fill_tracks in Hfill as (Hq' & _ & Htr'); try done; [|lia].
    eexists. split; [exact Hrm|]. split_and!.
    + intros ko Hko Hkrm. destruct (N.eqb_spec (quantity o') 0) as [Hz'|];
        [|by apply elem_of_nil in Hkrm].
      apply list_elem_of_singleton in Hkrm.
      apply elem_of_cons in Hko as [->|Hko].
      * split; [|done]. simpl. by rewrite Ho', at_level_set_quantity.
      * destruct Hk. rewrite <- Hkrm. apply list_elem_of_fmap. by exists ko.
    + intros k' Hk'. destruct (quantity o' =? 0)%N;
        [|by apply elem_of_nil in Hk'].
      apply list_elem_of_singleton in Hk' as ->. rewrite fmap_cons. left.
    + apply Forall_cons. split; [|done]. split; simpl.
      * by rewrite Ho'.
      * rewrite Hq'. lia.
    + done.
    + intros s' p Hne. rewrite !level_orders_cons, Ho', at_level_set_quantity.
      destruct (at_level s' p o) eqn:Hat'; [|done].
      destruct Hne. by apply (at_level_unique _ _ _ _ o).
    + right. split; [done|]. by left.
  - (* the entry is filled and the scan goes on *)
    intros k o l st o' st1 l' st' Hcand _ Hfill Hnz Hscan IH Hside Hq Hnd Hval
      Htr.
    rewrite fmap_cons in Hnd. apply NoDup_cons in Hnd as [Hk Hnd].
    apply Forall_cons in Hval as [[Hty Hlt] Hval]. simpl in Hty, Hlt.
    pose proof (fill_effect now _ _ _ _ _ _ Hfill)
      as (Ho' & Hi1 & _ & _ & _ & Hnz1 & Hrm1).
    pose proof (candidate_at_level _ _ _ Hcand) as Hat.
    rewrite Hside, negb_involutive in Hat.
    eapply fill_tracks in Hfill as (Hq' & Hq1 & Htr1); try done; [|lia].
    assert (quantity o' = 0%N) as Hz' by lia.
    rewrite Hz' in Hrm1. simpl in Hrm1.
    assert (level_qty s mp ((k, o') :: l) = level_qty s mp l) as Hsame.
    { rewrite level_qty_cons, Ho', at_level_set_quantity, Hat, <- Ho'. lia. }
    destruct IH as (rm & Hrm & Hzero & Hin & Hval' & Htr' & Hoth & Hprog);
      try done.
    { by rewrite Hi1. }
    { lia. }
    { eapply level_tracks_ext; [|done]. done. }
    exists (k :: rm). split_and!.
    + rewrite Hrm, Hrm1, <- app_assoc. done.
    + intros ko Hko Hkrm. apply elem_of_cons in Hko as [->|Hko].
      * split; [|done]. simpl. by rewrite Ho', at_level_set_quantity.
      * apply elem_of_cons in Hkrm as [Heq|Hkrm]; [|auto].
        destruct Hk.
        assert (ko.1 ∈ l'.*1) as Hin' by (apply list_elem_of_fmap; eauto).
        apply scan_orders_effect in Hscan as (_ & Hkeys & _).
        rewrite <- Hkeys, <- Heq. done.
    + intros k' Hk'. rewrite fmap_cons.
      apply elem_of_cons in Hk' as [->|Hk']; [left|right; auto].
    + apply Forall_cons. split; [|done]. split; simpl.
      * by rewrite Ho'.
      * lia.
    + eapply level_tracks_ext; [|exact Htr'].
      rewrite level_qty_cons, Ho', at_level_set_quantity, Hat, <- Ho'. lia.
    + intros s' p Hne.
      rewrite !level_orders_cons, Ho', at_level_set_quantity, <- Ho', Hoth
        by done.
      destruct (at_level s' p o) eqn:Hat'; [|done].
      destruct Hne. by apply (at_level_unique _ _ _ _ o).
    + right. split; [|by right].
      destruct Hprog as [[_ ->]|[? _]]; done.
Qed.

End Consistency.

(** ** [match_orders] on a consistent book *)

Lemma level_consistent_ext lad cnt l lad' cnt' l' s p :
  lad' !! p = lad !! p → cnt' !! p = cnt !! p →
  level_orders s p l' = level_orders s p l →
  level_consistent lad cnt l s p → level_consistent lad' cnt' l' s p.
Proof.
  unfold level_consistent, level_tracks, level_qty.
  by intros -> -> ->.
Qed.

Lemma side_of_update_max s b :
  side_ladder s (update_max_quantities b) = side_ladder s b
  ∧ side_counts s (update_max_quantities b) = side_counts s b.
Proof. by destruct s. Qed.

Lemma filter_keys_NoDup (F : N * Order → Prop) `{∀ x, Decision (F x)}
    (l : list (N * Order)) :
  NoDup l.*1 → NoDup (filter F l).*1.
Proof.
  intros Hnd. eapply sublist_NoDup; [exact Hnd|].
  apply fmap_sublist. apply sublist_filter.
Qed.

Lemma filter_valid (F : N * Order → Prop) `{∀ x, Decision (F x)}
    (l : list (N * Order)) :
  Forall valid_resting l → Forall valid_resting (filter F l).
Proof.
  rewrite !Forall_forall. intros Hall ko Hin.
  apply list_elem_of_filter in Hin as [_ Hin]. auto.
Qed.

Section MatchConsistent.

Variable now : nat → N.

(** On a consistent book, matching at a price present in the contra ladder
    keeps the book consistent, and either exhausts the incoming order or
    removes a resting order from the registry. *)
Lemma match_orders_consistent inc mp ts b inc' ts' b' :
  consistent b →
  (0 < quantity inc < two64)%N →
  is_Some (side_ladder (negb (is_buy inc)) b !! mp) →
  match_orders now inc mp ts b = (inc', ts', b') →
  consistent b'
  ∧ (quantity inc' = 0%N ∨ length (orders b') < length (orders b))
  ∧ (∀ p, level_orders (is_buy inc) p (orders b')
          = level_orders (is_buy inc) p (orders b)).
Proof.
  intros [Hnd Hval Hlev] Hq Hmp Hm.
  pose proof (match_orders_effect now _ _ _ _ _ _ _ Hm)
    as (_ & Hown & Hownc & Hfr & Hfrc & _ & _).
  rewrite match_orders_unfold in Hm. cbv zeta in Hm.
  set (s := negb (is_buy inc)) in *.
  destruct (scan_orders now mp (orders b) _) as [l st] eqn:Hscan.
  simpl in Hm.
  pose proof (scan_orders_effect now _ _ _ _ _ Hscan) as (_ & Hkeys & _).
  destruct (Hlev s mp) as [Htr Hne].
  eapply (scan_orders_tracks now s) in Hscan
    as (rm & Hrm & Hzero & Hin & Hval' & Htr' & Hoth & Hprog);
    try done; [|subst s; simpl; by rewrite negb_involutive].
  simpl in Hrm. rewrite Hrm, erase_all_filter in Hm.
  set (F := filter (λ ko : N * Order, ko.1 ∉ rm) l) in *.
  assert (inc' = incoming st ∧ orders b' = F
          ∧ side_ladder s b' = contra st ∧ side_counts s b' = contra_counts st)
    as (Hinc' & Hord & Hlad & Hcnt).
  { subst s. destruct (is_buy inc); by simplify_eq. }
  clear Hm.
  assert (level_qty s mp F = level_qty s mp l) as HqF.
  { apply level_qty_filter_zero. intros ko Hko Hnot.
    apply dec_stable in Hnot. by apply Hzero. }
  assert (∀ s' p, (s', p) ≠ (s, mp) →
            level_orders s' p F = level_orders s' p (orders b)) as HoF.
  { intros s' p Hne'. rewrite <- Hoth by done.
    apply level_orders_filter_other. intros ko Hko Hnot.
    apply dec_stable in Hnot. destruct (Hzero ko Hko Hnot) as [Hat _].
    destruct (at_level s' p ko.2) eqn:Hat'; [|done].
    destruct Hne'. by apply (at_level_unique _ _ _ _ ko.2). }
  destruct Hprog as [[Hnil _]|[Hnz Hprog]]; [by destruct (Hne Hmp)|].
  split_and!.
  - constructor.
    + rewrite Hord. by apply filter_keys_NoDup; rewrite Hkeys.
    + rewrite Hord. by apply filter_valid.
    + intros s' p. rewrite Hord.
      destruct (decide ((s', p) = (s, mp))) as [Heq|Hne'].
      * simplify_eq. rewrite Hlad, Hcnt. split.
        -- eapply level_tracks_ext; [exact HqF|done].
        -- intros [a Ha] Hnil. apply level_orders_nil_qty in Hnil.
           revert Htr'. unfold level_tracks. rewrite Ha.
           intros (-> & _). rewrite HqF in Hnil. congruence.
      * eapply level_consistent_ext; [| |by apply HoF|by apply Hlev].
        -- apply (side_frame (λ t, side_ladder t b) (λ t, side_ladder t b')
                    s mp); [|done|done].
           subst s. by rewrite negb_involutive.
        -- apply (side_frame (λ t, side_counts t b) (λ t, side_counts t b')
                    s mp); [|done|done].
           subst s. by rewrite negb_involutive.
  - destruct Hprog as [Hz|Hrm']; [left; by rewrite Hinc'|right].
    destruct rm as [|k rm']; [done|].
    assert (k ∈ l.*1) as Hk by (rewrite Hkeys; apply Hin; left).
    apply list_elem_of_fmap in Hk as (ko & -> & Hko).
    rewrite Hord, <- (length_fmap fst (orders b)), <- Hkeys, length_fmap.
    apply (length_filter_lt _ _ ko); [done|].
    intros Hnot. apply Hnot. left.
  - intros p. rewrite Hord. apply HoF. subst s.
    intros [=]. by destruct (is_buy inc).
Qed.

Lemma match_loop_consistent fuel o ts b o' ts' b' :
  match_loop now fuel o ts b = Some (o', ts', b') →
  consistent b → (quantity o < two64)%N →
  consistent b'
  ∧ (∀ p, level_orders (is_buy o) p (orders b')
          = level_orders (is_buy o) p (orders b)).
Proof.
  revert o ts b. induction fuel as [|fuel IH]; intros o ts b;
    rewrite match_loop_unfold.
  all: destruct (N.ltb_spec 0 (quantity o)) as [Hpos|Hz];
    [|by intros; simplify_eq].
  all: destruct (contra_begin o b) as [best|] eqn:Hbest;
    [|by intros; simplify_eq].
  all: destruct (crosses o best); [|by intros; simplify_eq].
  - done.
  - destruct (match_orders now o best ts b) as [[o1 ts1] b1] eqn:Hm.
    intros Hloop Hc Hq.
    pose proof (match_orders_effect now _ _ _ _ _ _ _ Hm)
      as (Ho1 & _ & _ & _ & _ & _ & Ht).
    destruct (Ht Hq) as (new & _ & Hsum).
    rewrite contra_begin_ladder in Hbest.
    apply ladder_begin_Some in Hbest as [Hbest _].
    apply match_orders_consistent in Hm as (Hc1 & _ & Hown);
      [|done|lia|done].
    assert (is_buy o1 = is_buy o) as Hside by (by rewrite Ho1).
    apply IH in Hloop as [Hc' Hown']; [|done|lia].
    split; [done|]. intros p. rewrite <- Hown, <- Hside. apply Hown'.
Qed.

(** On a consistent book the matching loop returns, within as many
    iterations as there are resting orders, plus one. *)
Lemma match_loop_total fuel o ts b :
  consistent b → (quantity o < two64)%N → length (orders b) < fuel →
  ∃ o' ts' b',
    match_loop now fuel o ts b = Some (o', ts', b')
    ∧ consistent b'
    ∧ (∀ p, level_orders (is_buy o) p (orders b')
            = level_orders (is_buy o) p (orders b)).
Proof.
  revert o ts b. induction fuel as [|fuel IH]; intros o ts b Hc Hq Hfuel;
    [lia|].
  rewrite match_loop_unfold.
  destruct (N.ltb_spec 0 (quantity o)) as [Hpos|Hz]; [|by eauto 10].
  destruct (contra_begin o b) as [best|] eqn:Hbest; [|by eauto 10].
  destruct (crosses o best); [|by eauto 10].
  destruct (match_orders now o best ts b) as [[o1 ts1] b1] eqn:Hm.
  pose proof (match_orders_effect now _ _ _ _ _ _ _ Hm)
    as (Ho1 & _ & _ & _ & _ & _ & Ht).
  destruct (Ht Hq) as (new & _ & Hsum).
  rewrite contra_begin_ladder in Hbest.
  apply ladder_begin_Some in Hbest as [Hbest _].
  apply match_orders_consistent in Hm as (Hc1 & Hprog & Hown);
    [|done|lia|done].
  assert (is_buy o1 = is_buy o) as Hside by (by rewrite Ho1).
  destruct Hprog as [Hz|Hlen].
  - exists o1, ts1, b1. rewrite match_loop_unfold, Hz. simpl.
    split_and!; [done|done|]. intros p. by rewrite <- Hown.
  - destruct (IH o1 ts1 b1) as (o' & ts' & b' & Hloop & Hc' & Hown');
      [done|lia|lia|].
    exists o', ts', b'. split_and!; [done|done|].
    intros p. rewrite <- Hown, <- Hside. apply Hown'.
Qed.

End MatchConsistent.

(** ** The other mutations on a consistent book *)

Lemma level_orders_app s p l l' :
  level_orders s p (l ++ l') = level_orders s p l ++ level_orders s p l'.
Proof. apply filter_app. Qed.

Lemma level_qty_app s p l l' :
  level_qty s p (l ++ l') = (level_qty s p l + level_qty s p l')%N.
Proof. unfold level_qty. by rewrite level_orders_app, sum_quantity_app. Qed.

Lemma level_qty_pos_orders s p l :
  (0 < level_qty s p l)%N → level_orders s p l ≠ [].
Proof. intros Hpos Hnil. apply level_orders_nil_qty in Hnil. lia. Qed.

(** The shape of a registry around one of its entries. *)
Lemma orders_split id o (l : list (N * Order)) :
  orders_find id l = Some o →
  ∃ l1 l2,
    l = l1 ++ (id, o) :: l2
    ∧ (NoDup l.*1 → orders_erase id l = l1 ++ l2)
    ∧ ∀ o', orders_assign id o' l = l1 ++ (id, o') :: l2.
Proof.
  induction l as [|[k o0] l IH]; simpl; [done|].
  destruct (N.eqb_spec k id) as [->|Hne]; intros Hfind.
  - simplify_eq. exists [], l. split_and!; try done.
    intros Hnd. apply NoDup_cons in Hnd as [Hk _]. simpl.
    rewrite orders_erase_filter. apply filter_all.
    intros ko Hko Heq. apply Hk. apply list_elem_of_fmap. by exists ko.
  - destruct (IH Hfind) as (l1 & l2 & -> & Herase & Hassign).
    exists ((k, o0) :: l1), l2. split_and!; try done.
    + intros Hnd. apply NoDup_cons in Hnd as [_ Hnd]. simpl.
      by rewrite Herase.
    + intros o'. simpl. by rewrite Hassign.
Qed.

(** [m[p] += q] together with [counts[p]++] on a tracked level. *)
Lemma level_consistent_add lad cnt l l' s p q :
  level_tracks lad cnt l s p →
  level_qty s p l' = (level_qty s p l + q)%N →
  (level_qty s p l + q < two64)%N →
  level_orders s p l' ≠ [] →
  level_consistent (ladder_add p q lad) (ladder_add p 1 cnt) l' s p.
Proof.
  unfold level_consistent, level_tracks, ladder_add, ladder_at.
  intros Htr Hq Hlt Hne. rewrite !lookup_insert_eq. split; [|done].
  destruct (lad !! p) as [a|]; simpl.
  - destruct Htr as (-> & _ & _). rewrite add64_exact by done.
    split_and!; [lia|lia|done].
  - destruct Htr as [Hz _]. rewrite add64_exact by lia.
    split_and!; [lia|lia|done].
Qed.

(** The release of [q] units of an order leaving a consistent level. *)
Lemma level_consistent_release lad cnt lad' cnt' l l' s p q :
  release p q lad cnt = (lad', cnt') →
  level_tracks lad cnt l s p →
  level_qty s p l = (level_qty s p l' + q)%N →
  level_consistent lad' cnt' l' s p.
Proof.
  unfold release, level_consistent, level_tracks.
  destruct (lad !! p) as [a|] eqn:Ha.
  - intros Hrel (-> & Hlt & Hcnt) Hq.
    destruct (N.leb_spec (level_qty s p l) q) as [Hle|Hgt]; simplify_eq.
    + rewrite !lookup_delete_eq. split; [split; [lia|done]|].
      by intros [? ?].
    + rewrite lookup_insert_eq, sub64_exact by lia. split.
      * split_and!; [lia|lia|]. unfold ladder_sub.
        by rewrite lookup_insert_eq.
      * intros _. apply level_qty_pos_orders. lia.
  - intros Hrel (Hz & Hcnt) Hq. simplify_eq. rewrite Ha. split.
    + split; [lia|done].
    + by intros [? ?].
Qed.

Lemma release_frame p q lad cnt lad' cnt' p' :
  release p q lad cnt = (lad', cnt') → p' ≠ p →
  lad' !! p' = lad !! p' ∧ cnt' !! p' = cnt !! p'.
Proof.
  unfold release, ladder_sub. intros Hrel Hne.
  destruct (lad !! p) as [a|]; [destruct (a <=? q)%N|]; simplify_eq;
    by rewrite ?lookup_delete_ne, ?lookup_insert_ne.
Qed.

Lemma ladder_add_frame p q lad p' :
  p' ≠ p → ladder_add p q lad !! p' = lad !! p'.
Proof. intros Hne. unfold ladder_add. by rewrite lookup_insert_ne. Qed.

Lemma empty_book_consistent : consistent empty_book.
Proof.
  constructor; simpl.
  - constructor.
  - constructor.
  - intros s p. unfold level_consistent, level_tracks.
    destruct s; simpl; rewrite lookup_empty; split; try done;
      by intros [? ?].
Qed.

(** The sides of a book after the residual of [o] has come to rest. *)
Lemma rest_order_sides o b :
  (0 < quantity o)%N →
  orders (rest_order o b) = orders_assign (order_id o) o (orders b)
  ∧ side_ladder (is_buy o) (rest_order o b)
    = ladder_add (price o) (quantity o) (side_ladder (is_buy o) b)
  ∧ side_counts (is_buy o) (rest_order o b)
    = ladder_add (price o) 1 (side_counts (is_buy o) b)
  ∧ side_ladder (negb (is_buy o)) (rest_order o b)
    = side_ladder (negb (is_buy o)) b
  ∧ side_counts (negb (is_buy o)) (rest_order o b)
    = side_counts (negb (is_buy o)) b.
Proof.
  intros Hpos. unfold rest_order. apply N.ltb_lt in Hpos. rewrite Hpos.
  by destruct (is_buy o).
Qed.

Lemma at_level_own o : at_level (is_buy o) (price o) o = true.
Proof. unfold at_level. by rewrite !bool_decide_eq_true_2. Qed.

Lemma at_level_other s p o :
  (s, p) ≠ (is_buy o, price o) → at_level s p o = false.
Proof.
  intros Hne. unfold at_level. apply andb_false_iff.
  rewrite !bool_decide_eq_false.
  destruct (decide (is_buy o = s)); [right|by left]. congruence.
Qed.

(** Consistency does not look at the order of the registry, nor at the
    cached maxima. *)
Lemma sum_quantity_perm l l' : l ≡ₚ l' → sum_quantity l = sum_quantity l'.
Proof. induction 1; simpl; lia. Qed.

Lemma level_orders_perm s p l l' :
  l ≡ₚ l' → level_orders s p l ≡ₚ level_orders s p l'.
Proof. intros Hp. unfold level_orders. by rewrite Hp. Qed.

Lemma level_consistent_perm lad cnt l l' s p :
  l ≡ₚ l' → level_consistent lad cnt l s p → level_consistent lad cnt l' s p.
Proof.
  intros Hp. pose proof (level_orders_perm s p _ _ Hp) as Hlp.
  unfold level_consistent, level_tracks, level_qty.
  rewrite (sum_quantity_perm _ _ Hlp).
  intros [Htr Hne]. split; [done|].
  intros Hs Hnil. apply Hne; [done|].
  rewrite Hnil in Hlp. by apply Permutation_nil_r.
Qed.

Lemma consistent_ext b b' :
  orders b ≡ₚ orders b' →
  (∀ s, side_ladder s b' = side_ladder s b) →
  (∀ s, side_counts s b' = side_counts s b) →
  consistent b → consistent b'.
Proof.
  intros Hp Hlad Hcnt [Hnd Hval Hlev]. constructor.
  - by rewrite <- Hp.
  - by rewrite <- Hp.
  - intros s p. rewrite Hlad, Hcnt.
    by apply (level_consistent_perm _ _ (orders b)).
Qed.

(** A new resting order [o] under a fresh key, with its quantity added to
    its level and the count of the level incremented. *)
Lemma install_consistent k o b b' :
  consistent b →
  orders b' ≡ₚ (k, o) :: orders b →
  k ∉ (orders b).*1 →
  order_type o = LIMIT →
  (level_qty (is_buy o) (price o) (orders b) + quantity o < two64)%N →
  side_ladder (is_buy o) b'
    = ladder_add (price o) (quantity o) (side_ladder (is_buy o) b) →
  side_counts (is_buy o) b'
    = ladder_add (price o) 1 (side_counts (is_buy o) b) →
  side_ladder (negb (is_buy o)) b' = side_ladder (negb (is_buy o)) b →
  side_counts (negb (is_buy o)) b' = side_counts (negb (is_buy o)) b →
  consistent b'.
Proof.
  intros [Hnd Hval Hlev] Hord Hfresh Hty Hfit Hlad Hcnt Hlad' Hcnt'.
  constructor.
  - rewrite Hord, fmap_cons. by apply NoDup_cons.
  - rewrite Hord. apply Forall_cons. split; [|done]. split; simpl; [done|lia].
  - intros s p. apply (level_consistent_perm _ _ ((k, o) :: orders b));
      [done|].
    destruct (decide ((s, p) = (is_buy o, price o))) as [Heq|Hne].
    + simplify_eq. rewrite Hlad, Hcnt.
      apply level_consistent_add with (l := orders b); [apply Hlev| |done|].
      * rewrite level_qty_cons, at_level_own. lia.
      * by rewrite level_orders_cons, at_level_own.
    + eapply level_consistent_ext; [| | |apply (Hlev s p)].
      * apply (side_frame (λ t, side_ladder t b) (λ t, side_ladder t b')
                 (is_buy o) (price o)); [done| |done].
        intros p' Hp'. rewrite Hlad. by apply ladder_add_frame.
      * apply (side_frame (λ t, side_counts t b) (λ t, side_counts t b')
                 (is_buy o) (price o)); [done| |done].
        intros p' Hp'. rewrite Hcnt. by apply ladder_add_frame.
      * by rewrite level_orders_cons, at_level_other.
Qed.

Lemma rest_order_consistent o b :
  consistent b →
  order_type o = LIMIT →
  order_id o ∉ (orders b).*1 →
  (level_qty (is_buy o) (price o) (orders b) + quantity o < two64)%N →
  consistent (rest_order o b).
Proof.
  intros Hc Hty Hfresh Hfit.
  destruct (N.ltb_spec 0 (quantity o)) as [Hpos|Hz];
    [|unfold rest_order; apply N.ltb_ge in Hz; by rewrite Hz].
  destruct (rest_order_sides o b Hpos) as (Hord & Hlad & Hcnt & Hlad' & Hcnt').
  rewrite orders_assign_fresh in Hord by done.
  apply (install_consistent (order_id o) o b); try done.
  rewrite Hord. by rewrite Permutation_app_comm.
Qed.

(** The sides of a book after [o] has released its level. *)
Lemma release_order_sides o b :
  orders (release_order o b) = orders b
  ∧ release (price o) (quantity o) (side_ladder (is_buy o) b)
            (side_counts (is_buy o) b)
    = (side_ladder (is_buy o) (release_order o b),
       side_counts (is_buy o) (release_order o b))
  ∧ side_ladder (negb (is_buy o)) (release_order o b)
    = side_ladder (negb (is_buy o)) b
  ∧ side_counts (negb (is_buy o)) (release_order o b)
    = side_counts (negb (is_buy o)) b.
Proof.
  unfold release_order. destruct (is_buy o); simpl;
    by destruct (release _ _ _ _).
Qed.

(** A resting order [o] leaves: its key goes, its level releases it. *)
Lemma withdraw_consistent k o l1 l2 b b' :
  consistent b →
  orders b = l1 ++ (k, o) :: l2 →
  orders b' = l1 ++ l2 →
  release (price o) (quantity o) (side_ladder (is_buy o) b)
          (side_counts (is_buy o) b)
    = (side_ladder (is_buy o) b', side_counts (is_buy o) b') →
  side_ladder (negb (is_buy o)) b' = side_ladder (negb (is_buy o)) b →
  side_counts (negb (is_buy o)) b' = side_counts (negb (is_buy o)) b →
  consistent b'.
Proof.
  intros [Hnd Hval Hlev] Hord Hord' Hrel Hlad' Hcnt'.
  rewrite Hord in Hnd, Hval, Hlev.
  constructor; rewrite Hord'.
  - rewrite fmap_app, fmap_cons in Hnd. rewrite fmap_app.
    apply NoDup_app in Hnd as (Hn1 & Hn12 & Hn2).
    apply NoDup_cons in Hn2 as [_ Hn2].
    apply NoDup_app. split_and!; [done| |done].
    intros x Hx Hx'. apply (Hn12 x Hx). by right.
  - apply Forall_app in Hval as [Hv1 Hv2].
    apply Forall_cons in Hv2 as [_ Hv2]. by apply Forall_app.
  - intros s p.
    destruct (decide ((s, p) = (is_buy o, price o))) as [Heq|Hne].
    + simplify_eq. eapply level_consistent_release; [exact Hrel| |].
      * apply Hlev.
      * rewrite !level_qty_app, level_qty_cons, at_level_own. lia.
    + eapply level_consistent_ext; [| | |apply (Hlev s p)].
      * apply (side_frame (λ t, side_ladder t b) (λ t, side_ladder t b')
                 (is_buy o) (price o)); [done| |done].
        intros p' Hp'. by eapply release_frame in Hrel as [Hr _].
      * apply (side_frame (λ t, side_counts t b) (λ t, side_counts t b')
                 (is_buy o) (price o)); [done| |done].
        intros p' Hp'. by eapply release_frame in Hrel as [_ Hr].
      * by rewrite !level_orders_app, level_orders_cons, at_level_other.
Qed.

Lemma resting_is_limit id o b :
  consistent b → orders_find id (orders b) = Some o → order_type o = LIMIT.
Proof.
  intros [_ Hval _] Hfind. apply orders_find_Some in Hfind.
  rewrite Forall_forall in Hval. by destruct (Hval _ Hfind).
Qed.

(** [cancel_order] keeps a consistent book consistent. *)
Lemma cancel_order_consistent id b :
  consistent b → consistent (cancel_order id b).2.
Proof.
  intros Hc. unfold cancel_order.
  destruct (orders_find id (orders b)) as [o|] eqn:Hfind; [|done].
  rewrite (resting_is_limit _ _ _ Hc Hfind). simpl.
  destruct (orders_split _ _ _ Hfind) as (l1 & l2 & Hord & Herase & _).
  destruct (release_order_sides o b) as (Ho & Hrel & Hlad' & Hcnt').
  rewrite Ho.
  eapply (withdraw_consistent id o l1 l2 b); try done.
  simpl. apply Herase. apply Hc.
Qed.

(** [amend_order] keeps a consistent book consistent, as long as the new
    quantity does not push its level beyond 64 bits. *)
Lemma amend_order_consistent id new_price new_quantity b :
  consistent b →
  (∀ o, orders_find id (orders b) = Some o →
        (level_qty_without id (is_buy o) new_price (orders b) + new_quantity
         < two64)%N) →
  consistent (amend_order id new_price new_quantity b).2.
Proof.
  intros Hc Hfit. unfold amend_order.
  destruct (orders_find id (orders b)) as [o|] eqn:Hfind; [|done].
  specialize (Hfit o eq_refl). unfold level_qty_without in Hfit.
  rewrite (resting_is_limit _ _ _ Hc Hfind). simpl.
  destruct (orders_split _ _ _ Hfind) as (l1 & l2 & Hord & Herase & Hassign).
  specialize (Herase (cons_nodup _ Hc)). rewrite Herase in Hfit.
  destruct (release_order_sides o b) as (Ho & Hrel & Hlad' & Hcnt').
  set (b1 := release_order o b) in *.
  assert (consistent (with_orders (l1 ++ l2) b1)) as Hc1.
  { eapply (withdraw_consistent id o l1 l2 b); try done;
      by destruct (is_buy o). }
  set (o' := set_terms o new_price new_quantity).
  eapply (install_consistent id o' _ _ Hc1); simpl.
  - rewrite Ho, Hassign. destruct (is_buy o); simpl;
      by rewrite <- Permutation_middle.
  - pose proof (cons_nodup _ Hc) as Hnd. rewrite Hord in Hnd.
    rewrite fmap_app, fmap_cons in Hnd. rewrite fmap_app.
    apply NoDup_app in Hnd as (Hn1 & Hn12 & Hn2).
    apply NoDup_cons in Hn2 as [Hk _].
    rewrite elem_of_app. intros [Hin|Hin]; [|done].
    apply (Hn12 _ Hin). left.
  - apply (resting_is_limit _ _ _ Hc Hfind).
  - done.
  - by destruct (is_buy o).
  - by destruct (is_buy o).
  - by destruct (is_buy o).
  - by destruct (is_buy o).
Qed.

(** ** Quantity drained from the contra side *)

Lemma sub64_le (a b : N) : (b ≤ a)%N → (sub64 a b ≤ a - b)%N.
Proof.
  intros Hle. unfold sub64.
  replace (a + two64 - b)%N with ((a - b) + 1 * two64)%N by lia.
  rewrite N.Div0.mod_add. apply N.Div0.mod_le.
Qed.

Lemma side_qty_cons s k o l :
  side_qty s ((k, o) :: l) =
  if bool_decide (is_buy o = s) then (quantity o + side_qty s l)%N
  else side_qty s l.
Proof.
  unfold side_qty. rewrite filter_cons. simpl.
  case_decide; [by rewrite bool_decide_eq_true_2|by rewrite bool_decide_eq_false_2].
Qed.

Lemma side_qty_filter s (F : N * Order → Prop) `{∀ x, Decision (F x)} l :
  (side_qty s (filter F l) ≤ side_qty s l)%N.
Proof.
  induction l as [|[k o] l IH]; [done|].
  rewrite filter_cons. case_decide; rewrite !side_qty_cons;
    case_bool_decide; lia.
Qed.

Section Drain.

Variable now : nat → N.

Lemma scan_orders_drain s mp l st l' st' :
  scan_orders now mp l st = (l', st') →
  is_buy (incoming st) = negb s →
  (quantity (incoming st) < two64)%N →
  (quantity (incoming st) + side_qty s l'
   ≤ quantity (incoming st') + side_qty s l)%N.
Proof.
  revert l st l' st'. apply (scan_orders_run now mp
    (λ l st l' st',
       is_buy (incoming st) = negb s → (quantity (incoming st) < two64)%N →
       (quantity (incoming st) + side_qty s l'
        ≤ quantity (incoming st') + side_qty s l)%N)).
  - intros; lia.
  - intros k o l st l' st' _ _ IH Hside Hlt. specialize (IH Hside Hlt).
    rewrite !side_qty_cons. case_bool_decide; lia.
  - intros k o l st o' st1 Hcand _ Hfill _ Hside Hlt.
    apply fill_effect in Hfill as (-> & -> & _). simpl.
    rewrite !side_qty_cons. simpl.
    apply candidate_at_level in Hcand. unfold at_level in Hcand.
    apply andb_true_iff in Hcand as [Hs%bool_decide_eq_true _].
    rewrite Hside, negb_involutive in Hs.
    rewrite bool_decide_eq_true_2 by done.
    rewrite (sub64_exact (quantity (incoming st))) by lia.
    pose proof (sub64_le (quantity o)
                  (N.min (quantity (incoming st)) (quantity o))). lia.
  - intros k o l st o' st1 l' st' Hcand _ Hfill _ _ IH Hside Hlt.
    apply fill_effect in Hfill as (-> & Hi1 & _).
    rewrite Hi1 in IH. simpl in IH.
    rewrite sub64_exact in IH by lia. specialize (IH Hside).
    rewrite !side_qty_cons. simpl.
    apply candidate_at_level in Hcand. unfold at_level in Hcand.
    apply andb_true_iff in Hcand as [Hs%bool_decide_eq_true _].
    rewrite Hside, negb_involutive in Hs.
    rewrite bool_decide_eq_true_2 by done.
    pose proof (sub64_le (quantity o)
                  (N.min (quantity (incoming st)) (quantity o))). lia.
Qed.

Lemma match_orders_drain inc mp ts b inc' ts' b' :
  match_orders now inc mp ts b = (inc', ts', b') →
  (quantity inc < two64)%N →
  (quantity inc + side_qty (negb (is_buy inc)) (orders b')
   ≤ quantity inc' + side_qty (negb (is_buy inc)) (orders b))%N.
Proof.
  rewrite match_orders_unfold. cbv zeta.
  destruct (scan_orders now mp (orders b) _) as [l st] eqn:Hscan.
  intros Hm Hlt. simpl in Hm.
  apply (scan_orders_drain (negb (is_buy inc))) in Hscan;
    [|simpl; by rewrite negb_involutive|done].
  simpl in Hscan.
  assert (inc' = incoming st
          ∧ orders b' = erase_all (orders_to_remove st) l) as [-> ->].
  { destruct (is_buy inc); by simplify_eq. }
  rewrite erase_all_filter.
  pose proof (side_qty_filter (negb (is_buy inc))
                (λ ko, ko.1 ∉ orders_to_remove st) l). lia.
Qed.

Lemma match_loop_drain fuel o ts b o' ts' b' :
  match_loop now fuel o ts b = Some (o', ts', b') →
  (quantity o < two64)%N →
  (quantity o + side_qty (negb (is_buy o)) (orders b')
   ≤ quantity o' + side_qty (negb (is_buy o)) (orders b))%N.
Proof.
  revert o ts b. induction fuel as [|fuel IH]; intros o ts b;
    rewrite match_loop_unfold.
  all: destruct (0 <? quantity o)%N; [|intros; simplify_eq; lia].
  all: destruct (contra_begin o b) as [best|]; [|intros; simplify_eq; lia].
  all: destruct (crosses o best); [|intros; simplify_eq; lia].
  - done.
  - destruct (match_orders now o best ts b) as [[o1 ts1] b1] eqn:Hm.
    intros Hloop Hlt.
    pose proof (match_orders_effect now _ _ _ _ _ _ _ Hm)
      as (Ho1 & _ & _ & _ & _ & _ & Ht).
    destruct (Ht Hlt) as (new & _ & Hsum).
    apply match_orders_drain in Hm; [|done].
    apply IH in Hloop; [|lia].
    assert (is_buy o1 = is_buy o) as Hside by (by rewrite Ho1).
    rewrite Hside in Hloop. lia.
Qed.

(** ** Admission *)


Lemma add_order_residual_unfold fuel o b :
  add_order_residual now fuel o b =
  match orders_find (order_id o) (orders b) with
  | Some _ => Some (o, [], b)
  | None =>
      match order_type o with
      | MARKET => match_loop now fuel o [] b
      | LIMIT =>
          (λ r : Order * list Trade * OrderBookImpl,
             (r.1.1, r.1.2, rest_order r.1.1 r.2))
            <$> match_loop now fuel o [] b
      end
  end.
Proof. done. Qed.

(** On a consistent book [add_order] returns. *)
Lemma add_order_residual_returns o b :
  consistent b → (quantity o < two64)%N →
  is_Some (add_order_residual now (S (length (orders b))) o b).
Proof.
  intros Hc Hlt. rewrite add_order_residual_unfold.
  destruct (orders_find _ _); [done|].
  destruct (match_loop_total now (S (length (orders b))) o [] b)
    as (o' & ts' & b' & -> & _); [done|done|lia|].
  by destruct (order_type o).
Qed.

Lemma add_order_returns o b :
  consistent b → (quantity o < two64)%N →
  is_Some (add_order now (S (length (orders b))) o b).
Proof.
  intros Hc Hlt. unfold add_order.
  destruct (add_order_residual_returns o b Hc Hlt) as [r ->]. done.
Qed.

(** [add_order] keeps a consistent book consistent, as long as the
    residual does not push its level beyond 64 bits. *)
Lemma add_order_consistent fuel o b ts b' :
  consistent b →
  (level_qty (is_buy o) (price o) (orders b) + quantity o < two64)%N →
  add_order now fuel o b = Some (ts, b') →
  consistent b'.
Proof.
  intros Hc Hfit. unfold add_order. rewrite add_order_residual_unfold.
  destruct (orders_find _ _) eqn:Hfind; [by intros; simplify_eq/=|].
  apply orders_find_None in Hfind.
  destruct (match_loop now fuel o [] b) as [[[o1 ts1] b1]|] eqn:Hloop;
    [|by destruct (order_type o)].
  pose proof (match_loop_effect now _ _ _ _ _ _ _ Hloop)
    as (Ho1 & _ & _ & _ & Hkeys & Ht & _).
  destruct Ht as (new & _ & Hsum); [lia|].
  apply (match_loop_consistent now) in Hloop as [Hc1 Hown]; [|done|lia].
  assert (order_id o1 = order_id o ∧ is_buy o1 = is_buy o
          ∧ price o1 = price o ∧ order_type o1 = order_type o)
    as (Hid & Hside & Hprice & Hty) by (by rewrite Ho1).
  destruct (order_type o) eqn:Hty'; intros; simplify_eq/=; [|done].
  apply rest_order_consistent; [done|congruence| |].
  - rewrite Hid. intros Hin. by apply Hfind, Hkeys.
  - unfold level_qty. rewrite Hside, Hprice, Hown. fold (level_qty (is_buy o) (price o) (orders b)). lia.
Qed.

End Drain.

(** Every book the operations build is consistent. *)
Lemma reachable_consistent b : reachable b → consistent b.
Proof.
  induction 1 as [|now fuel o ts b b' _ IH Hfit Hadd|id b _ IH
                 |id p q b _ IH Hfit].
  - apply empty_book_consistent.
  - by eapply add_order_consistent.
  - by apply cancel_order_consistent.
  - by apply amend_order_consistent.
Qed.

(** ** Crossing *)

Lemma uncrossed_iff b :
  uncrossed b ↔
  ∀ pb pa, is_Some (bids b !! pb) → is_Some (asks b !! pa) → (pb < pa)%Z.
Proof.
  unfold uncrossed. split.
  - intros Hu pb pa Hb Ha.
    destruct (ladder_begin_is_Some true _ _ Hb) as [bb Hbb].
    destruct (ladder_begin_is_Some false _ _ Ha) as [ba Hba].
    rewrite Hbb, Hba in Hu.
    apply ladder_begin_Some in Hbb as [_ Hmax].
    apply ladder_begin_Some in Hba as [_ Hmin].
    specialize (Hmax pb Hb). specialize (Hmin pa Ha). simpl in *. lia.
  - intros Hall.
    destruct (ladder_begin true (bids b)) as [bb|] eqn:Hbb; [|done].
    destruct (ladder_begin false (asks b)) as [ba|] eqn:Hba; [|done].
    apply ladder_begin_Some in Hbb as [Hb _].
    apply ladder_begin_Some in Hba as [Ha _]. auto.
Qed.

(** The same with the sides named from an order's point of view. *)
Lemma uncrossed_sides (s : bool) b :
  uncrossed b ↔
  ∀ p q, is_Some (side_ladder s b !! p) →
         is_Some (side_ladder (negb s) b !! q) →
         if s then (p < q)%Z else (q < p)%Z.
Proof.
  rewrite uncrossed_iff. destruct s; simpl; [done|]. split; auto.
Qed.

Lemma ladder_add_is_Some p q lad p' :
  is_Some (ladder_add p q lad !! p') → p' = p ∨ is_Some (lad !! p').
Proof.
  unfold ladder_add. destruct (decide (p' = p)) as [->|Hne]; [by left|].
  rewrite lookup_insert_ne by done. by right.
Qed.

Lemma not_crossing_limit o best :
  order_type o = LIMIT → crosses o best = false →
  if is_buy o then (price o < best)%Z else (best < price o)%Z.
Proof.
  unfold crosses. intros ->.
  destruct (is_buy o); intros H%bool_decide_eq_false; lia.
Qed.

(** ** Snapshots *)

Lemma snapshot_side_levels depth desc (lad cnt : gmap Z N) :
  (∀ p, is_Some (lad !! p) → is_Some (cnt !! p)) →
  ∃ out, snapshot_side depth desc lad cnt = Some out
         ∧ length out = min depth (size lad)
         ∧ (λ l, (level_price l, total_quantity l)) <$> out
           = take depth (ladder_entries desc lad).
Proof.
  intros Hcover. unfold snapshot_side.
  destruct (mapM_is_Some_2
              (λ e : Z * N, mkPriceLevel e.1 e.2 <$> cnt !! e.1)
              (take depth (ladder_entries desc lad))) as [out Hout].
  - apply Forall_forall. intros [p a] Hin. simpl.
    apply fmap_is_Some, Hcover. exists a.
    apply (ladder_entries_elem desc).
    apply elem_of_take in Hin as (i & Hi & _).
    by eapply list_elem_of_lookup_2.
  - exists out. split; [done|]. split.
    + apply length_mapM in Hout.
      by rewrite <- Hout, length_take, ladder_entries_length.
    + apply mapM_Some_1 in Hout.
      induction Hout as [|[p a] y l k Hy _ IH]; [done|].
      rewrite fmap_cons, IH. f_equal.
      apply fmap_Some in Hy as (c & _ & ->). done.
Qed.

(** ** The ladder total and the registry *)

Lemma side_qty_level_zero s l :
  (∀ p, level_qty s p l = 0%N) → side_qty s l = 0%N.
Proof.
  induction l as [|[k o] l IH]; intros Hz; [done|].
  rewrite side_qty_cons. case_bool_decide as Hs.
  - pose proof (Hz (price o)) as Hp. rewrite level_qty_cons in Hp.
    subst s. rewrite at_level_own in Hp.
    rewrite IH; [lia|]. intros p. specialize (Hz p).
    rewrite level_qty_cons in Hz. destruct (at_level _ p o); lia.
  - apply IH. intros p. specialize (Hz p). rewrite level_qty_cons in Hz.
    unfold at_level in Hz. by rewrite bool_decide_eq_false_2 in Hz.
Qed.

Lemma side_qty_split s p l :
  side_qty s l
  = (level_qty s p l
     + side_qty s (filter (λ ko, at_level s p ko.2 ≠ true) l))%N.
Proof.
  induction l as [|[k o] l IH]; [done|].
  rewrite side_qty_cons, level_qty_cons, filter_cons. simpl.
  destruct (at_level s p o) eqn:Hat.
  - rewrite decide_False by (by intros []).
    unfold at_level in Hat.
    apply andb_true_iff in Hat as [Hs%bool_decide_eq_true _].
    rewrite bool_decide_eq_true_2 by done. lia.
  - rewrite decide_True by done. rewrite side_qty_cons.
    case_bool_decide; lia.
Qed.

Lemma level_qty_without_level s p p' l :
  level_qty s p' (filter (λ ko, at_level s p ko.2 ≠ true) l)
  = if decide (p' = p) then 0%N else level_qty s p' l.
Proof.
  induction l as [|[k o] l IH]; [by case_decide|].
  rewrite filter_cons. simpl.
  destruct (at_level s p o) eqn:Hat.
  - rewrite decide_False by (by intros []). rewrite IH, level_qty_cons.
    case_decide as Hp; [done|].
    rewrite (at_level_other s p' o); [done|].
    unfold at_level in Hat.
    apply andb_true_iff in Hat
      as [Hs%bool_decide_eq_true Hpr%bool_decide_eq_true].
    congruence.
  - rewrite decide_True by done. rewrite !level_qty_cons, IH.
    case_decide as Hp; [|done]. subst p'. by rewrite Hat.
Qed.

(** A ladder that shows at every price what rests there shows in total
    what rests on its side. *)
Lemma ladder_total_side_qty s (m : gmap Z N) :
  ∀ l, (∀ p, ladder_at m p = level_qty s p l) →
       ladder_total m = side_qty s l.
Proof.
  induction m as [|p a m Hp IH] using map_ind; intros l Hl.
  - unfold ladder_total. rewrite map_fold_empty. symmetry.
    apply side_qty_level_zero. intros p. rewrite <- Hl.
    unfold ladder_at. by rewrite lookup_empty.
  - unfold ladder_total. rewrite map_fold_insert_L; [|intros; lia|done].
    fold (ladder_total m).
    rewrite (IH (filter (λ ko, at_level s p ko.2 ≠ true) l)).
    + rewrite (side_qty_split s p l). f_equal.
      rewrite <- Hl. unfold ladder_at. by rewrite lookup_insert_eq.
    + intros p'. rewrite level_qty_without_level. case_decide as Hp'.
      * subst p'. unfold ladder_at. by rewrite Hp.
      * rewrite <- Hl. unfold ladder_at. by rewrite lookup_insert_ne.
Qed.

Lemma consistent_ladder_at b s p :
  consistent b → ladder_at (side_ladder s b) p = level_qty s p (orders b).
Proof.
  intros [_ _ Hlev]. destruct (Hlev s p) as [Htr _]. revert Htr.
  unfold level_tracks, ladder_at.
  destruct (side_ladder s b !! p); simpl; [by intros [-> _]|by intros [-> _]].
Qed.

Lemma consistent_ladder_total b s :
  consistent b → ladder_total (side_ladder s b) = side_qty s (orders b).
Proof.
  intros Hc. apply ladder_total_side_qty. intros p.
  by apply consistent_ladder_at.
Qed.

(** On a consistent book every price of a ladder has its count, so
    [get_snapshot] never throws. *)
Lemma consistent_counts_cover b s :
  consistent b → dom (side_ladder s b) ⊆ dom (side_counts s b).
Proof.
  intros [_ _ Hlev] p Hp. apply elem_of_dom in Hp as [a Ha].
  destruct (Hlev s p) as [Htr _]. revert Htr.
  unfold level_tracks. rewrite Ha. intros (_ & _ & Hc).
  by apply elem_of_dom.
Qed.

(** ** The scenarios of the specification *)

(** Scenario 1: a first bid rests. *)
Example scenario_first_bid :
  add_order tick 1 (mkOrder 1 true LIMIT 10 5) empty_book
    = Some ([], book_one_bid)
  ∧ get_best_bid book_one_bid = 10%Z
  ∧ ladder_begin false (asks book_one_bid) = None.
Proof. by vm_compute. Qed.

(** Scenario 2: a sell at 9 trades 3 at the bid's price, 10. *)
Example scenario_crossing_sell :
  add_order tick 2 (mkOrder 2 false LIMIT 9 3) book_one_bid
    = Some ([mkTrade 1 2 10 3 0],
            after_add (mkOrder 2 false LIMIT 9 3) book_one_bid)
  ∧ orders (after_add (mkOrder 2 false LIMIT 9 3) book_one_bid)
    = [(1%N, mkOrder 1 true LIMIT 10 2)]
  ∧ get_best_bid (after_add (mkOrder 2 false LIMIT 9 3) book_one_bid) = 10%Z
  ∧ ladder_begin false
      (asks (after_add (mkOrder 2 false LIMIT 9 3) book_one_bid)) = None.
Proof. by vm_compute. Qed.

(** Scenario 4: the remaining bid is amended to 10 units at 11. *)
Example scenario_amend :
  get_snapshot 5
    (amend_order 1 11 10
       (after_add (mkOrder 2 false LIMIT 9 3) book_one_bid)).2
  = Some ([mkPriceLevel 11 10 1], []).
Proof. by vm_compute. Qed.

(** ** A call that does not return

    Quantities that wrap around [2^64] take the book out of the consistent
    ones.  On [book_stale] the bid ladder has a price at which nothing
    rests: a MARKET sell finds the ladder non-empty, [match_orders] finds
    no order to fill, and the loop of [add_order] goes round for ever. *)
Lemma stale_level_never_returns now fuel :
  orders book_stale = []
  ∧ bids book_stale !! 10%Z = Some half64
  ∧ add_order now fuel (mkOrder 9 false MARKET 0 1) book_stale = None.
Proof.
  split; [by vm_compute|]. split; [by vm_compute|].
  assert (orders_find 9 (orders book_stale) = None) as Hfresh
    by (by vm_compute).
  assert (contra_begin (mkOrder 9 false MARKET 0 1) book_stale = Some 10%Z)
    as Hbest by (by vm_compute).
  assert (∀ ts, match_orders now (mkOrder 9 false MARKET 0 1) 10 ts book_stale
                = (mkOrder 9 false MARKET 0 1, ts, book_stale)) as Hm.
  { intros ts. vm_compute. reflexivity. }
  unfold add_order. rewrite add_order_residual_unfold.
  cbn [order_id order_type]. rewrite Hfresh.
  generalize (@nil Trade) as ts.
  induction fuel as [|fuel IH]; intros ts; rewrite match_loop_unfold, Hbest;
    cbn [quantity crosses order_type N.ltb N.compare].
  - reflexivity.
  - rewrite Hm. apply IH.
Qed.

(** * The properties of the specification *)

(** The aggregate quantity half of ladder consistency: on every reachable
    book a ladder holds, at each price, the sum of the quantities resting
    there, and no entry where nothing rests. *)
Lemma ladder_quantity_consistent b s p :
  reachable b → ladder_at (side_ladder s b) p = level_qty s p (orders b).
Proof. intros Hr. by apply consistent_ladder_at, reachable_consistent. Qed.

Lemma after_add_reachable o b :
  reachable b →
  (level_qty (is_buy o) (price o) (orders b) + quantity o < two64)%N →
  reachable (after_add o b).
Proof.
  intros Hr Hfit. unfold after_add.
  destruct (add_order tick _ o b) as [[ts b']|] eqn:Hadd; [|done].
  by eapply reach_add.
Qed.

Lemma book_spread_reachable : reachable book_spread.
Proof.
  repeat (apply after_add_reachable; [|by vm_compute]). apply reach_empty.
Qed.

Lemma book_amended_across_reachable : reachable book_amended_across.
Proof.
  apply reach_amend; [apply book_spread_reachable|].
  intros o Ho. vm_compute in Ho. simplify_eq. by vm_compute.
Qed.

(** C1, evaluated where the code departs from it.  Two asks of 5 rest at
    price 10 and a buy of 5 at 10 fills one of them.  The ask ladder then
    holds the quantity of the single order left at 10, but its order count
    is still 2: [match_orders] erases the count of a level it exhausts and
    never decrements the count of a level that stays. *)
Theorem fill_leaves_count_stale :
  reachable book_one_filled
  ∧ asks book_one_filled !! 10%Z
    = Some (level_qty false 10 (orders book_one_filled))
  ∧ level_count false 10 (orders book_one_filled) = 1%N
  ∧ ask_order_counts book_one_filled !! 10%Z = Some 2%N.
Proof.
  split; [|by vm_compute].
  repeat (apply after_add_reachable; [|by vm_compute]). apply reach_empty.
Qed.

(** C2, evaluated where the code departs from it.  A bid of 5 rests at 10
    and is amended to price 11 with quantity 0: [amend_order] leaves an
    entry of aggregate quantity zero at 11 in the bid ladder. *)
Theorem amend_to_zero_leaves_empty_level :
  order_exists 1 book_one_bid = true
  ∧ amend_order 1 11 0 book_one_bid
    = (true, (amend_order 1 11 0 book_one_bid).2)
  ∧ bids (amend_order 1 11 0 book_one_bid).2 !! 11%Z = Some 0%N
  ∧ bid_order_counts (amend_order 1 11 0 book_one_bid).2 !! 11%Z = Some 1%N.
Proof. by vm_compute. Qed.

(** C3 fails as stated: a bid at 10 and an ask at 12 rest, the bid is
    amended to 13 without being matched, and a buy at 5 is added.  The call
    returns no trade and leaves the best bid, 13, above the best ask,
    12. *)
Lemma add_order_on_crossed_book :
  reachable book_amended_across
  ∧ add_order tick 3 (mkOrder 3 true LIMIT 5 1) book_amended_across
    = Some ([], after_add (mkOrder 3 true LIMIT 5 1) book_amended_across)
  ∧ ladder_begin true
      (bids (after_add (mkOrder 3 true LIMIT 5 1) book_amended_across))
    = Some 13%Z
  ∧ ladder_begin false
      (asks (after_add (mkOrder 3 true LIMIT 5 1) book_amended_across))
    = Some 12%Z
  ∧ ¬ uncrossed (after_add (mkOrder 3 true LIMIT 5 1) book_amended_across).
Proof.
  split; [apply book_amended_across_reachable|].
  assert (ladder_begin true
            (bids (after_add (mkOrder 3 true LIMIT 5 1) book_amended_across))
          = Some 13%Z) as Hb by (by vm_compute).
  assert (ladder_begin false
            (asks (after_add (mkOrder 3 true LIMIT 5 1) book_amended_across))
          = Some 12%Z) as Ha by (by vm_compute).
  split_and!; [by vm_compute|done|done|].
  unfold uncrossed. rewrite Hb, Ha. lia.
Qed.

(** C3, amended: [add_order] never crosses a book.  On a book whose best
    bid is below its best ask, or one of whose sides is empty, every call
    of [add_order] that returns leaves such a book; and on a consistent
    book the call does return. *)
Theorem add_order_keeps_uncrossed now o b :
  uncrossed b →
  (∀ fuel ts b', add_order now fuel o b = Some (ts, b') → uncrossed b')
  ∧ (consistent b → (quantity o < two64)%N →
     is_Some (add_order now (S (length (orders b))) o b)).
Proof.
  intros Hu. split; [|apply add_order_returns].
  intros fuel ts b'. unfold add_order. rewrite add_order_residual_unfold.
  destruct (orders_find _ _); [by intros; simplify_eq/=|].
  destruct (match_loop now fuel o [] b) as [[[o1 ts1] b1]|] eqn:Hloop;
    [|by destruct (order_type o)].
  apply match_loop_effect in Hloop as (Ho1 & Hown & _ & Hsub & _ & _ & Hdone).
  assert (is_buy o1 = is_buy o ∧ order_type o1 = order_type o) as [Hside Hty]
    by (by rewrite Ho1).
  assert (uncrossed b1) as Hu1.
  { apply (uncrossed_sides (is_buy o)). intros p q Hp Hq.
    apply (uncrossed_sides (is_buy o) b); [done| |by apply Hsub].
    by rewrite <- Hown. }
  destruct (order_type o) eqn:Hty'; intros; simplify_eq/=; [|done].
  destruct (N.ltb_spec 0 (quantity o1)) as [Hpos|Hz];
    [|unfold rest_order; apply N.ltb_ge in Hz; by rewrite Hz].
  destruct (rest_order_sides o1 b1 Hpos) as (_ & Hlad & _ & Hlad' & _).
  apply (uncrossed_sides (is_buy o1)). intros p q Hp Hq.
  rewrite Hlad in Hp. rewrite Hlad' in Hq.
  apply ladder_add_is_Some in Hp as [->|Hp];
    [|by apply (uncrossed_sides (is_buy o1) b1)].
  destruct Hdone as [Hz|Hdone]; [lia|].
  rewrite contra_begin_ladder in Hdone.
  destruct (ladder_begin _ _) as [best|] eqn:Hbest.
  - apply not_crossing_limit in Hdone; [|done].
    apply ladder_begin_Some in Hbest as [_ Hbest].
    specialize (Hbest q Hq). destruct (is_buy o1); simpl in *; lia.
  - apply ladder_begin_None in Hbest. rewrite Hbest in Hq.
    rewrite lookup_empty in Hq. by destruct Hq.
Qed.

Lemma add_order_keeps_uncrossed_witness :
  uncrossed book_spread
  ∧ uncrossed (after_add (mkOrder 3 true LIMIT 12 7) book_spread).
Proof.
  assert (uncrossed book_spread) as Hu by (by vm_compute).
  split; [exact Hu|].
  apply (proj1 (add_order_keeps_uncrossed tick (mkOrder 3 true LIMIT 12 7)
                  book_spread Hu) 3
           [mkTrade 3 2 12 5 0]).
  by vm_compute.
Defined.

(** C4: [add_order] of an order whose id is in the registry returns no
    trade and leaves the whole book as it is. *)
Theorem add_order_duplicate_id now fuel o b :
  order_exists (order_id o) b = true →
  add_order now fuel o b = Some ([], b).
Proof.
  intros [o' Ho']%order_exists_true. unfold add_order.
  rewrite add_order_residual_unfold, Ho'. done.
Qed.

Lemma add_order_duplicate_id_witness :
  order_exists 1 book_one_bid = true
  ∧ add_order tick 0 (mkOrder 1 false MARKET 0 7) book_one_bid
    = Some ([], book_one_bid).
Proof.
  split; [by vm_compute|].
  apply (add_order_duplicate_id tick 0 (mkOrder 1 false MARKET 0 7)
           book_one_bid).
  by vm_compute.
Defined.

(** C5: on an id that is not in the registry [cancel_order] and
    [amend_order] return [false] and leave the book as it is. *)
Theorem unknown_id_rejected id b :
  order_exists id b = false →
  cancel_order id b = (false, b)
  ∧ ∀ new_price new_quantity,
      amend_order id new_price new_quantity b = (false, b).
Proof.
  intros Hnone%order_exists_false. unfold cancel_order, amend_order.
  by rewrite Hnone.
Qed.

Lemma unknown_id_rejected_witness :
  order_exists 999 book_one_bid = false
  ∧ cancel_order 999 book_one_bid = (false, book_one_bid)
  ∧ amend_order 999 11 10 book_one_bid = (false, book_one_bid).
Proof.
  assert (order_exists 999 book_one_bid = false) as H by (by vm_compute).
  split; [exact H|].
  split; [apply (proj1 (unknown_id_rejected 999 book_one_bid H))
         |apply (proj2 (unknown_id_rejected 999 book_one_bid H))].
Defined.

(** C6: a MARKET order with a fresh id is never put in the registry nor in
    the ladder of its own side, and adds no price to the contra ladder;
    when its quantity exceeds all that rests on the contra side, the contra
    ladder is empty once [add_order] has returned.  On a consistent book
    what rests on the contra side is also what the contra ladder shows in
    total, and the call does return. *)
Theorem market_order_drains now o b :
  order_exists (order_id o) b = false →
  order_type o = MARKET →
  (quantity o < two64)%N →
  (∀ fuel ts b',
     add_order now fuel o b = Some (ts, b') →
     order_exists (order_id o) b' = false
     ∧ side_ladder (is_buy o) b' = side_ladder (is_buy o) b
     ∧ side_counts (is_buy o) b' = side_counts (is_buy o) b
     ∧ (∀ p, is_Some (side_ladder (negb (is_buy o)) b' !! p) →
             is_Some (side_ladder (negb (is_buy o)) b !! p))
     ∧ ((side_qty (negb (is_buy o)) (orders b) < quantity o)%N →
        side_ladder (negb (is_buy o)) b' = ∅))
  ∧ (consistent b →
     ladder_total (side_ladder (negb (is_buy o)) b)
       = side_qty (negb (is_buy o)) (orders b)
     ∧ is_Some (add_order now (S (length (orders b))) o b)).
Proof.
  intros Hfresh%order_exists_false Hty Hlt.
  split;
    [|intros Hc; split;
      [by apply consistent_ladder_total|by apply add_order_returns]].
  intros fuel ts b'. unfold add_order.
  rewrite add_order_residual_unfold, Hfresh, Hty.
  destruct (match_loop now fuel o [] b) as [[[o1 ts1] b1]|] eqn:Hloop;
    [|done].
  intros ?; simplify_eq/=.
  pose proof (match_loop_drain now _ _ _ _ _ _ _ Hloop Hlt) as Hdrain.
  apply match_loop_effect in Hloop
    as (Ho1 & Hown & Hownc & Hsub & Hkeys & _ & Hdone).
  split_and!; try done.
  - apply order_exists_false, orders_find_None. intros Hin.
    apply orders_find_None in Hfresh. by apply Hfresh, Hkeys.
  - intros Hmore. destruct Hdone as [Hz|Hdone]; [lia|].
    rewrite contra_begin_ladder in Hdone.
    assert (is_buy o1 = is_buy o ∧ order_type o1 = MARKET) as [Hside Hty1]
      by (by rewrite Ho1).
    rewrite Hside in Hdone.
    destruct (ladder_begin _ _) as [best|] eqn:Hbest.
    + unfold crosses in Hdone. by rewrite Hty1 in Hdone.
    + by apply ladder_begin_None in Hbest.
Qed.

Lemma market_order_drains_witness :
  order_exists 9 book_two_asks = false
  ∧ (side_qty false (orders book_two_asks) < 11)%N
  ∧ asks (after_add (mkOrder 9 true MARKET 0 11) book_two_asks) = ∅
  ∧ order_exists 9 (after_add (mkOrder 9 true MARKET 0 11) book_two_asks)
    = false.
Proof.
  assert (order_exists 9 book_two_asks = false) as Hfresh by (by vm_compute).
  assert (side_qty false (orders book_two_asks) < 11)%N as Hmore
    by (by vm_compute).
  assert (11 < two64)%N as Hlt by (by vm_compute).
  assert (add_order tick 3 (mkOrder 9 true MARKET 0 11) book_two_asks
          = Some ([mkTrade 9 1 10 5 0; mkTrade 9 2 10 5 1],
                  after_add (mkOrder 9 true MARKET 0 11) book_two_asks))
    as Hadd by (by vm_compute).
  destruct (proj1 (market_order_drains tick (mkOrder 9 true MARKET 0 11)
                     book_two_asks Hfresh eq_refl Hlt) _ _ _ Hadd)
    as (Hgone & _ & _ & _ & Hempty).
  split_and!; [exact Hfresh|exact Hmore|exact (Hempty Hmore)|exact Hgone].
Defined.





(** C8 fails as stated: a single bid (ask) at price 0 rests, and
    [get_best_bid] ([get_best_ask]) returns what it returns on the empty
    book. *)
Lemma best_price_zero_is_ambiguous :
  (bids empty_book = ∅
   ∧ ladder_begin true (bids book_zero_bid) = Some 0%Z
   ∧ get_best_bid book_zero_bid = get_best_bid empty_book)
  ∧ (asks empty_book = ∅
     ∧ ladder_begin false (asks book_zero_ask) = Some 0%Z
     ∧ get_best_ask book_zero_ask = get_best_ask empty_book).
Proof. by vm_compute. Qed.

(** C8, amended: [get_best_bid] ([get_best_ask]) returns 0 on an empty
    bid (ask) ladder and the best price on a non-empty one, whatever the
    other ladder holds; the value returned on an empty ladder equals the
    value returned on a non-empty ladder exactly when the best price of
    the latter is 0, and differs from it otherwise. *)
Theorem best_price_sentinel b b' :
  ((bids b = ∅ → get_best_bid b = 0%Z)
   ∧ (bids b' ≠ ∅ →
      ladder_begin true (bids b') = Some (get_best_bid b'))
   ∧ (bids b = ∅ → bids b' ≠ ∅ →
      (get_best_bid b = get_best_bid b'
       ↔ ladder_begin true (bids b') = Some 0%Z)))
  ∧ ((asks b = ∅ → get_best_ask b = 0%Z)
     ∧ (asks b' ≠ ∅ →
        ladder_begin false (asks b') = Some (get_best_ask b'))
     ∧ (asks b = ∅ → asks b' ≠ ∅ →
        (get_best_ask b = get_best_ask b'
         ↔ ladder_begin false (asks b') = Some 0%Z))).
Proof.
  assert (∀ desc (m : gmap Z N), m ≠ ∅ →
            ∃ p, ladder_begin desc m = Some p) as Hbest.
  { intros desc m Hne. destruct (ladder_begin desc m) as [p|] eqn:E;
      [by exists p|]. by apply ladder_begin_None in E. }
  unfold get_best_bid, get_best_ask. split; split_and!.
  - intros Hb%(ladder_begin_None true). by rewrite Hb.
  - intros [p Hp]%(Hbest true). by rewrite Hp.
  - intros Hb%(ladder_begin_None true) [p Hp]%(Hbest true).
    rewrite Hb, Hp. split; [by intros <-|by intros [= ->]].
  - intros Ha%(ladder_begin_None false). by rewrite Ha.
  - intros [p Hp]%(Hbest false). by rewrite Hp.
  - intros Ha%(ladder_begin_None false) [p Hp]%(Hbest false).
    rewrite Ha, Hp. split; [by intros <-|by intros [= ->]].
Qed.

Lemma best_price_sentinel_witness :
  get_best_bid empty_book = 0%Z
  ∧ ladder_begin true (bids book_one_bid) = Some (get_best_bid book_one_bid)
  ∧ (get_best_bid empty_book = get_best_bid book_one_bid
     ↔ ladder_begin true (bids book_one_bid) = Some 0%Z).
Proof.
  assert (bids empty_book = ∅) as He by reflexivity.
  assert (bids book_one_bid ≠ ∅) as Hne.
  { intros H. apply (f_equal (λ m : gmap Z N, m !! 10%Z)) in H.
    by vm_compute in H. }
  pose proof (proj1 (best_price_sentinel empty_book book_one_bid))
    as (Hzero & Hbest & Hcmp).
  split_and!; [exact (Hzero He)|exact (Hbest Hne)|exact (Hcmp He Hne)].
Defined.

(** C9 fails as stated: with bids at 1001 prices, [get_price_levels]
    returns 1000 bid levels. *)
Lemma price_levels_beyond_depth :
  size (bids (book_levels true 1001)) = 1001
  ∧ (λ r : list PriceLevel * list PriceLevel, length r.1)
      <$> get_price_levels (book_levels true 1001)
    = Some 1000.
Proof. by vm_compute. Qed.

(** C9, amended: [get_price_levels] is [get_snapshot] at depth 1000.  On a
    book whose count maps have an entry for every price of their ladder,
    it returns the first 1000 levels of each side, best price first, or
    all of them when there are fewer. *)
Theorem get_price_levels_depth b :
  dom (bids b) ⊆ dom (bid_order_counts b) →
  dom (asks b) ⊆ dom (ask_order_counts b) →
  ∃ bids_out asks_out,
    get_price_levels b = Some (bids_out, asks_out)
    ∧ length bids_out = min 1000 (size (bids b))
    ∧ length asks_out = min 1000 (size (asks b))
    ∧ (λ l, (level_price l, total_quantity l)) <$> bids_out
      = take 1000 (ladder_entries true (bids b))
    ∧ (λ l, (level_price l, total_quantity l)) <$> asks_out
      = take 1000 (ladder_entries false (asks b)).
Proof.
  intros Hb Ha. unfold get_price_levels, get_snapshot.
  destruct (snapshot_side_levels 1000 true (bids b) (bid_order_counts b))
    as (bids_out & -> & Hlb & Hcb).
  { intros p Hp. apply elem_of_dom, Hb. by apply elem_of_dom. }
  destruct (snapshot_side_levels 1000 false (asks b) (ask_order_counts b))
    as (asks_out & -> & Hla & Hca).
  { intros p Hp. apply elem_of_dom, Ha. by apply elem_of_dom. }
  by exists bids_out, asks_out.
Qed.

Lemma get_price_levels_depth_witness :
  ∃ bids_out asks_out,
    get_price_levels book_spread = Some (bids_out, asks_out)
    ∧ length bids_out = min 1000 (size (bids book_spread))
    ∧ length asks_out = min 1000 (size (asks book_spread))
    ∧ (λ l, (level_price l, total_quantity l)) <$> bids_out
      = take 1000 (ladder_entries true (bids book_spread))
    ∧ (λ l, (level_price l, total_quantity l)) <$> asks_out
      = take 1000 (ladder_entries false (asks book_spread)).
Proof.
  apply (get_price_levels_depth book_spread).
  - refine (bool_decide_unpack _ _). by vm_compute.
  - refine (bool_decide_unpack _ _). by vm_compute.
Defined.

(** C10: for an order with a fresh id, the quantities of the trades
    [add_order] returns and the quantity left in [new_order] add up to the
    quantity submitted.  A LIMIT order with a positive rest is then in the
    registry at that quantity; a MARKET order, or a LIMIT order filled in
    full, is not in the registry.  On a consistent book the call does
    return. *)
Theorem admission_conserves_quantity now o b :
  order_exists (order_id o) b = false →
  (quantity o < two64)%N →
  (∀ fuel new_order ts b',
     add_order_residual now fuel o b = Some (new_order, ts, b') →
     add_order now fuel o b = Some (ts, b')
     ∧ new_order = set_quantity o (quantity new_order)
     ∧ (traded ts + quantity new_order)%N = quantity o
     ∧ orders_find (order_id o) (orders b')
       = if bool_decide (order_type o = LIMIT) && (0 <? quantity new_order)%N
         then Some new_order else None)
  ∧ (consistent b → is_Some (add_order_residual now (S (length (orders b))) o b)).
Proof.
  intros Hfresh%order_exists_false Hlt.
  split; [|intros Hc; by apply add_order_residual_returns].
  intros fuel new_order ts b' Hrun.
  split; [unfold add_order; by rewrite Hrun|].
  revert Hrun. rewrite add_order_residual_unfold, Hfresh.
  destruct (match_loop now fuel o [] b) as [[[o1 ts1] b1]|] eqn:Hloop;
    [|by destruct (order_type o)].
  apply match_loop_effect in Hloop as (Ho1 & _ & _ & _ & Hkeys & Ht & _).
  destruct (Ht Hlt) as (new & Hnew & Hsum). simpl in Hnew. subst ts1.
  assert (orders_find (order_id o) (orders b1) = None) as Hfresh1.
  { apply orders_find_None. intros Hin.
    apply orders_find_None in Hfresh. by apply Hfresh, Hkeys. }
  assert (order_id o1 = order_id o) as Hid by (by rewrite Ho1).
  destruct (order_type o) eqn:Hty; intros; simplify_eq/=.
  - split_and!; [done|lia|].
    unfold rest_order.
    destruct (0 <? quantity new_order)%N; simpl; [|done].
    destruct (is_buy new_order); simpl; by rewrite <- Hid, orders_find_assign.
  - split_and!; [done|lia|done].
Qed.

Lemma admission_conserves_quantity_witness :
  order_exists 3 book_spread = false
  ∧ (traded [mkTrade 3 2 12 5 0] + 2)%N = 7%N
  ∧ orders_find 3 (orders (after_add (mkOrder 3 true LIMIT 12 7) book_spread))
    = Some (mkOrder 3 true LIMIT 12 2).
Proof.
  assert (order_exists 3 book_spread = false) as Hfresh by (by vm_compute).
  assert (7 < two64)%N as Hlt by (by vm_compute).
  assert (add_order_residual tick 3 (mkOrder 3 true LIMIT 12 7) book_spread
          = Some (mkOrder 3 true LIMIT 12 2, [mkTrade 3 2 12 5 0],
                  after_add (mkOrder 3 true LIMIT 12 7) book_spread))
    as Hrun by (by vm_compute).
  destruct (proj1 (admission_conserves_quantity tick
                     (mkOrder 3 true LIMIT 12 7) book_spread Hfresh Hlt)
              _ _ _ _ Hrun)
    as (_ & _ & Hsum & Hfind).
  split_and!; [exact Hfresh|exact Hsum|exact Hfind].
Defined.

(** * Further properties of the operations *)

Lemma foldl_max_spec (l : list (Z * N)) (acc : N) :
  let r := foldl (λ acc e, if (acc <? e.2)%N then e.2 else acc) acc l in
  (acc ≤ r)%N
  ∧ (∀ e, e ∈ l → (e.2 ≤ r)%N)
  ∧ (r = acc ∨ ∃ e, e ∈ l ∧ e.2 = r).
Proof.
  revert acc. induction l as [|e l IH]; intros acc; simpl.
  - split_and!; [lia| |by left]. intros e He. by apply elem_of_nil in He.
  - destruct (IH (if (acc <? e.2)%N then e.2 else acc)) as (Hle & Hub & Hat).
    destruct (N.ltb_spec acc e.2) as [Hlt|Hge].
    + split_and!; [lia| |].
      * intros e' [->|He']%elem_of_cons; [done|auto].
      * right. destruct Hat as [->|(e' & He' & <-)].
        -- exists e. split; [left|done].
        -- exists e'. split; [by right|done].
    + split_and!; [done| |].
      * intros e' [->|He']%elem_of_cons; [lia|auto].
      * destruct Hat as [->|(e' & He' & <-)]; [by left|right].
        exists e'. split; [by right|done].
Qed.

Lemma ladder_max_spec desc (m : gmap Z N) :
  (∀ p a, m !! p = Some a → (a ≤ ladder_max desc m)%N)
  ∧ (m = ∅ → ladder_max desc m = 0%N)
  ∧ (m ≠ ∅ → ∃ p, m !! p = Some (ladder_max desc m)).
Proof.
  unfold ladder_max.
  destruct (foldl_max_spec (ladder_entries desc m) 0) as (_ & Hub & Hat).
  split_and!.
  - intros p a Ha. apply (ladder_entries_elem desc) in Ha.
    apply (Hub (p, a) Ha).
  - intros ->. unfold ladder_entries. by rewrite map_to_list_empty.
  - intros Hne. destruct Hat as [Hz|([p a] & He & Hr)].
    + destruct (map_choose m Hne) as (p & a & Ha).
      exists p. rewrite Ha. f_equal.
      apply (ladder_entries_elem desc) in Ha. specialize (Hub _ Ha).
      simpl in Hub. lia.
    + exists p. apply (ladder_entries_elem desc) in He. by rewrite He, <- Hr.
Qed.

(** X1: [update_max_quantities] touches nothing but the two running
    maxima.  After it each maximum bounds every aggregate of its ladder,
    is 0 when the ladder is empty and is the aggregate of one of its
    levels otherwise. *)
Theorem update_max_quantities_spec b :
  let b' := update_max_quantities b in
  (orders b' = orders b ∧ bids b' = bids b ∧ asks b' = asks b
   ∧ bid_order_counts b' = bid_order_counts b
   ∧ ask_order_counts b' = ask_order_counts b)
  ∧ (∀ p a, bids b !! p = Some a → (a ≤ max_bid_quantity b')%N)
  ∧ (∀ p a, asks b !! p = Some a → (a ≤ max_ask_quantity b')%N)
  ∧ (bids b = ∅ → max_bid_quantity b' = 0%N)
  ∧ (asks b = ∅ → max_ask_quantity b' = 0%N)
  ∧ (bids b ≠ ∅ → ∃ p, bids b !! p = Some (max_bid_quantity b'))
  ∧ (asks b ≠ ∅ → ∃ p, asks b !! p = Some (max_ask_quantity b')).
Proof.
  simpl.
  destruct (ladder_max_spec true (bids b)) as (? & ? & ?).
  destruct (ladder_max_spec false (asks b)) as (? & ? & ?).
  by split_and!.
Qed.

Lemma update_max_quantities_spec_witness :
  ∃ p, asks book_spread !! p
       = Some (max_ask_quantity (update_max_quantities book_spread)).
Proof.
  assert (asks book_spread ≠ ∅) as Hne.
  { intros H. apply (f_equal (λ m : gmap Z N, m !! 12%Z)) in H.
    by vm_compute in H. }
  exact (proj2 (proj2 (proj2 (proj2 (proj2 (proj2
           (update_max_quantities_spec book_spread)))))) Hne).
Defined.

Lemma maxima_current_update b : maxima_current (update_max_quantities b).
Proof. done. Qed.

Lemma match_orders_maxima now inc mp ts b :
  maxima_current (match_orders now inc mp ts b).2.
Proof.
  rewrite match_orders_unfold. cbv zeta. simpl. apply maxima_current_update.
Qed.

Lemma match_loop_maxima now fuel o ts b o' ts' b' :
  match_loop now fuel o ts b = Some (o', ts', b') →
  maxima_current b → maxima_current b'.
Proof.
  revert o ts b. induction fuel as [|fuel IH]; intros o ts b;
    rewrite match_loop_unfold.
  all: destruct (0 <? quantity o)%N; [|by intros; simplify_eq].
  all: destruct (contra_begin o b) as [best|]; [|by intros; simplify_eq].
  all: destruct (crosses o best); [|by intros; simplify_eq].
  - done.
  - pose proof (match_orders_maxima now o best ts b) as Hm.
    destruct (match_orders now o best ts b) as [[o1 ts1] b1].
    intros Hloop _. by eapply IH.
Qed.

Lemma rest_order_maxima o b :
  maxima_current b → maxima_current (rest_order o b).
Proof.
  intros Hb. unfold rest_order. destruct (0 <? quantity o)%N; [|done].
  apply maxima_current_update.
Qed.

(** X2: on a book whose two maxima are those of its ladders, they still
    are after [add_order], after [cancel_order] and after [amend_order],
    whatever the arguments and whether or not the call finds its order. *)
Theorem maxima_stay_current b :
  maxima_current b →
  (∀ now fuel o ts b',
     add_order now fuel o b = Some (ts, b') → maxima_current b')
  ∧ (∀ id, maxima_current (cancel_order id b).2)
  ∧ (∀ id new_price new_quantity,
       maxima_current (amend_order id new_price new_quantity b).2).
Proof.
  intros Hb. split_and!.
  - intros now fuel o ts b'. unfold add_order.
    rewrite add_order_residual_unfold.
    destruct (orders_find _ _); [by intros; simplify_eq/=|].
    destruct (match_loop now fuel o [] b) as [[[o1 ts1] b1]|] eqn:Hloop;
      [|by destruct (order_type o)].
    apply match_loop_maxima in Hloop; [|done].
    destruct (order_type o); intros; simplify_eq/=; [|done].
    by apply rest_order_maxima.
  - intros id. unfold cancel_order.
    destruct (orders_find _ _) as [o|]; [|done].
    by destruct (order_type o).
  - intros id p q. unfold amend_order.
    destruct (orders_find _ _) as [o|]; [|done].
    by destruct (order_type o).
Qed.

Lemma maxima_stay_current_witness :
  maxima_current book_spread
  ∧ maxima_current (cancel_order 1 book_spread).2.
Proof.
  assert (maxima_current book_spread) as H by (by vm_compute).
  split; [exact H|].
  apply (proj1 (proj2 (maxima_stay_current book_spread H)) 1%N).
Defined.

Lemma trade_of_mono inc mp l l' t :
  (∀ k s p, resting_at l k s p → resting_at l' k s p) →
  trade_of inc mp l t → trade_of inc mp l' t.
Proof. unfold trade_of. intros Hsub (-> & Hid & Hr). auto. Qed.

Lemma trade_of_incoming inc inc' q mp l t :
  inc' = set_quantity inc q → trade_of inc' mp l t → trade_of inc mp l t.
Proof. intros ->. done. Qed.

Lemma resting_at_cons l k0 o0 k s p :
  resting_at l k s p → resting_at ((k0, o0) :: l) k s p.
Proof. intros (o & Hin & H). exists o. split; [by right|done]. Qed.

Lemma resting_at_scanned rm l l' k s p :
  Forall2 (scanned rm) l l' → resting_at l' k s p → resting_at l k s p.
Proof.
  intros Hl (o' & Hin & Hs & Hp & Hty).
  apply list_elem_of_lookup in Hin as [i Hi].
  destruct (Forall2_lookup_r _ _ _ _ _ Hl Hi) as ([k0 o0] & Hko & Hk & Ho & _).
  simpl in *. subst k0. exists o0. rewrite Ho in Hs, Hp, Hty.
  split; [by eapply list_elem_of_lookup_2|done].
Qed.

Lemma stamped_from_app now n ts ts' :
  stamped_from now n ts → stamped_from now (n + length ts) ts' →
  stamped_from now n (ts ++ ts').
Proof.
  intros H1 H2 i t Hi. apply lookup_app_Some in Hi as [Hi|[Hge Hi]].
  - by apply H1.
  - rewrite (H2 _ _ Hi). f_equal. lia.
Qed.

Lemma scanned_refl rm ko : scanned rm ko ko.
Proof.
  split_and!; [done| |by left]. destruct ko as [k o]. simpl.
  by rewrite set_quantity_id.
Qed.

Lemma scanned_more rm rm' ko ko' :
  (∀ k, k ∈ rm → k ∈ rm') → scanned rm ko ko' → scanned rm' ko ko'.
Proof. intros Hsub (? & ? & [?|[?|?]]); split_and!; auto. Qed.

Section Trades.

Variable now : nat → N.

Lemma make_trade_of inc k o mp q ts l :
  candidate inc mp o = true → (k, o) ∈ l →
  trade_of inc mp l (make_trade now inc k mp q ts).
Proof.
  unfold candidate. rewrite !andb_true_iff, !bool_decide_eq_true.
  intros [[Hs Hty] Hp] Hin. unfold trade_of, make_trade.
  destruct (is_buy inc); simpl; split_and!; try done; by exists o.
Qed.

Lemma make_trade_stamp inc k mp q ts :
  timestamp_ns (make_trade now inc k mp q ts) = now (length ts).
Proof. unfold make_trade. by destruct (is_buy inc). Qed.

(** The trades of one scan, and what becomes of the entries it visits. *)
Lemma scan_orders_trades mp l st l' st' :
  scan_orders now mp l st = (l', st') →
  ∃ new rm,
    trades st' = trades st ++ new
    ∧ orders_to_remove st' = orders_to_remove st ++ rm
    ∧ Forall (trade_of (incoming st) mp l) new
    ∧ stamped_from now (length (trades st)) new
    ∧ Forall2 (scanned rm) l l'.
Proof.
  revert l st l' st'. apply scan_orders_run.
  - intros st. exists [], []. rewrite !app_nil_r. by split_and!.
  - intros k o l st l' st' _ _ (new & rm & Ht & Hr & Hof & Hst & Hl).
    exists new, rm. split_and!; try done.
    + eapply Forall_impl; [done|]. intros t. apply trade_of_mono.
      intros k' s p. apply resting_at_cons.
    + constructor; [apply scanned_refl|done].
  - intros k o l st o' st1 Hcand _ Hfill _.
    apply fill_effect in Hfill as (Ho' & _ & Ht & _ & _ & _ & Hr).
    eexists _, _. split_and!; [exact Ht|exact Hr| | |].
    + apply Forall_singleton. apply (make_trade_of _ _ o); [done|left].
    + intros i t Hi. apply list_lookup_singleton_Some in Hi as [-> <-].
      rewrite make_trade_stamp. f_equal. lia.
    + constructor.
      * split_and!; [done|by rewrite Ho'|]. simpl.
        destruct (N.eqb_spec (quantity o') 0) as [Hz|Hnz].
        -- right. right. left.
        -- right. by left.
      * apply Forall2_same_length_lookup. split; [done|].
        intros i x y Hx Hy. simplify_eq. apply scanned_refl.
  - intros k o l st o' st1 l' st' Hcand _ Hfill _ _
      (new & rm & Ht & Hr & Hof & Hst & Hl).
    apply fill_effect in Hfill as (Ho' & Hi1 & Ht1 & _ & _ & _ & Hr1).
    eexists (_ :: new), (_ ++ rm). split_and!.
    + rewrite Ht, Ht1, <- app_assoc. done.
    + rewrite Hr, Hr1, <- app_assoc. done.
    + constructor.
      * apply (make_trade_of _ _ o); [done|left].
      * eapply Forall_impl; [done|]. intros t Hof'.
        eapply trade_of_incoming; [exact Hi1|].
        eapply trade_of_mono; [|done].
        intros k' s p. apply resting_at_cons.
    + intros [|i] t Hi; simpl in Hi.
      * simplify_eq. rewrite make_trade_stamp. f_equal. lia.
      * rewrite (Hst _ _ Hi), Ht1, length_app. simpl. f_equal. lia.
    + constructor.
      * split_and!; [done|by rewrite Ho'|]. simpl.
        destruct (N.eqb_spec (quantity o') 0) as [Hz|Hnz].
        -- right. right. simpl. left.
        -- right. by left.
      * eapply Forall2_impl; [done|]. intros ko ko'.
        apply scanned_more. intros k' Hk'. apply elem_of_app. by right.
Qed.

End Trades.

Lemma same_price_sorted buy mp (ts : list Trade) :
  Forall (λ t, trade_price t = mp) ts → StronglySorted (trade_before buy) ts.
Proof.
  induction 1 as [|t ts Ht Hts IH]; constructor; [done|].
  eapply Forall_impl; [exact Hts|]. intros t' Ht'.
  unfold trade_before, price_before. rewrite Ht, Ht'. destruct buy; lia.
Qed.

Lemma crosses_set_quantity o q best :
  crosses (set_quantity o q) best = crosses o best.
Proof. done. Qed.

Section LoopTrades.

Variable now : nat → N.

Lemma match_orders_trades inc mp ts b inc' ts' b' :
  match_orders now inc mp ts b = (inc', ts', b') →
  ∃ new,
    ts' = ts ++ new
    ∧ Forall (trade_of inc mp (orders b)) new
    ∧ stamped_from now (length ts) new
    ∧ (∀ k s p, resting_at (orders b') k s p → resting_at (orders b) k s p)
    ∧ (positive_resting (orders b) → positive_resting (orders b')).
Proof.
  rewrite match_orders_unfold. cbv zeta.
  destruct (scan_orders now mp (orders b) _) as [l st] eqn:Hscan.
  apply scan_orders_trades in Hscan as (new & rm & Ht & Hr & Hof & Hst & Hl).
  simpl in *. intros ?; simplify_eq. exists new.
  assert (orders (update_max_quantities
            (if is_buy inc
             then mkBook (erase_all (orders_to_remove st) l) (bids b)
                    (contra st) (bid_order_counts b) (contra_counts st)
                    (max_bid_quantity b) (max_ask_quantity b)
             else mkBook (erase_all (orders_to_remove st) l) (contra st)
                    (asks b) (contra_counts st) (ask_order_counts b)
                    (max_bid_quantity b) (max_ask_quantity b)))
          = erase_all (orders_to_remove st) l) as ->
    by (by destruct (is_buy inc)).
  rewrite erase_all_filter. split_and!; try done.
  - intros k s p (o & Hin & H). apply list_elem_of_filter in Hin as [_ Hin].
    eapply resting_at_scanned; [exact Hl|]. by exists o.
  - intros Hpos. apply Forall_forall. intros ko' Hin.
    apply list_elem_of_filter in Hin as [Hnot Hin].
    apply list_elem_of_lookup in Hin as [i Hi].
    destruct (Forall2_lookup_r _ _ _ _ _ Hl Hi)
      as (ko & Hko & _ & _ & [->|[Hnz|Hrm]]).
    + unfold positive_resting in Hpos. rewrite Forall_forall in Hpos.
      apply Hpos. by eapply list_elem_of_lookup_2.
    + lia.
    + done.
Qed.

(** The trades of the matching loop. *)
Lemma match_loop_trades fuel o ts b o' ts' b' :
  match_loop now fuel o ts b = Some (o', ts', b') →
  ∃ new,
    ts' = ts ++ new
    ∧ Forall (admission_trade o b) new
    ∧ stamped_from now (length ts) new
    ∧ StronglySorted (trade_before (is_buy o)) new
    ∧ (positive_resting (orders b) → positive_resting (orders b')).
Proof.
  revert o ts b. induction fuel as [|fuel IH]; intros o ts b;
    rewrite match_loop_unfold.
  all: destruct (0 <? quantity o)%N;
    [|intros; simplify_eq; exists []; rewrite app_nil_r;
      split_and!; try done; constructor].
  all: destruct (contra_begin o b) as [best|] eqn:Hbest;
    [|intros; simplify_eq; exists []; rewrite app_nil_r;
      split_and!; try done; constructor].
  all: destruct (crosses o best) eqn:Hx;
    [|intros; simplify_eq; exists []; rewrite app_nil_r;
      split_and!; try done; constructor].
  - done.
  - destruct (match_orders now o best ts b) as [[o1 ts1] b1] eqn:Hm.
    intros Hloop.
    pose proof (match_orders_effect now _ _ _ _ _ _ _ Hm)
      as (Ho1 & _ & _ & Hfr & _ & _ & _).
    apply match_orders_trades in Hm
      as (new1 & -> & Hof1 & Hst1 & Hrest & Hpos1).
    apply IH in Hloop as (new2 & -> & Hof2 & Hst2 & Hsort2 & Hpos2).
    rewrite contra_begin_ladder in Hbest.
    apply ladder_begin_Some in Hbest as [Hin Hmin].
    assert (is_buy o1 = is_buy o) as Hside by (by rewrite Ho1).
    assert (∀ p, is_Some (side_ladder (negb (is_buy o)) b1 !! p) →
                 is_Some (side_ladder (negb (is_buy o)) b !! p)) as Hsub.
    { intros p Hp. destruct (decide (p = best)) as [->|Hne]; [done|].
      by rewrite <- Hfr. }
    assert (Forall (admission_trade o b) new2) as Hof2'.
    { eapply Forall_impl; [exact Hof2|]. intros t (Htr & Hp & Hc).
      rewrite Hside in Hp. rewrite Ho1, crosses_set_quantity in Hc.
      split_and!; [|by apply Hsub|done].
      eapply trade_of_incoming; [exact Ho1|].
      eapply trade_of_mono; [exact Hrest|done]. }
    exists (new1 ++ new2). split_and!.
    + by rewrite app_assoc.
    + apply Forall_app. split; [|done].
      eapply Forall_impl; [exact Hof1|]. intros t Htr.
      pose proof Htr as [Hp _]. by rewrite <- Hp in Htr, Hin, Hx.
    + apply stamped_from_app; [done|]. by rewrite <- length_app.
    + apply StronglySorted_app_2.
      * intros t1 t2 Ht1 Ht2.
        rewrite Forall_forall in Hof1, Hof2'.
        destruct (Hof1 _ Ht1) as [Hp1 _].
        destruct (Hof2' _ Ht2) as (_ & Hp2 & _).
        specialize (Hmin _ Hp2). unfold trade_before, price_before.
        rewrite Hp1. destruct (is_buy o); simpl in *; lia.
      * apply (same_price_sorted _ best).
        eapply Forall_impl; [exact Hof1|]. by intros t [? _].
      * by rewrite <- Hside.
    + auto.
Qed.

End LoopTrades.

Lemma orders_assign_Forall (P : N * Order → Prop) id o l :
  (∀ k, P (k, o)) → Forall P l → Forall P (orders_assign id o l).
Proof.
  intros Ho. induction 1 as [|[k o'] l Hk Hl IH]; simpl.
  - by constructor.
  - destruct (k =? id)%N; constructor; auto.
Qed.

Lemma orders_erase_Forall (P : N * Order → Prop) id l :
  Forall P l → Forall P (orders_erase id l).
Proof.
  rewrite orders_erase_filter, !Forall_forall. intros Hl ko Hin.
  apply list_elem_of_filter in Hin as [_ Hin]. auto.
Qed.

Lemma rest_order_positive o b :
  positive_resting (orders b) → positive_resting (orders (rest_order o b)).
Proof.
  intros Hpos. unfold rest_order.
  destruct (N.ltb_spec 0 (quantity o)) as [Hq|Hq]; [|done].
  assert (orders (update_max_quantities
            (if is_buy o
             then mkBook (orders_assign (order_id o) o (orders b))
                    (ladder_add (price o) (quantity o) (bids b)) (asks b)
                    (ladder_add (price o) 1 (bid_order_counts b))
                    (ask_order_counts b) (max_bid_quantity b)
                    (max_ask_quantity b)
             else mkBook (orders_assign (order_id o) o (orders b)) (bids b)
                    (ladder_add (price o) (quantity o) (asks b))
                    (bid_order_counts b)
                    (ladder_add (price o) 1 (ask_order_counts b))
                    (max_bid_quantity b) (max_ask_quantity b)))
          = orders_assign (order_id o) o (orders b)) as ->
    by (by destruct (is_buy o)).
  by apply orders_assign_Forall.
Qed.

Section AdmissionTrades.

Variable now : nat → N.

Lemma add_order_trades_all fuel o b ts b' :
  add_order now fuel o b = Some (ts, b') →
  Forall (admission_trade o b) ts
  ∧ stamped_from now 0 ts
  ∧ StronglySorted (trade_before (is_buy o)) ts
  ∧ (positive_resting (orders b) → positive_resting (orders b')).
Proof.
  unfold add_order. rewrite add_order_residual_unfold.
  destruct (orders_find _ _).
  { intros; simplify_eq/=. split_and!; try done; constructor. }
  destruct (match_loop now fuel o [] b) as [[[o1 ts1] b1]|] eqn:Hloop;
    [|by destruct (order_type o)].
  apply match_loop_trades in Hloop as (new & Hts & Hof & Hst & Hsort & Hpos).
  simpl in Hts, Hst. subst ts1.
  destruct (order_type o); intros; simplify_eq/=; split_and!; try done.
  intros Hb. by apply rest_order_positive, Hpos.
Qed.

End AdmissionTrades.

(** X3: every trade [add_order] returns names the incoming order on its
    own side and, on the other side, the id of a LIMIT order that rested on
    the contra side of the book at the price of the trade; that price was
    a level of the contra ladder, and for a LIMIT incoming order it is no
    worse than the order's limit. *)
Theorem trades_are_struck_at_resting_prices now fuel o b ts b' t :
  add_order now fuel o b = Some (ts, b') →
  t ∈ ts →
  (if is_buy o then buy_order_id t else sell_order_id t) = order_id o
  ∧ resting_at (orders b)
      (if is_buy o then sell_order_id t else buy_order_id t)
      (negb (is_buy o)) (trade_price t)
  ∧ is_Some (side_ladder (negb (is_buy o)) b !! trade_price t)
  ∧ (order_type o = LIMIT →
     if is_buy o then (trade_price t ≤ price o)%Z
     else (price o ≤ trade_price t)%Z).
Proof.
  intros Hadd Ht. apply add_order_trades_all in Hadd as (Hof & _).
  rewrite Forall_forall in Hof.
  destruct (Hof _ Ht) as ((_ & Hid & Hrest) & Hin & Hx).
  split_and!; try done.
  intros Hty. unfold crosses in Hx. rewrite Hty in Hx.
  destruct (is_buy o); by apply bool_decide_eq_true in Hx.
Qed.

Lemma trades_are_struck_at_resting_prices_witness :
  buy_order_id (mkTrade 3 2 12 5 0) = 3%N
  ∧ resting_at (orders book_spread) 2 false 12
  ∧ is_Some (asks book_spread !! 12%Z)
  ∧ (12 ≤ 12)%Z.
Proof.
  assert (add_order tick 3 (mkOrder 3 true LIMIT 12 7) book_spread
          = Some ([mkTrade 3 2 12 5 0],
                  after_add (mkOrder 3 true LIMIT 12 7) book_spread)) as Hadd
    by (by vm_compute).
  assert (mkTrade 3 2 12 5 0 ∈ [mkTrade 3 2 12 5 0]) as Hin by left.
  pose proof (trades_are_struck_at_resting_prices tick 3
                (mkOrder 3 true LIMIT 12 7) book_spread _ _ _ Hadd Hin)
    as (H1 & H2 & H3 & H4).
  split_and!; [exact H1|exact H2|exact H3|exact (H4 eq_refl)].
Defined.

(** X4: the trades of one [add_order] come in the order in which the
    contra ladder is walked: the prices never decrease for a buy and never
    increase for a sell. *)
Theorem trades_walk_the_book now fuel o b ts b' :
  add_order now fuel o b = Some (ts, b') →
  StronglySorted (trade_before (is_buy o)) ts.
Proof.
  intros Hadd. by apply add_order_trades_all in Hadd as (_ & _ & ? & _).
Qed.

Lemma trades_walk_the_book_witness :
  StronglySorted (trade_before true)
    [mkTrade 3 1 10 5 0; mkTrade 3 2 11 3 1].
Proof.
  assert (add_order tick 3 (mkOrder 3 true MARKET 0 8) book_ask_levels
          = Some ([mkTrade 3 1 10 5 0; mkTrade 3 2 11 3 1],
                  after_add (mkOrder 3 true MARKET 0 8) book_ask_levels))
    as Hadd by (by vm_compute).
  exact (trades_walk_the_book tick 3 (mkOrder 3 true MARKET 0 8)
           book_ask_levels _ _ Hadd).
Defined.

(** X5: the [i]-th trade of one [add_order] carries the [i]-th reading
    of the clock; with a clock that never runs backwards the timestamps
    of the returned trades never decrease. *)
Theorem trades_are_stamped_in_order now fuel o b ts b' :
  add_order now fuel o b = Some (ts, b') →
  (∀ i t, ts !! i = Some t → timestamp_ns t = now i)
  ∧ ((∀ i j, i ≤ j → (now i ≤ now j)%N) →
     ∀ i j t t', i ≤ j → ts !! i = Some t → ts !! j = Some t' →
                 (timestamp_ns t ≤ timestamp_ns t')%N).
Proof.
  intros Hadd. apply add_order_trades_all in Hadd as (_ & Hst & _).
  split; [exact Hst|].
  intros Hmono i j t t' Hij Hi Hj.
  rewrite (Hst _ _ Hi), (Hst _ _ Hj). by apply Hmono.
Qed.

Lemma trades_are_stamped_in_order_witness :
  timestamp_ns (mkTrade 3 2 11 3 1) = tick 1.
Proof.
  assert (add_order tick 3 (mkOrder 3 true MARKET 0 8) book_ask_levels
          = Some ([mkTrade 3 1 10 5 0; mkTrade 3 2 11 3 1],
                  after_add (mkOrder 3 true MARKET 0 8) book_ask_levels))
    as Hadd by (by vm_compute).
  exact (proj1 (trades_are_stamped_in_order tick 3
                  (mkOrder 3 true MARKET 0 8) book_ask_levels _ _ Hadd)
           1 _ eq_refl).
Defined.

(** X6: on every book the public operations build from the empty one
    without 64-bit overflow, the ids of the registry are distinct, every
    resting order is a LIMIT order with a 64-bit quantity, the aggregate of
    each level is the sum of the quantities resting there, a level of a
    ladder is carried by at least one resting order, and a ladder and its
    count map have the same prices. *)
Theorem reachable_book_agrees b :
  reachable b →
  NoDup (orders b).*1
  ∧ Forall (λ ko, order_type ko.2 = LIMIT ∧ (quantity ko.2 < two64)%N)
           (orders b)
  ∧ ∀ s p,
      ladder_at (side_ladder s b) p = level_qty s p (orders b)
      ∧ (is_Some (side_ladder s b !! p) → level_orders s p (orders b) ≠ [])
      ∧ (is_Some (side_ladder s b !! p) ↔ is_Some (side_counts s b !! p)).
Proof.
  intros Hr. pose proof (reachable_consistent b Hr) as Hc.
  destruct Hc as [Hnd Hval Hlev]. split_and!; [done|done|].
  intros s p. destruct (Hlev s p) as [Htr Hne]. split_and!; [|done|].
  - by apply consistent_ladder_at.
  - revert Htr. unfold level_tracks.
    destruct (side_ladder s b !! p); [intros (_ & _ & Hc)|intros (_ & ->)].
    + by split.
    + split; by intros [? ?].
Qed.

Lemma reachable_book_agrees_witness :
  reachable book_spread
  ∧ ladder_at (side_ladder false book_spread) 12
    = level_qty false 12 (orders book_spread).
Proof.
  split; [apply book_spread_reachable|].
  apply (proj2 (proj2 (reachable_book_agrees book_spread
                         book_spread_reachable)) false 12%Z).
Defined.

Lemma sum_quantity_positive l :
  positive_resting l → l ≠ [] → (0 < sum_quantity l)%N.
Proof.
  intros Hpos Hne. destruct Hpos as [|ko l Hko _]; [done|]. simpl. lia.
Qed.

Lemma level_orders_positive s p l :
  positive_resting l → positive_resting (level_orders s p l).
Proof.
  unfold positive_resting, level_orders. rewrite !Forall_forall.
  intros Hl ko Hin. apply list_elem_of_filter in Hin as [_ Hin]. auto.
Qed.

Lemma consistent_positive_levels b :
  consistent b → positive_resting (orders b) → positive_levels b.
Proof.
  intros [_ _ Hlev] Hpos s p. destruct (Hlev s p) as [Htr Hne].
  pose proof (sum_quantity_positive _ (level_orders_positive s p _ Hpos))
    as Hsum.
  fold (level_qty s p (orders b)) in Hsum.
  revert Htr. unfold level_tracks.
  destruct (side_ladder s b !! p) as [a|] eqn:Ha.
  - intros (-> & _ & _). split; [by split; auto|].
    intros a' [= <-]. apply Hsum. by apply Hne.
  - intros (Hz & _). split; [|done]. split; [by intros [? ?]|].
    intros Hne'. specialize (Hsum Hne'). lia.
Qed.

Lemma add_order_positive now fuel o b ts b' :
  positive_resting (orders b) →
  add_order now fuel o b = Some (ts, b') → positive_resting (orders b').
Proof.
  intros Hpos Hadd.
  by apply add_order_trades_all in Hadd as (_ & _ & _ & H); auto.
Qed.

Lemma cancel_order_positive id b :
  positive_resting (orders b) →
  positive_resting (orders (cancel_order id b).2).
Proof.
  intros Hpos. unfold cancel_order.
  destruct (orders_find _ _) as [o|]; [|done]. simpl.
  apply orders_erase_Forall.
  destruct (order_type o); [|done].
  change (positive_resting (orders (release_order o b))).
  by destruct (release_order_sides o b) as (-> & _).
Qed.

Lemma amend_order_positive id new_price new_quantity b :
  positive_resting (orders b) → (0 < new_quantity)%N →
  positive_resting (orders (amend_order id new_price new_quantity b).2).
Proof.
  intros Hpos Hq. unfold amend_order.
  destruct (orders_find _ _) as [o|]; [|done].
  destruct (order_type o); [|done].
  destruct (release_order_sides o b) as (Ho & _). rewrite Ho.
  destruct (is_buy o); by apply orders_assign_Forall.
Qed.

(** X7: the operations leave no level without an order and no aggregate
    of 0, a zero quantity given to [amend_order] apart.  On a consistent
    book in which every resting order has a positive quantity, after
    [add_order] of an order its level can hold within 64 bits, after
    [cancel_order], and after [amend_order] with a positive new quantity
    the new level can hold, the levels of each ladder are exactly the
    prices at which an order of that side rests, and every aggregate is
    positive. *)
Theorem levels_are_positive b :
  consistent b → positive_resting (orders b) →
  (∀ now fuel o ts b',
     (level_qty (is_buy o) (price o) (orders b) + quantity o < two64)%N →
     add_order now fuel o b = Some (ts, b') → positive_levels b')
  ∧ (∀ id, positive_levels (cancel_order id b).2)
  ∧ (∀ id new_price new_quantity,
       (0 < new_quantity)%N →
       (∀ o, orders_find id (orders b) = Some o →
             (level_qty_without id (is_buy o) new_price (orders b)
              + new_quantity < two64)%N) →
       positive_levels (amend_order id new_price new_quantity b).2).
Proof.
  intros Hc Hpos. split_and!.
  - intros now fuel o ts b' Hfit Hadd. apply consistent_positive_levels.
    + by eapply add_order_consistent.
    + by eapply add_order_positive.
  - intros id. apply consistent_positive_levels.
    + by apply cancel_order_consistent.
    + by apply cancel_order_positive.
  - intros id new_price new_quantity Hq Hfit.
    apply consistent_positive_levels.
    + by apply amend_order_consistent.
    + by apply amend_order_positive.
Qed.

Lemma levels_are_positive_witness :
  positive_levels (cancel_order 2 book_spread).2
  ∧ positive_levels (amend_order 1 11 4 book_spread).2.
Proof.
  assert (positive_resting (orders book_spread)) as Hpos.
  { replace (orders book_spread)
      with [(1%N, mkOrder 1 true LIMIT 10 5); (2%N, mkOrder 2 false LIMIT 12 5)]
      by (by vm_compute).
    repeat constructor. }
  assert (∀ o, orders_find 1 (orders book_spread) = Some o →
               (level_qty_without 1 (is_buy o) 11 (orders book_spread) + 4
                < two64)%N) as Hfit.
  { intros o Ho.
    assert (o = mkOrder 1 true LIMIT 10 5) as ->
      by (vm_compute in Ho; congruence).
    by vm_compute. }
  pose proof (levels_are_positive book_spread
                (reachable_consistent _ book_spread_reachable) Hpos)
    as (_ & Hcancel & Hamend).
  split; [exact (Hcancel 2%N)|].
  assert (0 < 4)%N as Hq by lia.
  exact (Hamend 1%N 11%Z 4%N Hq Hfit).
Defined.

(** X8: when every resting order has a positive quantity, the same holds
    after [add_order] and after [cancel_order], and after [amend_order]
    with a positive new quantity. *)
Theorem positive_resting_is_kept b :
  positive_resting (orders b) →
  (∀ now fuel o ts b',
     add_order now fuel o b = Some (ts, b') → positive_resting (orders b'))
  ∧ (∀ id, positive_resting (orders (cancel_order id b).2))
  ∧ (∀ id new_price new_quantity,
       (0 < new_quantity)%N →
       positive_resting (orders (amend_order id new_price new_quantity b).2)).
Proof.
  intros Hpos. split_and!.
  - intros now fuel o ts b'. by apply add_order_positive.
  - intros id. by apply cancel_order_positive.
  - intros id p q. by apply amend_order_positive.
Qed.

Lemma ladder_entries_strict desc (m : gmap Z N) :
  StronglySorted (λ x y : Z * N, price_strictly_before desc x.1 y.1)
                 (ladder_entries desc m).
Proof.
  assert (NoDup (ladder_entries desc m).*1) as Hnd.
  { unfold ladder_entries. rewrite merge_sort_Permutation.
    apply NoDup_fst_map_to_list. }
  assert (StronglySorted (key_before desc) (ladder_entries desc m)) as Hs
    by (apply StronglySorted_merge_sort; apply _).
  induction Hs as [|x l Hl IH Hx]; [constructor|].
  rewrite fmap_cons in Hnd. apply NoDup_cons in Hnd as [Hnotin Hnd].
  constructor; [by apply IH|].
  rewrite Forall_forall in Hx. apply Forall_forall. intros y Hy.
  specialize (Hx y Hy). unfold key_before in Hx.
  assert (y.1 ≠ x.1).
  { intros Heq. apply Hnotin. rewrite <- Heq. apply list_elem_of_fmap. eauto. }
  unfold price_strictly_before. destruct desc; lia.
Qed.

Lemma StronglySorted_take {A} (R : relation A) n (l : list A) :
  StronglySorted R l → StronglySorted R (take n l).
Proof.
  intros Hs. rewrite <- (take_drop n l) in Hs.
  by apply StronglySorted_app_1_l in Hs.
Qed.

(** What a side of a snapshot is made of. *)
Lemma snapshot_side_Some depth desc (lad cnt : gmap Z N) out :
  snapshot_side depth desc lad cnt = Some out →
  (λ l, (level_price l, total_quantity l)) <$> out
    = take depth (ladder_entries desc lad)
  ∧ Forall (λ l, cnt !! level_price l = Some (order_count l)) out.
Proof.
  unfold snapshot_side. intros Hout%mapM_Some_1.
  induction Hout as [|[p a] y l k Hy _ [IH1 IH2]]; [done|].
  apply fmap_Some in Hy as (c & Hc & ->).
  split; [rewrite fmap_cons; by f_equal|]. by constructor.
Qed.

Lemma snapshot_side_sorted depth desc (lad cnt : gmap Z N) out :
  snapshot_side depth desc lad cnt = Some out →
  length out = min depth (size lad)
  ∧ StronglySorted
      (λ l l', price_strictly_before desc (level_price l) (level_price l'))
      out
  ∧ Forall (λ l, lad !! level_price l = Some (total_quantity l)
                 ∧ cnt !! level_price l = Some (order_count l)) out.
Proof.
  intros Hout. destruct (snapshot_side_Some _ _ _ _ _ Hout) as [Heq Hcnt].
  split_and!.
  - rewrite <- (length_fmap (λ l, (level_price l, total_quantity l))), Heq.
    by rewrite length_take, ladder_entries_length.
  - pose proof (StronglySorted_take _ depth _ (ladder_entries_strict desc lad))
      as Hs.
    rewrite <- Heq in Hs. clear Heq Hcnt Hout.
    induction out as [|l out IH]; [constructor|].
    rewrite fmap_cons in Hs. apply StronglySorted_inv in Hs as [Hs Hl].
    constructor; [auto|]. by rewrite Forall_fmap in Hl.
  - rewrite Forall_forall in Hcnt. apply Forall_forall. intros l Hl.
    split; [|auto].
    apply (ladder_entries_elem desc).
    assert ((level_price l, total_quantity l)
            ∈ take depth (ladder_entries desc lad)) as Hin.
    { rewrite <- Heq. apply list_elem_of_fmap. eauto. }
    apply elem_of_take in Hin as (i & Hi & _).
    by eapply list_elem_of_lookup_2.
Qed.

Lemma positive_resting_is_kept_witness :
  positive_resting (orders book_spread)
  ∧ positive_resting (orders (cancel_order 1 book_spread).2).
Proof.
  assert (positive_resting (orders book_spread)) as Hpos.
  { replace (orders book_spread)
      with [(1%N, mkOrder 1 true LIMIT 10 5); (2%N, mkOrder 2 false LIMIT 12 5)]
      by (by vm_compute).
    repeat constructor. }
  split; [exact Hpos|].
  exact (proj1 (proj2 (positive_resting_is_kept book_spread Hpos)) 1%N).
Defined.

(** X9: when [get_snapshot] returns, each side has as many levels as the
    ladder has prices, up to [depth]; the bids come in strictly decreasing
    and the asks in strictly increasing price; each level shows the
    aggregate of the ladder and the count of the count map at its
    price. *)
Theorem get_snapshot_levels depth b bids_out asks_out :
  get_snapshot depth b = Some (bids_out, asks_out) →
  (length bids_out = min depth (size (bids b))
   ∧ StronglySorted (λ l l', (level_price l' < level_price l)%Z) bids_out
   ∧ Forall (λ l, bids b !! level_price l = Some (total_quantity l)
                  ∧ bid_order_counts b !! level_price l
                    = Some (order_count l)) bids_out)
  ∧ (length asks_out = min depth (size (asks b))
     ∧ StronglySorted (λ l l', (level_price l < level_price l')%Z) asks_out
     ∧ Forall (λ l, asks b !! level_price l = Some (total_quantity l)
                    ∧ ask_order_counts b !! level_price l
                      = Some (order_count l)) asks_out).
Proof.
  unfold get_snapshot.
  destruct (snapshot_side depth true _ _) as [bs|] eqn:Hb; [|done].
  destruct (snapshot_side depth false _ _) as [as_|] eqn:Ha; [|done].
  intros ?; simplify_eq.
  split; [by apply snapshot_side_sorted in Hb
         |by apply snapshot_side_sorted in Ha].
Qed.

Lemma get_snapshot_levels_witness :
  length [mkPriceLevel 10 5 1] = min 5 (size (bids book_spread))
  ∧ bids book_spread !! 10%Z = Some 5%N.
Proof.
  assert (get_snapshot 5 book_spread
          = Some ([mkPriceLevel 10 5 1], [mkPriceLevel 12 5 1])) as H
    by (by vm_compute).
  destruct (get_snapshot_levels 5 book_spread _ _ H)
    as [(Hlen & _ & Hall) _].
  split; [exact Hlen|].
  apply Forall_inv in Hall. exact (proj1 Hall).
Defined.

Lemma snapshot_side_None depth desc (lad cnt : gmap Z N) :
  snapshot_side depth desc lad cnt = None ↔
  ∃ p a, (p, a) ∈ take depth (ladder_entries desc lad) ∧ cnt !! p = None.
Proof.
  unfold snapshot_side. rewrite mapM_None, Exists_exists. split.
  - intros ([p a] & Hin & Hnone). apply fmap_None in Hnone. eauto.
  - intros (p & a & Hin & Hnone). exists (p, a). split; [done|].
    simpl. by rewrite Hnone.
Qed.

(** X10: [get_snapshot] throws exactly when, among the first [depth]
    prices of a ladder, one has no entry in the count map of its side. *)
Theorem get_snapshot_throws depth b :
  get_snapshot depth b = None ↔
  (∃ p a, (p, a) ∈ take depth (ladder_entries true (bids b))
          ∧ bid_order_counts b !! p = None)
  ∨ (∃ p a, (p, a) ∈ take depth (ladder_entries false (asks b))
            ∧ ask_order_counts b !! p = None).
Proof.
  unfold get_snapshot. rewrite <- !snapshot_side_None.
  destruct (snapshot_side depth true _ _);
    destruct (snapshot_side depth false _ _);
    (split; [intros ?; (by left) || (by right) || done|intros [?|?]; done]).
Qed.

Lemma get_snapshot_throws_witness :
  ¬ ((∃ p a, (p, a) ∈ take 5 (ladder_entries true (bids book_spread))
             ∧ bid_order_counts book_spread !! p = None)
     ∨ (∃ p a, (p, a) ∈ take 5 (ladder_entries false (asks book_spread))
               ∧ ask_order_counts book_spread !! p = None)).
Proof.
  intros H. apply (proj2 (get_snapshot_throws 5 book_spread)) in H.
  by vm_compute in H.
Defined.

(** X11: on a book built by the public operations without overflow
    [get_snapshot] never throws. *)
Theorem get_snapshot_returns depth b :
  reachable b →
  ∃ bids_out asks_out,
    get_snapshot depth b = Some (bids_out, asks_out)
    ∧ length bids_out = min depth (size (bids b))
    ∧ length asks_out = min depth (size (asks b)).
Proof.
  intros Hc%reachable_consistent. unfold get_snapshot.
  destruct (snapshot_side_levels depth true (bids b) (bid_order_counts b))
    as (bs & -> & Hlb & _).
  { intros p Hp. apply elem_of_dom, (consistent_counts_cover b true Hc).
    by apply elem_of_dom. }
  destruct (snapshot_side_levels depth false (asks b) (ask_order_counts b))
    as (as_ & -> & Hla & _).
  { intros p Hp. apply elem_of_dom, (consistent_counts_cover b false Hc).
    by apply elem_of_dom. }
  by exists bs, as_.
Qed.

Lemma get_snapshot_returns_witness :
  reachable book_spread ∧ is_Some (get_snapshot 1 book_spread).
Proof.
  split; [apply book_spread_reachable|].
  destruct (get_snapshot_returns 1 book_spread book_spread_reachable)
    as (bs & as_ & H & _).
  rewrite H. by eexists.
Defined.

Lemma snapshot_side_head depth desc (lad cnt : gmap Z N) out :
  snapshot_side (S depth) desc lad cnt = Some out →
  level_price <$> head out = ladder_begin desc lad.
Proof.
  intros [Heq _]%snapshot_side_Some. unfold ladder_begin.
  destruct (ladder_entries desc lad) as [|e l]; destruct out as [|x out];
    simplify_eq/=; done.
Qed.

(** X12: on a non-empty ladder [get_best_bid] is the highest bid price
    and [get_best_ask] the lowest ask price, and they are the prices of
    the first levels of any snapshot of depth at least 1. *)
Theorem best_prices_are_extremal b :
  (bids b ≠ ∅ →
   is_Some (bids b !! get_best_bid b)
   ∧ ∀ p, is_Some (bids b !! p) → (p ≤ get_best_bid b)%Z)
  ∧ (asks b ≠ ∅ →
     is_Some (asks b !! get_best_ask b)
     ∧ ∀ p, is_Some (asks b !! p) → (get_best_ask b ≤ p)%Z)
  ∧ (∀ depth bids_out asks_out,
       get_snapshot (S depth) b = Some (bids_out, asks_out) →
       (bids b ≠ ∅ → level_price <$> head bids_out = Some (get_best_bid b))
       ∧ (asks b ≠ ∅ →
          level_price <$> head asks_out = Some (get_best_ask b))).
Proof.
  assert (∀ desc m, m ≠ ∅ → ∃ p, ladder_begin desc m = Some p) as Hsome.
  { intros desc m Hne. destruct (ladder_begin desc m) eqn:E; [eauto|].
    by apply ladder_begin_None in E. }
  split_and!.
  - intros Hne. unfold get_best_bid.
    destruct (Hsome true _ Hne) as [p Hp]. rewrite Hp.
    by apply ladder_begin_Some in Hp.
  - intros Hne. unfold get_best_ask.
    destruct (Hsome false _ Hne) as [p Hp]. rewrite Hp.
    by apply ladder_begin_Some in Hp.
  - intros depth bs as_. unfold get_snapshot, get_best_bid, get_best_ask.
    destruct (snapshot_side (S depth) true _ _) as [bs'|] eqn:Hb; [|done].
    destruct (snapshot_side (S depth) false _ _) as [as'|] eqn:Ha; [|done].
    intros ?; simplify_eq.
    apply snapshot_side_head in Hb, Ha. rewrite Hb, Ha. split.
    + intros Hne. by destruct (Hsome true _ Hne) as [p ->].
    + intros Hne. by destruct (Hsome false _ Hne) as [p ->].
Qed.

Lemma best_prices_are_extremal_witness :
  is_Some (bids book_spread !! get_best_bid book_spread)
  ∧ ∀ p, is_Some (bids book_spread !! p) → (p ≤ get_best_bid book_spread)%Z.
Proof.
  assert (bids book_spread ≠ ∅) as Hne.
  { intros H. apply (f_equal (λ m : gmap Z N, m !! 10%Z)) in H.
    by vm_compute in H. }
  exact (proj1 (best_prices_are_extremal book_spread) Hne).
Defined.

Lemma orders_find_erase id id' (l : list (N * Order)) :
  orders_find id' (orders_erase id l)
  = if decide (id' = id) then None else orders_find id' l.
Proof.
  induction l as [|[k o] l IH]; simpl; [by case_decide|].
  destruct (N.eqb_spec k id) as [->|Hk]; simpl.
  - rewrite IH. case_decide as Hid; [done|].
    by destruct (N.eqb_spec id id').
  - rewrite IH. destruct (N.eqb_spec k id') as [->|Hk'].
    + by rewrite decide_False.
    + done.
Qed.

Lemma orders_find_assign_other id id' o (l : list (N * Order)) :
  id' ≠ id → orders_find id' (orders_assign id o l) = orders_find id' l.
Proof.
  intros Hne. induction l as [|[k o'] l IH]; simpl.
  - by destruct (N.eqb_spec id id').
  - destruct (N.eqb_spec k id) as [->|Hk]; simpl.
    + by destruct (N.eqb_spec id id').
    + by rewrite IH.
Qed.

(** X13: [cancel_order] of a registered id returns [true]; the id is
    then unknown, the other ids keep their orders, a second cancellation
    returns [false] and changes nothing; the ladder and the counts of the
    other side are untouched, and so are the levels of the order's own
    side at every price but its own. *)
Theorem cancel_order_removes id o b :
  orders_find id (orders b) = Some o →
  ∃ b',
    cancel_order id b = (true, b')
    ∧ order_exists id b' = false
    ∧ (∀ id', id' ≠ id →
              orders_find id' (orders b') = orders_find id' (orders b))
    ∧ cancel_order id b' = (false, b')
    ∧ side_ladder (negb (is_buy o)) b' = side_ladder (negb (is_buy o)) b
    ∧ side_counts (negb (is_buy o)) b' = side_counts (negb (is_buy o)) b
    ∧ (∀ p, p ≠ price o →
            side_ladder (is_buy o) b' !! p = side_ladder (is_buy o) b !! p
            ∧ side_counts (is_buy o) b' !! p
              = side_counts (is_buy o) b !! p).
Proof.
  intros Hfind. eexists. split; [unfold cancel_order; by rewrite Hfind|].
  set (b1 := match order_type o with
             | LIMIT => update_max_quantities (release_order o b)
             | MARKET => b
             end).
  assert (orders b1 = orders b) as Hord.
  { subst b1. destruct (order_type o); [|done].
    destruct (release_order_sides o b) as (H & _). exact H. }
  assert (orders_find id (orders_erase id (orders b1)) = None) as Hgone
    by (by rewrite orders_find_erase, decide_True).
  split_and!.
  - by apply order_exists_false.
  - intros id' Hne. simpl. by rewrite orders_find_erase, decide_False, Hord.
  - unfold cancel_order. simpl. by rewrite Hgone.
  - subst b1. destruct (order_type o); [|by destruct (is_buy o)].
    destruct (release_order_sides o b) as (_ & _ & Hl & _).
    rewrite <- Hl. by destruct (is_buy o).
  - subst b1. destruct (order_type o); [|by destruct (is_buy o)].
    destruct (release_order_sides o b) as (_ & _ & _ & Hc).
    rewrite <- Hc. by destruct (is_buy o).
  - intros p Hp. subst b1. destruct (order_type o);
      [|by destruct (is_buy o)].
    destruct (release_order_sides o b) as (_ & Hrel & _).
    destruct (release_frame _ _ _ _ _ _ p Hrel Hp) as [Hl Hc].
    rewrite <- Hl, <- Hc. by destruct (is_buy o).
Qed.

Lemma cancel_order_removes_witness :
  order_exists 1 (cancel_order 1 book_spread).2 = false
  ∧ asks (cancel_order 1 book_spread).2 = asks book_spread.
Proof.
  assert (orders_find 1 (orders book_spread)
          = Some (mkOrder 1 true LIMIT 10 5)) as Hfind by (by vm_compute).
  destruct (cancel_order_removes 1 _ book_spread Hfind)
    as (b' & Hc & Hgone & _ & _ & Hasks & _).
  rewrite Hc. split; [exact Hgone|exact Hasks].
Defined.

(** X14: [amend_order] of a registered id returns [true].  For a MARKET
    order the book is unchanged.  For a LIMIT order the registry keeps its
    ids, the order keeps id, side and type and takes the new price and
    quantity, the other orders are unchanged, the other side of the book
    is untouched and the order's own ladder changes at most at the old and
    at the new price. *)
Theorem amend_order_replaces id o new_price new_quantity b :
  orders_find id (orders b) = Some o →
  match order_type o with
  | MARKET => amend_order id new_price new_quantity b = (true, b)
  | LIMIT =>
      ∃ b',
        amend_order id new_price new_quantity b = (true, b')
        ∧ (orders b').*1 = (orders b).*1
        ∧ orders_find id (orders b')
          = Some (set_terms o new_price new_quantity)
        ∧ (∀ id', id' ≠ id →
                  orders_find id' (orders b') = orders_find id' (orders b))
        ∧ side_ladder (negb (is_buy o)) b' = side_ladder (negb (is_buy o)) b
        ∧ side_counts (negb (is_buy o)) b' = side_counts (negb (is_buy o)) b
        ∧ (∀ p, p ≠ price o → p ≠ new_price →
                side_ladder (is_buy o) b' !! p
                = side_ladder (is_buy o) b !! p)
  end.
Proof.
  intros Hfind. unfold amend_order. rewrite Hfind.
  destruct (order_type o); [|done].
  eexists. split; [done|].
  destruct (release_order_sides o b) as (Hord & Hrel & Hl & Hc).
  set (b1 := release_order o b) in *.
  set (l := orders_assign id (set_terms o new_price new_quantity) (orders b1)).
  split_and!.
  - destruct (is_buy o); simpl; subst l; rewrite Hord;
      by eapply orders_assign_keys.
  - destruct (is_buy o); simpl; apply orders_find_assign.
  - intros id' Hne.
    destruct (is_buy o); simpl; subst l;
      by rewrite orders_find_assign_other, Hord.
  - rewrite <- Hl. by destruct (is_buy o).
  - rewrite <- Hc. by destruct (is_buy o).
  - intros p Hp Hp'.
    destruct (release_frame _ _ _ _ _ _ p Hrel Hp) as [Hl' _].
    rewrite <- Hl'.
    destruct (is_buy o); simpl; by rewrite ladder_add_frame.
Qed.

Lemma amend_order_replaces_witness :
  orders_find 1 (orders (amend_order 1 13 5 book_spread).2)
    = Some (mkOrder 1 true LIMIT 13 5)
  ∧ asks (amend_order 1 13 5 book_spread).2 = asks book_spread.
Proof.
  assert (orders_find 1 (orders book_spread)
          = Some (mkOrder 1 true LIMIT 10 5)) as Hfind by (by vm_compute).
  destruct (amend_order_replaces 1 _ 13 5 book_spread Hfind)
    as (b' & Ha & _ & Hnew & _ & Hasks & _).
  rewrite Ha. split; [exact Hnew|exact Hasks].
Defined.

Lemma level_qty_middle s p l1 k o l2 :
  level_qty s p (l1 ++ (k, o) :: l2)
  = (level_qty s p (l1 ++ l2) + if at_level s p o then quantity o else 0)%N.
Proof.
  rewrite !level_qty_app, level_qty_cons. destruct (at_level s p o); lia.
Qed.

(** X15: on a consistent book [cancel_order] of a registered order keeps
    the book consistent and takes the order's quantity from the aggregate
    of its level, leaving every other aggregate as it was. *)
Theorem cancel_order_releases_quantity id o b :
  consistent b →
  orders_find id (orders b) = Some o →
  consistent (cancel_order id b).2
  ∧ ∀ s p,
      (ladder_at (side_ladder s (cancel_order id b).2) p
       + if at_level s p o then quantity o else 0)%N
      = ladder_at (side_ladder s b) p.
Proof.
  intros Hc Hfind.
  pose proof (cancel_order_consistent id b Hc) as Hc'.
  split; [done|]. intros s p.
  rewrite !consistent_ladder_at by done.
  destruct (orders_split _ _ _ Hfind) as (l1 & l2 & Hord & Herase & _).
  specialize (Herase (cons_nodup _ Hc)).
  assert (orders (cancel_order id b).2 = l1 ++ l2) as ->.
  { unfold cancel_order. rewrite Hfind. simpl. rewrite <- Herase. f_equal.
    rewrite (resting_is_limit _ _ _ Hc Hfind).
    destruct (release_order_sides o b) as (H & _). exact H. }
  by rewrite Hord, level_qty_middle.
Qed.

Lemma cancel_order_releases_quantity_witness :
  (ladder_at (side_ladder true (cancel_order 1 book_spread).2) 10 + 5)%N
  = ladder_at (side_ladder true book_spread) 10.
Proof.
  assert (orders_find 1 (orders book_spread)
          = Some (mkOrder 1 true LIMIT 10 5)) as Hfind by (by vm_compute).
  exact (proj2 (cancel_order_releases_quantity 1 _ book_spread
                  (reachable_consistent _ book_spread_reachable) Hfind)
           true 10%Z).
Defined.

(** X16: on a consistent book [amend_order] of a registered order, when
    the new level can hold the new quantity within 64 bits, keeps the book
    consistent: the old quantity leaves the aggregate of the old level and
    the new quantity joins that of the new level, every other aggregate
    staying as it was. *)
Theorem amend_order_moves_quantity id o new_price new_quantity b :
  consistent b →
  orders_find id (orders b) = Some o →
  (level_qty_without id (is_buy o) new_price (orders b) + new_quantity
   < two64)%N →
  consistent (amend_order id new_price new_quantity b).2
  ∧ ∀ s p,
      (ladder_at (side_ladder s (amend_order id new_price new_quantity b).2) p
       + if at_level s p o then quantity o else 0)%N
      = (ladder_at (side_ladder s b) p
         + if at_level s p (set_terms o new_price new_quantity)
           then new_quantity else 0)%N.
Proof.
  intros Hc Hfind Hfit.
  assert (consistent (amend_order id new_price new_quantity b).2) as Hc'.
  { apply amend_order_consistent; [done|]. intros o' Ho'. by simplify_eq. }
  split; [done|]. intros s p.
  rewrite !consistent_ladder_at by done.
  destruct (orders_split _ _ _ Hfind) as (l1 & l2 & Hord & _ & Hassign).
  assert (orders (amend_order id new_price new_quantity b).2
          = l1 ++ (id, set_terms o new_price new_quantity) :: l2) as ->.
  { unfold amend_order. rewrite Hfind, (resting_is_limit _ _ _ Hc Hfind).
    destruct (release_order_sides o b) as (H & _).
    destruct (is_buy o); simpl; by rewrite H, Hassign. }
  rewrite Hord, !level_qty_middle. simpl. lia.
Qed.

Lemma amend_order_moves_quantity_witness :
  (ladder_at (side_ladder true (amend_order 1 13 8 book_spread).2) 13 + 0)%N
  = (ladder_at (side_ladder true book_spread) 13 + 8)%N.
Proof.
  assert (orders_find 1 (orders book_spread)
          = Some (mkOrder 1 true LIMIT 10 5)) as Hfind by (by vm_compute).
  assert (level_qty_without 1 true 13 (orders book_spread) + 8 < two64)%N
    as Hfit by (by vm_compute).
  exact (proj2 (amend_order_moves_quantity 1 _ 13 8 book_spread
                  (reachable_consistent _ book_spread_reachable) Hfind Hfit)
           true 13%Z).
Defined.

Section Stale.

Variable now : nat → N.

Lemma scan_orders_no_candidate mp l st :
  Forall (λ ko, candidate (incoming st) mp ko.2 = false) l →
  scan_orders now mp l st = (l, st).
Proof.
  induction 1 as [|[k o] l Hk _ IH]; [done|].
  rewrite scan_orders_cons. simpl in Hk. by rewrite Hk, IH.
Qed.

Lemma match_orders_no_candidate inc mp ts b :
  Forall (λ ko, candidate inc mp ko.2 = false) (orders b) →
  ∃ b', match_orders now inc mp ts b = (inc, ts, b')
        ∧ orders b' = orders b
        ∧ ∀ s, side_ladder s b' = side_ladder s b.
Proof.
  intros Hno. rewrite match_orders_unfold. cbv zeta.
  rewrite scan_orders_no_candidate by done. simpl.
  eexists. split; [done|].
  split; [by destruct (is_buy inc)|].
  intros s. by destruct s, (is_buy inc).
Qed.

(** X17: when the best contra price is one the incoming order crosses
    and no resting order is a candidate at that price, [match_orders]
    changes nothing and the loop of [add_order] runs for ever: the call
    returns for no amount of fuel. *)
Theorem stale_level_blocks_add_order o b best :
  orders_find (order_id o) (orders b) = None →
  (0 < quantity o)%N →
  contra_begin o b = Some best →
  crosses o best = true →
  Forall (λ ko, candidate o best ko.2 = false) (orders b) →
  ∀ fuel, add_order now fuel o b = None.
Proof.
  intros Hfresh Hq Hbest Hx Hno fuel.
  assert (∀ ts, match_loop now fuel o ts b = None) as Hloop.
  { clear Hfresh. revert b Hbest Hno.
    induction fuel as [|fuel IH]; intros b Hbest Hno ts;
      rewrite match_loop_unfold, Hbest, Hx;
      apply N.ltb_lt in Hq; rewrite Hq; [done|].
    destruct (match_orders_no_candidate o best ts b Hno)
      as (b' & -> & Hord & Hlad).
    apply IH.
    - rewrite contra_begin_ladder in *. by rewrite Hlad.
    - by rewrite Hord. }
  unfold add_order. rewrite add_order_residual_unfold, Hfresh.
  destruct (order_type o); by rewrite Hloop.
Qed.

End Stale.

Lemma stale_level_blocks_add_order_witness :
  add_order tick 1000 (mkOrder 9 false MARKET 0 1) book_stale = None.
Proof.
  apply (stale_level_blocks_add_order tick (mkOrder 9 false MARKET 0 1)
           book_stale 10).
  - by vm_compute.
  - by vm_compute.
  - by vm_compute.
  - reflexivity.
  - replace (orders book_stale) with (@nil (N * Order)) by (by vm_compute).
    constructor.
Defined.

Lemma side_qty_filter_zero s (F : N * Order → Prop) `{∀ x, Decision (F x)} l :
  (∀ ko, ko ∈ l → ¬ F ko → quantity ko.2 = 0%N) →
  side_qty s (filter F l) = side_qty s l.
Proof.
  induction l as [|[k o] l IH]; intros Hall; [done|].
  rewrite filter_cons. case_decide as HF.
  - rewrite !side_qty_cons, IH; [done|].
    intros ko Hin. apply Hall. by right.
  - rewrite side_qty_cons, IH.
    + case_bool_decide; [|done].
      assert (quantity o = 0%N) as -> by (apply (Hall (k, o)); [left|done]).
      done.
    + intros ko Hin. apply Hall. by right.
Qed.

Lemma side_qty_app s l l' :
  side_qty s (l ++ l') = (side_qty s l + side_qty s l')%N.
Proof. unfold side_qty. by rewrite filter_app, sum_quantity_app. Qed.

Section Conservation.

Variable now : nat → N.

Lemma scan_orders_drain_exact s mp l st l' st' :
  scan_orders now mp l st = (l', st') →
  is_buy (incoming st) = negb s →
  (quantity (incoming st) < two64)%N →
  Forall valid_resting l →
  (quantity (incoming st) + side_qty s l'
   = quantity (incoming st') + side_qty s l)%N.
Proof.
  revert l st l' st'. apply (scan_orders_run now mp
    (λ l st l' st',
       is_buy (incoming st) = negb s → (quantity (incoming st) < two64)%N →
       Forall valid_resting l →
       (quantity (incoming st) + side_qty s l'
        = quantity (incoming st') + side_qty s l)%N)).
  - intros; lia.
  - intros k o l st l' st' _ _ IH Hside Hlt [_ Hval]%Forall_cons.
    specialize (IH Hside Hlt Hval).
    rewrite !side_qty_cons. case_bool_decide; lia.
  - intros k o l st o' st1 Hcand _ Hfill _ Hside Hlt [[_ Ho] _]%Forall_cons.
    apply fill_effect in Hfill as (-> & -> & _). simpl in *.
    rewrite !side_qty_cons. simpl.
    apply candidate_at_level in Hcand. unfold at_level in Hcand.
    apply andb_true_iff in Hcand as [Hs%bool_decide_eq_true _].
    rewrite Hside, negb_involutive in Hs.
    rewrite bool_decide_eq_true_2 by done.
    rewrite !sub64_exact by lia. lia.
  - intros k o l st o' st1 l' st' Hcand _ Hfill _ _ IH Hside Hlt
      [[_ Ho] Hval]%Forall_cons.
    apply fill_effect in Hfill as (-> & Hi1 & _). simpl in *.
    rewrite Hi1 in IH. simpl in IH.
    rewrite sub64_exact in IH by lia. specialize (IH Hside).
    rewrite !side_qty_cons. simpl.
    apply candidate_at_level in Hcand. unfold at_level in Hcand.
    apply andb_true_iff in Hcand as [Hs%bool_decide_eq_true _].
    rewrite Hside, negb_involutive in Hs.
    rewrite bool_decide_eq_true_2 by done.
    rewrite sub64_exact by lia.
    assert (quantity (incoming st)
            - N.min (quantity (incoming st)) (quantity o) < two64)%N by lia.
    specialize (IH H Hval). lia.
Qed.

Lemma match_orders_conserves inc mp ts b inc' ts' b' :
  consistent b →
  (0 < quantity inc < two64)%N →
  is_Some (side_ladder (negb (is_buy inc)) b !! mp) →
  match_orders now inc mp ts b = (inc', ts', b') →
  (quantity inc + side_qty (negb (is_buy inc)) (orders b')
   = quantity inc' + side_qty (negb (is_buy inc)) (orders b))%N.
Proof.
  intros [Hnd Hval Hlev] Hq Hmp. rewrite match_orders_unfold. cbv zeta.
  set (s := negb (is_buy inc)) in *.
  destruct (scan_orders now mp (orders b) _) as [l st] eqn:Hscan.
  intros Hm. simpl in Hm.
  pose proof (scan_orders_drain_exact s _ _ _ _ _ Hscan) as Hex.
  destruct (Hlev s mp) as [Htr _].
  eapply (scan_orders_tracks now s) in Hscan
    as (rm & Hrm & Hzero & _); try done;
    [|subst s; simpl; by rewrite negb_involutive].
  simpl in Hrm, Hex.
  assert (inc' = incoming st
          ∧ orders b' = erase_all (orders_to_remove st) l) as [-> ->].
  { destruct (is_buy inc); by simplify_eq. }
  rewrite Hrm, erase_all_filter, side_qty_filter_zero.
  - apply Hex; [subst s; by rewrite negb_involutive|lia|done].
  - intros ko Hko Hnot. apply dec_stable in Hnot. by apply Hzero.
Qed.

Lemma match_loop_conserves fuel o ts b o' ts' b' :
  match_loop now fuel o ts b = Some (o', ts', b') →
  consistent b → (quantity o < two64)%N →
  (quantity o + side_qty (negb (is_buy o)) (orders b')
   = quantity o' + side_qty (negb (is_buy o)) (orders b))%N.
Proof.
  revert o ts b. induction fuel as [|fuel IH]; intros o ts b;
    rewrite match_loop_unfold.
  all: destruct (N.ltb_spec 0 (quantity o)) as [Hpos|Hz];
    [|by intros; simplify_eq].
  all: destruct (contra_begin o b) as [best|] eqn:Hbest;
    [|by intros; simplify_eq].
  all: destruct (crosses o best); [|by intros; simplify_eq].
  - done.
  - destruct (match_orders now o best ts b) as [[o1 ts1] b1] eqn:Hm.
    intros Hloop Hc Hq.
    pose proof (match_orders_effect now _ _ _ _ _ _ _ Hm)
      as (Ho1 & _ & _ & _ & _ & _ & Ht).
    destruct (Ht Hq) as (new & _ & Hsum).
    rewrite contra_begin_ladder in Hbest.
    apply ladder_begin_Some in Hbest as [Hbest _].
    pose proof (match_orders_conserves _ _ _ _ _ _ _ Hc
                  (conj Hpos Hq) Hbest Hm) as Hcons.
    apply match_orders_consistent in Hm as (Hc1 & _ & _);
      [|done|lia|done].
    assert (is_buy o1 = is_buy o) as Hside by (by rewrite Ho1).
    apply IH in Hloop; [|done|lia]. rewrite Hside in Hloop. lia.
Qed.

(** X18: on a consistent book, for an order with a fresh id whose own
    level can hold it within 64 bits, the total the contra ladder shows
    falls by exactly the traded quantity, and the total of the order's own
    ladder grows by the residual of a LIMIT order and not at all for a
    MARKET order. *)
Theorem book_quantity_is_conserved fuel o b r ts b' :
  consistent b →
  order_exists (order_id o) b = false →
  (level_qty (is_buy o) (price o) (orders b) + quantity o < two64)%N →
  add_order_residual now fuel o b = Some (r, ts, b') →
  (ladder_total (side_ladder (negb (is_buy o)) b') + traded ts)%N
    = ladder_total (side_ladder (negb (is_buy o)) b)
  ∧ ladder_total (side_ladder (is_buy o) b')
    = (ladder_total (side_ladder (is_buy o) b)
       + match order_type o with LIMIT => quantity r | MARKET => 0 end)%N.
Proof.
  intros Hc Hfresh%order_exists_false Hfit Hrun.
  assert (consistent b') as Hc'.
  { eapply (add_order_consistent now fuel o b ts b'); [done|done|].
    unfold add_order. by rewrite Hrun. }
  rewrite !consistent_ladder_total by done.
  revert Hrun. rewrite add_order_residual_unfold, Hfresh.
  destruct (match_loop now fuel o [] b) as [[[o1 ts1] b1]|] eqn:Hloop;
    [|by destruct (order_type o)].
  assert (quantity o < two64)%N as Hq by lia.
  pose proof (match_loop_conserves _ _ _ _ _ _ _ Hloop Hc Hq) as Hcons.
  pose proof (match_loop_consistent now _ _ _ _ _ _ _ Hloop Hc Hq)
    as [Hc1 _].
  pose proof (match_loop_effect now _ _ _ _ _ _ _ Hloop)
    as (Ho1 & Hown & _ & _ & Hkeys & Ht & _).
  destruct (Ht Hq) as (new & Hnew & Hsum). simpl in Hnew. subst ts1.
  assert (side_qty (is_buy o) (orders b1) = side_qty (is_buy o) (orders b))
    as Hsame.
  { rewrite <- !consistent_ladder_total by done. by rewrite Hown. }
  assert (is_buy o1 = is_buy o) as Hside by (by rewrite Ho1).
  destruct (order_type o) eqn:Hty; intros; simplify_eq/=.
  - destruct (N.ltb_spec 0 (quantity r)) as [Hpos|Hz].
    + destruct (rest_order_sides r b1 Hpos) as (Hord & _).
      rewrite Hord, orders_assign_fresh.
      * rewrite !side_qty_app, !side_qty_cons. simpl.
        rewrite (bool_decide_eq_true_2 (is_buy r = is_buy o)) by done.
        rewrite (bool_decide_eq_false_2 (is_buy r = negb (is_buy o)))
          by (rewrite Hside; by destruct (is_buy o)).
        change (side_qty (negb (is_buy o)) []) with 0%N.
        change (side_qty (is_buy o) []) with 0%N. lia.
      * assert (order_id r = order_id o) as -> by (by rewrite Ho1).
        intros Hin. apply orders_find_None in Hfresh. by apply Hfresh, Hkeys.
    + assert (quantity r = 0%N) as Hr by lia.
      unfold rest_order. apply N.ltb_ge in Hz. rewrite Hz. lia.
  - lia.
Qed.

End Conservation.

Lemma book_quantity_is_conserved_witness :
  (ladder_total
     (side_ladder false (after_add (mkOrder 3 true LIMIT 12 7) book_spread))
   + traded [mkTrade 3 2 12 5 0])%N
  = ladder_total (side_ladder false book_spread).
Proof.
  assert (order_exists 3 book_spread = false) as Hfresh by (by vm_compute).
  assert (level_qty true 12 (orders book_spread) + 7 < two64)%N as Hfit
    by (by vm_compute).
  assert (add_order_residual tick 3 (mkOrder 3 true LIMIT 12 7) book_spread
          = Some (mkOrder 3 true LIMIT 12 2, [mkTrade 3 2 12 5 0],
                  after_add (mkOrder 3 true LIMIT 12 7) book_spread))
    as Hrun by (by vm_compute).
  exact (proj1 (book_quantity_is_conserved tick 3
                  (mkOrder 3 true LIMIT 12 7) book_spread _ _ _
                  (reachable_consistent _ book_spread_reachable)
                  Hfresh Hfit Hrun)).
Defined.

Lemma traded_at_app p ts ts' :
  traded_at p (ts ++ ts') = (traded_at p ts + traded_at p ts')%N.
Proof. unfold traded_at. by rewrite filter_app, traded_app. Qed.

Lemma traded_at_price p mp ts :
  Forall (λ t, trade_price t = mp) ts →
  traded_at p ts = if bool_decide (p = mp) then traded ts else 0%N.
Proof.
  unfold traded_at. induction 1 as [|t ts Ht _ IH]; [by case_bool_decide|].
  rewrite filter_cons. destruct (decide (trade_price t = p)) as [Hp|Hp].
  - change (traded (t :: ?l)) with (trade_quantity t + traded l)%N.
    rewrite IH. rewrite Ht in Hp. subst p.
    by rewrite bool_decide_eq_true_2.
  - rewrite IH. rewrite Ht in Hp. by rewrite !bool_decide_eq_false_2.
Qed.

Lemma side_ladder_rest_order s r b :
  side_ladder s (rest_order r b)
  = if (0 <? quantity r)%N && bool_decide (is_buy r = s)
    then ladder_add (price r) (quantity r) (side_ladder s b)
    else side_ladder s b.
Proof.
  unfold rest_order. destruct (0 <? quantity r)%N; [|done].
  by destruct (is_buy r), s.
Qed.

Section Level.

Variable now : nat → N.

(** A scan takes from the level as much as the incoming order can take. *)
Lemma scan_orders_level s mp l st l' st' :
  scan_orders now mp l st = (l', st') →
  is_buy (incoming st) = negb s →
  (quantity (incoming st) < two64)%N →
  Forall valid_resting l →
  (quantity (incoming st) + level_qty s mp l'
   = quantity (incoming st') + level_qty s mp l)%N
  ∧ (quantity (incoming st') ≤ quantity (incoming st))%N
  ∧ (quantity (incoming st') = 0%N ∨ level_qty s mp l' = 0%N).
Proof.
  revert l st l' st'. apply (scan_orders_run now mp
    (λ l st l' st',
       is_buy (incoming st) = negb s → (quantity (incoming st) < two64)%N →
       Forall valid_resting l →
       (quantity (incoming st) + level_qty s mp l'
        = quantity (incoming st') + level_qty s mp l)%N
       ∧ (quantity (incoming st') ≤ quantity (incoming st))%N
       ∧ (quantity (incoming st') = 0%N ∨ level_qty s mp l' = 0%N))).
  - intros st _ _ _. split_and!; [lia|lia|by right].
  - intros k o l st l' st' Hguard _ IH Hside Hlt [Ho Hval]%Forall_cons.
    destruct (IH Hside Hlt Hval) as (Heq & Hle & Hz).
    rewrite !level_qty_cons.
    apply andb_false_iff in Hguard as [Hc|Hq].
    + apply (not_candidate_at_level _ _ (k, o)) in Hc; [|done].
      rewrite Hside, negb_involutive in Hc. simpl in Hc. by rewrite Hc.
    + apply N.ltb_ge in Hq. destruct (at_level s mp o); split_and!; try lia.
  - intros k o l st o' st1 Hcand Hpos Hfill Hz Hside Hlt [[_ Ho] _]%Forall_cons.
    apply fill_effect in Hfill as (-> & Hi1 & _). simpl in *.
    rewrite Hi1 in *. simpl in *.
    rewrite !level_qty_cons. rewrite at_level_set_quantity.
    apply candidate_at_level in Hcand.
    rewrite Hside, negb_involutive in Hcand. rewrite Hcand. simpl.
    rewrite sub64_exact in Hz by lia. rewrite !sub64_exact by lia.
    split_and!; [lia|lia|left; lia].
  - intros k o l st o' st1 l' st' Hcand Hpos Hfill Hnz _ IH Hside Hlt
      [[_ Ho] Hval]%Forall_cons.
    apply fill_effect in Hfill as (-> & Hi1 & _). simpl in *.
    rewrite Hi1 in *. simpl in *.
    rewrite sub64_exact in IH, Hnz by lia.
    assert (quantity (incoming st)
            - N.min (quantity (incoming st)) (quantity o) < two64)%N
      as Hlt1 by lia.
    destruct (IH Hside Hlt1 Hval) as (Heq & Hle & Hz).
    rewrite !level_qty_cons. rewrite at_level_set_quantity.
    apply candidate_at_level in Hcand.
    rewrite Hside, negb_involutive in Hcand. rewrite Hcand. simpl.
    rewrite sub64_exact by lia.
    split_and!; [lia|lia|]. destruct Hz as [Hz|Hz]; [by left|right; lia].
Qed.

(** On a consistent book one call of [match_orders] at a price of the
    contra ladder takes the smaller of the incoming quantity and the
    aggregate of the level, and erases the level it exhausts. *)
Lemma match_orders_level inc mp ts b inc' ts' b' :
  consistent b →
  (0 < quantity inc < two64)%N →
  is_Some (side_ladder (negb (is_buy inc)) b !! mp) →
  match_orders now inc mp ts b = (inc', ts', b') →
  quantity inc'
  = (quantity inc
     - N.min (quantity inc) (ladder_at (side_ladder (negb (is_buy inc)) b) mp))%N
  ∧ side_ladder (negb (is_buy inc)) b'
    = if (ladder_at (side_ladder (negb (is_buy inc)) b) mp <=? quantity inc)%N
      then delete mp (side_ladder (negb (is_buy inc)) b)
      else <[mp := (ladder_at (side_ladder (negb (is_buy inc)) b) mp
                    - quantity inc)%N]>
             (side_ladder (negb (is_buy inc)) b).
Proof.
  intros Hc Hq Hmp Hm.
  pose proof (match_orders_effect now _ _ _ _ _ _ _ Hm)
    as (_ & _ & _ & Hfr & _ & _ & _).
  pose proof (match_orders_consistent now _ _ _ _ _ _ _ Hc Hq Hmp Hm)
    as (Hc' & _ & _).
  set (s := negb (is_buy inc)) in *.
  assert ((quantity inc + level_qty s mp (orders b')
           = quantity inc' + level_qty s mp (orders b))%N
          ∧ (quantity inc' = 0%N ∨ level_qty s mp (orders b') = 0%N)
          ∧ side_ladder s b' !! mp ≠ Some 0%N) as (Heq & Hz & Hnz).
  { destruct Hc as [Hnd Hval Hlev].
    revert Hm. rewrite match_orders_unfold. cbv zeta.
    destruct (scan_orders now mp (orders b) _) as [l st] eqn:Hscan.
    intros Hm. simpl in Hm.
    pose proof (scan_orders_level s _ _ _ _ _ Hscan) as Hex.
    destruct (Hlev s mp) as [Htr Hne].
    eapply (scan_orders_tracks now s) in Hscan
      as (rm & Hrm & Hzero & _ & _ & _ & _ & Hprog); try done;
      [|subst s; simpl; by rewrite negb_involutive].
    simpl in Hrm, Hex.
    assert (inc' = incoming st
            ∧ orders b' = erase_all (orders_to_remove st) l
            ∧ side_ladder s b' = contra st) as (-> & -> & ->).
    { subst s. destruct (is_buy inc); by simplify_eq. }
    rewrite Hrm, erase_all_filter, level_qty_filter_zero.
    - destruct Hex as (Hex1 & _ & Hex2);
        [subst s; by rewrite negb_involutive|lia|done|].
      split_and!; [done|done|].
      destruct Hprog as [[Hnil _]|[Hp _]]; [|done].
      by destruct (Hne Hmp).
    - intros ko Hko Hnot. apply dec_stable in Hnot. by apply Hzero. }
  rewrite <- (consistent_ladder_at b' s mp) in Heq, Hz by done.
  rewrite <- (consistent_ladder_at b s mp) in Heq by done.
  set (a := ladder_at (side_ladder s b) mp) in *.
  set (a' := ladder_at (side_ladder s b') mp) in *.
  split; [lia|].
  apply map_eq. intros p. destruct (decide (p = mp)) as [->|Hp].
  - assert (side_ladder s b' !! mp
            = if (a' =? 0)%N then None else Some a') as ->.
    { subst a'. unfold ladder_at.
      destruct (side_ladder s b' !! mp) as [x|]; simpl; [|done].
      destruct (N.eqb_spec x 0); [by subst|done]. }
    destruct (N.leb_spec a (quantity inc)).
    + rewrite lookup_delete_eq.
      destruct (N.eqb_spec a' 0); [done|lia].
    + rewrite lookup_insert_eq.
      destruct (N.eqb_spec a' 0); [lia|f_equal; lia].
  - rewrite Hfr by done.
    destruct (a <=? quantity inc)%N;
      [by rewrite lookup_delete_ne|by rewrite lookup_insert_ne].
Qed.

(** The matching loop on two consistent books with the same contra
    ladder. *)
Lemma match_loop_ladders fuel o ts1 b1 ts2 b2 o' ts1' b1' :
  consistent b1 → consistent b2 → (quantity o < two64)%N →
  side_ladder (negb (is_buy o)) b1 = side_ladder (negb (is_buy o)) b2 →
  match_loop now fuel o ts1 b1 = Some (o', ts1', b1') →
  ∃ ts2' b2' new1 new2,
    match_loop now fuel o ts2 b2 = Some (o', ts2', b2')
    ∧ side_ladder (negb (is_buy o)) b1' = side_ladder (negb (is_buy o)) b2'
    ∧ ts1' = ts1 ++ new1 ∧ ts2' = ts2 ++ new2
    ∧ ∀ p, traded_at p new1 = traded_at p new2.
Proof.
  revert o ts1 b1 ts2 b2.
  induction fuel as [|fuel IH]; intros o ts1 b1 ts2 b2 Hc1 Hc2 Hq Hlad;
    rewrite !match_loop_unfold, !contra_begin_ladder, <- Hlad.
  all: destruct (N.ltb_spec 0 (quantity o)) as [Hpos|Hz];
    [|intros; simplify_eq; exists ts2, b2, [], [];
      by rewrite !app_nil_r].
  all: destruct (ladder_begin _ _) as [best|] eqn:Hbest;
    [|intros; simplify_eq; exists ts2, b2, [], [];
      by rewrite !app_nil_r].
  all: destruct (crosses o best) eqn:Hx;
    [|intros; simplify_eq; exists ts2, b2, [], [];
      by rewrite !app_nil_r].
  - done.
  - destruct (match_orders now o best ts1 b1) as [[o1 ts11] b11] eqn:Hm1.
    destruct (match_orders now o best ts2 b2) as [[o2 ts21] b21] eqn:Hm2.
    intros Hloop.
    apply ladder_begin_Some in Hbest as [Hin1 _].
    assert (is_Some (side_ladder (negb (is_buy o)) b2 !! best)) as Hin2
      by (by rewrite <- Hlad).
    pose proof (match_orders_level _ _ _ _ _ _ _ Hc1 (conj Hpos Hq) Hin1 Hm1)
      as [Hq1 Hl1].
    pose proof (match_orders_level _ _ _ _ _ _ _ Hc2 (conj Hpos Hq) Hin2 Hm2)
      as [Hq2 Hl2].
    pose proof (match_orders_consistent now _ _ _ _ _ _ _ Hc1
                  (conj Hpos Hq) Hin1 Hm1) as (Hc11 & _ & _).
    pose proof (match_orders_consistent now _ _ _ _ _ _ _ Hc2
                  (conj Hpos Hq) Hin2 Hm2) as (Hc21 & _ & _).
    pose proof (match_orders_effect now _ _ _ _ _ _ _ Hm1)
      as (Ho1 & _ & _ & _ & _ & _ & Ht1).
    pose proof (match_orders_effect now _ _ _ _ _ _ _ Hm2)
      as (Ho2 & _ & _ & _ & _ & _ & Ht2).
    destruct (Ht1 Hq) as (n1 & Hn1 & Hs1).
    destruct (Ht2 Hq) as (n2 & Hn2 & Hs2).
    apply match_orders_trades in Hm1 as (n1' & Hn1' & Hof1 & _).
    apply match_orders_trades in Hm2 as (n2' & Hn2' & Hof2 & _).
    assert (n1' = n1) as -> by (rewrite Hn1 in Hn1'; by apply app_inv_head in Hn1').
    assert (n2' = n2) as -> by (rewrite Hn2 in Hn2'; by apply app_inv_head in Hn2').
    rewrite <- Hlad in Hq2, Hl2.
    assert (o2 = o1) as -> by (rewrite Ho1, Ho2; f_equal; lia).
    assert (is_buy o1 = is_buy o) as Hside by (by rewrite Ho1).
    assert (quantity o1 < two64)%N as Hlt1 by lia.
    assert (side_ladder (negb (is_buy o1)) b11
            = side_ladder (negb (is_buy o1)) b21) as Hlad1
      by (rewrite Hside; by rewrite Hl1, Hl2).
    destruct (IH o1 ts11 b11 ts21 b21 Hc11 Hc21 Hlt1 Hlad1 Hloop)
      as (ts2' & b2' & m1 & m2 & Hloop2 & Hlad' & -> & -> & Hat).
    exists (ts21 ++ m2), b2', (n1 ++ m1), (n2 ++ m2).
    rewrite Hside in Hlad'. subst ts11 ts21.
    rewrite <- app_assoc in Hloop2. rewrite <- !app_assoc.
    split_and!; try done.
    intros p. rewrite !traded_at_app, Hat. f_equal.
    rewrite (traded_at_price p best n1), (traded_at_price p best n2).
    + case_bool_decide; [lia|done].
    + eapply Forall_impl; [exact Hof2|]. by intros t (? & _).
    + eapply Forall_impl; [exact Hof1|]. by intros t (? & _).
Qed.

(** X19: what [add_order] executes depends on the two ladders only, not
    on how the registry splits a level among orders nor on the order in
    which the registry is iterated.  On two consistent books with the same
    ladders, an order with an id fresh in both leaves the same residual
    and the same two ladders, and trades the same quantity at every
    price. *)
Theorem executions_depend_on_ladders_only fuel o b1 b2 r ts1 b1' :
  consistent b1 → consistent b2 →
  bids b1 = bids b2 → asks b1 = asks b2 →
  order_exists (order_id o) b1 = false →
  order_exists (order_id o) b2 = false →
  (quantity o < two64)%N →
  add_order_residual now fuel o b1 = Some (r, ts1, b1') →
  ∃ ts2 b2',
    add_order_residual now fuel o b2 = Some (r, ts2, b2')
    ∧ bids b1' = bids b2' ∧ asks b1' = asks b2'
    ∧ ∀ p, traded_at p ts1 = traded_at p ts2.
Proof.
  intros Hc1 Hc2 Hb Ha Hf1%order_exists_false Hf2%order_exists_false Hq.
  rewrite !add_order_residual_unfold, Hf1, Hf2.
  assert (∀ s, side_ladder s b1 = side_ladder s b2) as Hlad
    by (by intros []).
  destruct (match_loop now fuel o [] b1) as [[[o1 t1] c1]|] eqn:Hloop;
    [|by destruct (order_type o)].
  pose proof (match_loop_effect now _ _ _ _ _ _ _ Hloop)
    as (Ho1 & Hown1 & _).
  destruct (match_loop_ladders _ _ _ _ [] b2 _ _ _ Hc1 Hc2 Hq
              (Hlad _) Hloop)
    as (t2 & c2 & n1 & n2 & Hloop2 & Hcontra & Hn1 & Hn2 & Hat).
  pose proof (match_loop_effect now _ _ _ _ _ _ _ Hloop2)
    as (_ & Hown2 & _).
  simpl in Hn1, Hn2. subst t1 t2. rewrite Hloop2.
  assert (∀ s, side_ladder s c1 = side_ladder s c2) as Hlad'.
  { intros s. destruct (decide (s = is_buy o)) as [->|Hs].
    - by rewrite Hown1, Hown2.
    - assert (s = negb (is_buy o)) as -> by (by destruct s, (is_buy o)).
      done. }
  destruct (order_type o); intros; simplify_eq/=.
  - exists n2, (rest_order r c2). split; [done|].
    split_and!; [| |done].
    + change (side_ladder true (rest_order r c1)
              = side_ladder true (rest_order r c2)).
      by rewrite !side_ladder_rest_order, Hlad'.
    + change (side_ladder false (rest_order r c1)
              = side_ladder false (rest_order r c2)).
      by rewrite !side_ladder_rest_order, Hlad'.
  - exists n2, c2. split; [done|]. split_and!; [apply (Hlad' true)|apply (Hlad' false)|done].
Qed.

End Level.

Lemma book_two_asks_reachable : reachable book_two_asks.
Proof.
  repeat (apply after_add_reachable; [|by vm_compute]). apply reach_empty.
Qed.

Lemma book_one_ask_reachable : reachable book_one_ask.
Proof.
  repeat (apply after_add_reachable; [|by vm_compute]). apply reach_empty.
Qed.

Lemma executions_depend_on_ladders_only_witness :
  ∃ ts2 b2',
    add_order_residual tick 3 (mkOrder 3 true LIMIT 10 7) book_one_ask
    = Some (mkOrder 3 true LIMIT 10 0, ts2, b2')
    ∧ bids (after_add (mkOrder 3 true LIMIT 10 7) book_two_asks) = bids b2'
    ∧ asks (after_add (mkOrder 3 true LIMIT 10 7) book_two_asks) = asks b2'
    ∧ ∀ p, traded_at p [mkTrade 3 1 10 5 0; mkTrade 3 2 10 2 1]
           = traded_at p ts2.
Proof.
  assert (bids book_two_asks = bids book_one_ask) as Hb by (by vm_compute).
  assert (asks book_two_asks = asks book_one_ask) as Ha by (by vm_compute).
  assert (order_exists 3 book_two_asks = false) as Hf1 by (by vm_compute).
  assert (order_exists 3 book_one_ask = false) as Hf2 by (by vm_compute).
  assert (quantity (mkOrder 3 true LIMIT 10 7) < two64)%N as Hq
    by (by vm_compute).
  assert (add_order_residual tick 3 (mkOrder 3 true LIMIT 10 7) book_two_asks
          = Some (mkOrder 3 true LIMIT 10 0,
                  [mkTrade 3 1 10 5 0; mkTrade 3 2 10 2 1],
                  after_add (mkOrder 3 true LIMIT 10 7) book_two_asks))
    as Hrun by (by vm_compute).
  exact (executions_depend_on_ladders_only tick 3
           (mkOrder 3 true LIMIT 10 7) book_two_asks book_one_ask _ _ _
           (reachable_consistent _ book_two_asks_reachable)
           (reachable_consistent _ book_one_ask_reachable)
           Hb Ha Hf1 Hf2 Hq Hrun).
Defined.

Lemma release_levels p q lad cnt lad' cnt' p' :
  release p q lad cnt = (lad', cnt') →
  is_Some (lad' !! p') → is_Some (lad !! p').
Proof.
  unfold release. intros Hrel.
  destruct (lad !! p) as [a|] eqn:Ha; [destruct (a <=? q)%N|]; simplify_eq.
  - destruct (decide (p' = p)) as [->|Hne];
      [by rewrite lookup_delete_eq; intros []|by rewrite lookup_delete_ne].
  - destruct (decide (p' = p)) as [->|Hne];
      [by rewrite Ha|by rewrite lookup_insert_ne].
  - done.
Qed.

Lemma cancel_order_levels id b s p :
  is_Some (side_ladder s (cancel_order id b).2 !! p) →
  is_Some (side_ladder s b !! p).
Proof.
  unfold cancel_order. destruct (orders_find id (orders b)) as [o|]; [|done].
  destruct (order_type o); [|by destruct s].
  change (is_Some (side_ladder s (release_order o b) !! p) →
          is_Some (side_ladder s b !! p)).
  destruct (release_order_sides o b) as (_ & Hrel & Hl & _).
  destruct (decide (s = is_buy o)) as [->|Hs].
  - by apply (release_levels _ _ _ _ _ _ p Hrel).
  - assert (s = negb (is_buy o)) as -> by (by destruct s, (is_buy o)).
    by rewrite Hl.
Qed.

(** X20: [cancel_order] adds no price to either ladder and leaves an
    uncrossed book uncrossed. *)
Theorem cancel_order_keeps_uncrossed id b :
  uncrossed b →
  uncrossed (cancel_order id b).2
  ∧ ∀ s p, is_Some (side_ladder s (cancel_order id b).2 !! p) →
           is_Some (side_ladder s b !! p).
Proof.
  intros Hu. split; [|intros s p; apply cancel_order_levels].
  rewrite uncrossed_iff in *. intros pb pa Hb Ha.
  apply Hu.
  - by apply (cancel_order_levels id b true).
  - by apply (cancel_order_levels id b false).
Qed.

Lemma cancel_order_keeps_uncrossed_witness :
  uncrossed (cancel_order 1 book_spread).2.
Proof.
  assert (uncrossed book_spread) as Hu by (by vm_compute).
  exact (proj1 (cancel_order_keeps_uncrossed 1 book_spread Hu)).
Defined.
